(** * Vulkan samples: swapchain negotiation and multi-threaded recording

    A shallow embedding of the decision logic of three translation units:

    - [test03/source/test1.cpp] ([sample_main], the "init swapchain" sample),
    - [test04/source/VulkanSwapChain.hpp] (class [VulkanSwapChain]),
    - [test04/source/vulkanchromedemo.cpp] (classes [Scene] and
      [VulkanExample]).

    The Vulkan driver is an external collaborator.  Every value the driver
    reports (queue families, surface capabilities, formats, present modes,
    status codes, fresh handles) is an input of the embedded functions, and
    every call that changes driver-side state is an event of a trace.

    Conventions.  [uint32_t] values are carried as [Z]; arithmetic that can
    leave the 32-bit range is wrapped explicitly with [wrap32].  Vulkan
    enumerations and flag bits are carried as their integer values from
    [vulkan.h].  [assert] is embedded as it behaves in a build without
    [NDEBUG]: a failing assertion ends the process. *)

From Stdlib Require Import ZArith Bool String Ascii List FinFun Permutation Lia.
Import ListNotations.
Open Scope Z_scope.

(* ================================================================== *)
(** * Machine integers and Vulkan constants *)

Definition UINT32_MAX : Z := 4294967295.

Definition wrap32 (z : Z) : Z := z mod 4294967296.

(** Values of [vulkan.h]. *)
Definition VK_SUCCESS : Z := 0.
Definition VK_TRUE : Z := 1.
Definition VK_NULL_HANDLE : Z := 0.
Definition VK_QUEUE_GRAPHICS_BIT : Z := 1.
Definition VK_FORMAT_UNDEFINED : Z := 0.
Definition VK_FORMAT_B8G8R8A8_UNORM : Z := 44.
Definition VK_COLORSPACE_SRGB_NONLINEAR_KHR : Z := 0.
Definition VK_PRESENT_MODE_IMMEDIATE_KHR : Z := 0.
Definition VK_PRESENT_MODE_MAILBOX_KHR : Z := 1.
Definition VK_PRESENT_MODE_FIFO_KHR : Z := 2.
Definition VK_SHARING_MODE_EXCLUSIVE : Z := 0.
Definition VK_SHARING_MODE_CONCURRENT : Z := 1.
Definition VK_SURFACE_TRANSFORM_IDENTITY_BIT_KHR : Z := 1.
Definition VK_COMPOSITE_ALPHA_OPAQUE_BIT_KHR : Z := 1.
Definition VK_COMPOSITE_ALPHA_PRE_MULTIPLIED_BIT_KHR : Z := 2.
Definition VK_COMPOSITE_ALPHA_POST_MULTIPLIED_BIT_KHR : Z := 4.
Definition VK_COMPOSITE_ALPHA_INHERIT_BIT_KHR : Z := 8.
Definition VK_IMAGE_USAGE_TRANSFER_SRC_BIT : Z := 1.
Definition VK_IMAGE_USAGE_COLOR_ATTACHMENT_BIT : Z := 16.
Definition VK_FORMAT_FEATURE_BLIT_DST_BIT : Z := 2048.

(* ================================================================== *)
(** * Process outcomes

    A run either yields a value, or ends the process through [exit] after
    printing a message, or ends it on a failed [assert]. *)

Inductive Outcome (A : Type) : Type :=
| Ok (a : A)
| ExitFatal (message : string)
| AssertFailed (expression : string).

Arguments Ok {A} a.
Arguments ExitFatal {A} message.
Arguments AssertFailed {A} expression.

Definition bind {A B : Type} (c : Outcome A) (k : A -> Outcome B) : Outcome B :=
  match c with
  | Ok a => k a
  | ExitFatal m => ExitFatal m
  | AssertFailed e => AssertFailed e
  end.

Definition assert (b : bool) (expression : string) : Outcome unit :=
  if b then Ok tt else AssertFailed expression.


Definition diagnostic {A : Type} (o : Outcome A) : option string :=
  match o with
  | Ok _ => None
  | ExitFatal m => Some m
  | AssertFailed e => Some e
  end.

Declare Scope outcome_scope.
Delimit Scope outcome_scope with outcome.
Notation "x <- c ;; k" := (bind c (fun x => k))
  (at level 61, c at next level, right associativity) : outcome_scope.
Notation "c ;;; k" := (bind c (fun _ => k))
  (at level 61, right associativity) : outcome_scope.

(* ================================================================== *)
(** * Data reported by the driver *)

Module Vk.

(** One queue family: [queueProps[i].queueFlags] together with the
    [VkBool32] the surface-support query wrote into [supportsPresent[i]].
    Both arrays have [queueCount] entries. *)
Record QueueFamily : Type := mkQueueFamily {
  queueFlags : Z;
  supportsPresent : Z
}.

Record VkSurfaceFormatKHR : Type := mkSurfaceFormat {
  format : Z;
  colorSpace : Z
}.

Record VkExtent2D : Type := mkExtent {
  width : Z;
  height : Z
}.

Record VkSurfaceCapabilitiesKHR : Type := mkSurfCaps {
  minImageCount : Z;
  maxImageCount : Z;
  currentExtent : VkExtent2D;
  minImageExtent : VkExtent2D;
  maxImageExtent : VkExtent2D;
  supportedTransforms : Z;
  currentTransform : Z;
  supportedCompositeAlpha : Z
}.

Record VkSwapchainCreateInfoKHR : Type := mkSwapchainCI {
  ci_minImageCount : Z;
  ci_imageFormat : Z;
  ci_imageColorSpace : Z;
  ci_imageExtent : VkExtent2D;
  ci_imageUsage : Z;
  ci_preTransform : Z;
  ci_imageArrayLayers : Z;
  ci_imageSharingMode : Z;
  ci_queueFamilyIndexCount : Z;
  ci_pQueueFamilyIndices : list Z;
  ci_presentMode : Z;
  ci_oldSwapchain : Z;
  ci_clipped : bool;
  ci_compositeAlpha : Z
}.

End Vk.
Import Vk.

Definition is_graphics (q : QueueFamily) : bool :=
  negb (Z.land (queueFlags q) VK_QUEUE_GRAPHICS_BIT =? 0).

Definition is_present (q : QueueFamily) : bool :=
  supportsPresent q =? VK_TRUE.

Definition is_combined (q : QueueFamily) : bool := is_graphics q && is_present q.

(* ================================================================== *)
(** * Queue family search

    The two loops are the same text in [sample_main] (test1.cpp 191-214)
    and in [VulkanSwapChain::initSurface] (VulkanSwapChain.hpp 180-211).
    The loop index stays below [queueCount], itself a [uint32_t], so it
    never wraps and never equals the [UINT32_MAX] sentinel. *)

(** First loop, from index [i] on, with the two result variables
    threaded through; the [break] ends the recursion. *)
Fixpoint search_graphics_present (qs : list QueueFamily) (i g p : Z) : Z * Z :=
  match qs with
  | [] => (g, p)
  | q :: rest =>
      if is_graphics q then
        let g' := if g =? UINT32_MAX then i else g in
        if is_present q then (i, i)
        else search_graphics_present rest (i + 1) g' p
      else search_graphics_present rest (i + 1) g p
  end.

(** Second loop: the first family that can present. *)
Fixpoint search_present (qs : list QueueFamily) (i p : Z) : Z :=
  match qs with
  | [] => p
  | q :: rest =>
      if is_present q then i else search_present rest (i + 1) p
  end.

Definition select_queues (qs : list QueueFamily) : Z * Z :=
  let '(g, p) := search_graphics_present qs 0 UINT32_MAX UINT32_MAX in
  let p' := if p =? UINT32_MAX then search_present qs 0 p else p in
  (g, p').

(** Index of the first element satisfying [f], counted from [i]. *)
Fixpoint first_index {A : Type} (f : A -> bool) (l : list A) (i : Z) : option Z :=
  match l with
  | [] => None
  | a :: rest => if f a then Some i else first_index f rest (i + 1)
  end.

(* ================================================================== *)
(** * test03: [sample_main] (test1.cpp 181-348) *)

Module Test03.

Local Open Scope outcome_scope.

(** Everything [sample_main] reads from its environment between the
    surface-support query and the swapchain creation call. *)
Record Host : Type := mkHost {
  queue_props : list QueueFamily;
  info_width : Z;
  info_height : Z;
  res_formatCount : Z;
  res_surfFormats : Z;
  surfFormats : list VkSurfaceFormatKHR;
  res_surfCapabilities : Z;
  surfCapabilities : VkSurfaceCapabilitiesKHR;
  res_presentModeCount : Z;
  res_presentModes : Z;
  presentModes : list Z;
  res_createSwapchain : Z
}.

(** test1.cpp 238-247. *)
Definition choose_format (fs : list VkSurfaceFormatKHR) : Outcome Z :=
  let formatCount := Z.of_nat (length fs) in
  let first := nth 0 fs (mkSurfaceFormat 0 0) in
  if (formatCount =? 1) && (format first =? VK_FORMAT_UNDEFINED) then
    Ok VK_FORMAT_B8G8R8A8_UNORM
  else
    assert (1 <=? formatCount) "formatCount >= 1" ;;;
    Ok (format first).

(** test1.cpp 274-280 and 282-288, one component. *)
Definition clamp_component (requested lo hi : Z) : Z :=
  if requested <? lo then lo
  else if requested >? hi then hi
  else requested.

(** test1.cpp 267-293. *)
Definition choose_extent (caps : VkSurfaceCapabilitiesKHR) (w h : Z) : VkExtent2D :=
  if width (currentExtent caps) =? 4294967295 then
    mkExtent
      (clamp_component w (width (minImageExtent caps)) (width (maxImageExtent caps)))
      (clamp_component h (height (minImageExtent caps)) (height (maxImageExtent caps)))
  else currentExtent caps.

(** test1.cpp 303. *)
Definition desiredNumberOfSwapChainImages (caps : VkSurfaceCapabilitiesKHR) : Z :=
  minImageCount caps.

(** test1.cpp 305-312. *)
Definition choose_preTransform (caps : VkSurfaceCapabilitiesKHR) : Z :=
  if negb (Z.land (supportedTransforms caps) VK_SURFACE_TRANSFORM_IDENTITY_BIT_KHR =? 0)
  then VK_SURFACE_TRANSFORM_IDENTITY_BIT_KHR
  else currentTransform caps.

(** test1.cpp 314-344: the structure handed to [vkCreateSwapchainKHR]. *)
Definition swapchain_ci (caps : VkSurfaceCapabilitiesKHR) (fmt : Z)
    (extent : VkExtent2D) (g p : Z) : VkSwapchainCreateInfoKHR :=
  let distinct := negb (g =? p) in
  {| ci_minImageCount := desiredNumberOfSwapChainImages caps;
     ci_imageFormat := fmt;
     ci_imageColorSpace := VK_COLORSPACE_SRGB_NONLINEAR_KHR;
     ci_imageExtent := mkExtent (width extent) (height extent);
     ci_imageUsage := VK_IMAGE_USAGE_COLOR_ATTACHMENT_BIT;
     ci_preTransform := choose_preTransform caps;
     ci_imageArrayLayers := 1;
     ci_imageSharingMode :=
       if distinct then VK_SHARING_MODE_CONCURRENT else VK_SHARING_MODE_EXCLUSIVE;
     ci_queueFamilyIndexCount := if distinct then 2 else 0;
     ci_pQueueFamilyIndices := if distinct then [g; p] else [];
     ci_presentMode := VK_PRESENT_MODE_FIFO_KHR;
     ci_oldSwapchain := VK_NULL_HANDLE;
     ci_clipped := true;
     ci_compositeAlpha := VK_COMPOSITE_ALPHA_OPAQUE_BIT_KHR |}.

(** The text written at test1.cpp 221-222, which ends in a line feed. *)
Definition queues_message : string :=
  String.append "Could not find a queues for graphics and present"
                (String (Ascii.ascii_of_nat 10) EmptyString).

(** test1.cpp 181-348, the part of [sample_main] from the queue search to
    the swapchain creation call: the selected queue families and the
    swapchain creation structure, when the run reaches a successful
    [vkCreateSwapchainKHR].  [Test03Run.sample_main] below is the function
    as a whole. *)
Definition sample_main (h : Host) : Outcome (Z * Z * VkSwapchainCreateInfoKHR) :=
  let '(g, p) := select_queues (queue_props h) in
  if (g =? UINT32_MAX) || (p =? UINT32_MAX) then
    ExitFatal queues_message
  else
    assert (res_formatCount h =? VK_SUCCESS) "res == VK_SUCCESS" ;;;
    assert (res_surfFormats h =? VK_SUCCESS) "res == VK_SUCCESS" ;;;
    fmt <- choose_format (surfFormats h) ;;
    assert (res_surfCapabilities h =? VK_SUCCESS) "res == VK_SUCCESS" ;;;
    assert (res_presentModeCount h =? VK_SUCCESS) "res == VK_SUCCESS" ;;;
    assert (res_presentModes h =? VK_SUCCESS) "res == VK_SUCCESS" ;;;
    let swapchainExtent :=
      choose_extent (surfCapabilities h) (info_width h) (info_height h) in
    let ci := swapchain_ci (surfCapabilities h) fmt swapchainExtent g p in
    assert (res_createSwapchain h =? VK_SUCCESS) "res == VK_SUCCESS" ;;;
    Ok (g, p, ci).

(** A host on which every driver call of [sample_main] succeeds. *)
Definition driver_ok (h : Host) : Prop :=
  res_formatCount h = VK_SUCCESS /\
  res_surfFormats h = VK_SUCCESS /\
  res_surfCapabilities h = VK_SUCCESS /\
  res_presentModeCount h = VK_SUCCESS /\
  res_presentModes h = VK_SUCCESS /\
  res_createSwapchain h = VK_SUCCESS.

End Test03.

(* ================================================================== *)
(** * test04: class [VulkanSwapChain] (VulkanSwapChain.hpp) *)

(** Calls that create or destroy a driver object. *)
Inductive DriverCall : Type :=
| CreateSwapchainKHR (ci : VkSwapchainCreateInfoKHR) (handle : Z)
| DestroySwapchainKHR (handle : Z)
| CreateImageView (image : Z) (handle : Z)
| DestroyImageView (handle : Z)
| DestroySurfaceKHR (handle : Z).

Module VulkanSwapChain.

Local Open Scope outcome_scope.

Record SwapChainBuffer : Type := mkBuffer {
  image : Z;
  view : Z
}.

(** The data members the embedded member functions read or write. *)
Record State : Type := mkState {
  surface : Z;
  colorFormat : Z;
  colorSpace : Z;
  swapChain : Z;
  imageCount : Z;
  images : list Z;
  buffers : list SwapChainBuffer;
  queueNodeIndex : Z
}.

(** Modelled from the spec: [vks::tools::exitFatal] of VulkanTools.h, which
    is not part of the sources at hand; it reports the message and ends the
    process ("fails fatally (process-terminating, not a recoverable
    error)"). *)
Definition exitFatal {A : Type} (message caption : string) : Outcome A :=
  ExitFatal message.

(** VulkanSwapChain.hpp 248-258: the first entry whose format is
    [VK_FORMAT_B8G8R8A8_UNORM]. *)
Fixpoint find_B8G8R8A8_UNORM (fs : list VkSurfaceFormatKHR) : option VkSurfaceFormatKHR :=
  match fs with
  | [] => None
  | f :: rest =>
      if format f =? VK_FORMAT_B8G8R8A8_UNORM then Some f
      else find_B8G8R8A8_UNORM rest
  end.

(** VulkanSwapChain.hpp 237-267: the pair ([colorFormat], [colorSpace]). *)
Definition select_surface_format (surfaceFormats : list VkSurfaceFormatKHR) : Z * Z :=
  let formatCount := Z.of_nat (length surfaceFormats) in
  let first := nth 0 surfaceFormats (mkSurfaceFormat 0 0) in
  if (formatCount =? 1) && (format first =? VK_FORMAT_UNDEFINED) then
    (VK_FORMAT_B8G8R8A8_UNORM, Vk.colorSpace first)
  else
    match find_B8G8R8A8_UNORM surfaceFormats with
    | Some f => (format f, Vk.colorSpace f)
    | None => (format first, Vk.colorSpace first)
    end.

(** VulkanSwapChain.hpp 161-268.  [new_surface] is the handle written by
    the platform's surface creation call; [err_formatCount] and
    [err_formats] are the statuses of the two format queries. *)
Definition initSurface (s : State) (new_surface : Z)
    (queueProps : list QueueFamily)
    (err_formatCount err_formats : Z)
    (surfaceFormats : list VkSurfaceFormatKHR) : Outcome State :=
  let queueCount := Z.of_nat (length queueProps) in
  assert (1 <=? queueCount) "queueCount >= 1" ;;;
  let '(graphicsQueueNodeIndex, presentQueueNodeIndex) := select_queues queueProps in
  if (graphicsQueueNodeIndex =? UINT32_MAX) || (presentQueueNodeIndex =? UINT32_MAX) then
    exitFatal "Could not find a graphics and/or presenting queue!" "Fatal error"
  else if negb (graphicsQueueNodeIndex =? presentQueueNodeIndex) then
    exitFatal "Separate graphics and presenting queues are not supported yet!" "Fatal error"
  else
    let formatCount := Z.of_nat (length surfaceFormats) in
    assert (err_formatCount =? 0) "!err" ;;;
    assert (0 <? formatCount) "formatCount > 0" ;;;
    assert (err_formats =? 0) "!err" ;;;
    let '(fmt, space) := select_surface_format surfaceFormats in
    Ok {| surface := new_surface;
          colorFormat := fmt;
          colorSpace := space;
          swapChain := swapChain s;
          imageCount := imageCount s;
          images := images s;
          buffers := buffers s;
          queueNodeIndex := graphicsQueueNodeIndex |}.

(** What [create] reads from the driver. *)
Record CreateEnv : Type := mkCreateEnv {
  err_surfCaps : Z;
  surfCaps : VkSurfaceCapabilitiesKHR;
  err_presentModeCount : Z;
  err_presentModes : Z;
  presentModes : list Z;
  optimalTilingFeatures : Z;
  err_createSwapchain : Z;
  new_swapChain : Z;
  err_imageCount : Z;
  err_images : Z;
  new_images : list Z;
  (** status and handle of [vkCreateImageView] for a given image *)
  vkCreateImageView : Z -> Z * Z
}.

(** VulkanSwapChain.hpp 323-338: the extent of the swapchain. *)
Definition choose_extent (caps : VkSurfaceCapabilitiesKHR) (width height : Z) : VkExtent2D :=
  if Vk.width (currentExtent caps) =? 4294967295 then mkExtent width height
  else currentExtent caps.

(** VulkanSwapChain.hpp 351-362, the body of the loop over [presentModes]
    with [swapchainPresentMode] threaded through. *)
Fixpoint scan_present_modes (modes : list Z) (swapchainPresentMode : Z) : Z :=
  match modes with
  | [] => swapchainPresentMode
  | m :: rest =>
      if m =? VK_PRESENT_MODE_MAILBOX_KHR then VK_PRESENT_MODE_MAILBOX_KHR
      else if negb (swapchainPresentMode =? VK_PRESENT_MODE_MAILBOX_KHR)
              && (m =? VK_PRESENT_MODE_IMMEDIATE_KHR)
      then scan_present_modes rest VK_PRESENT_MODE_IMMEDIATE_KHR
      else scan_present_modes rest swapchainPresentMode
  end.

(** VulkanSwapChain.hpp 345-363. *)
Definition select_present_mode (vsync : bool) (modes : list Z) : Z :=
  if negb vsync then scan_present_modes modes VK_PRESENT_MODE_FIFO_KHR
  else VK_PRESENT_MODE_FIFO_KHR.

(** VulkanSwapChain.hpp 365-370. *)
Definition desiredNumberOfSwapchainImages (caps : VkSurfaceCapabilitiesKHR) : Z :=
  let desired := wrap32 (minImageCount caps + 1) in
  if (0 <? maxImageCount caps) && (desired >? maxImageCount caps)
  then maxImageCount caps
  else desired.

(** VulkanSwapChain.hpp 372-382. *)
Definition choose_preTransform (caps : VkSurfaceCapabilitiesKHR) : Z :=
  if negb (Z.land (supportedTransforms caps) VK_SURFACE_TRANSFORM_IDENTITY_BIT_KHR =? 0)
  then VK_SURFACE_TRANSFORM_IDENTITY_BIT_KHR
  else currentTransform caps.

(** VulkanSwapChain.hpp 393-398. *)
Fixpoint scan_compositeAlpha (flags : list Z) (supported compositeAlpha : Z) : Z :=
  match flags with
  | [] => compositeAlpha
  | flag :: rest =>
      if negb (Z.land supported flag =? 0) then flag
      else scan_compositeAlpha rest supported compositeAlpha
  end.

(** VulkanSwapChain.hpp 384-398. *)
Definition choose_compositeAlpha (caps : VkSurfaceCapabilitiesKHR) : Z :=
  scan_compositeAlpha
    [VK_COMPOSITE_ALPHA_OPAQUE_BIT_KHR;
     VK_COMPOSITE_ALPHA_PRE_MULTIPLIED_BIT_KHR;
     VK_COMPOSITE_ALPHA_POST_MULTIPLIED_BIT_KHR;
     VK_COMPOSITE_ALPHA_INHERIT_BIT_KHR]
    (supportedCompositeAlpha caps)
    VK_COMPOSITE_ALPHA_OPAQUE_BIT_KHR.

(** VulkanSwapChain.hpp 400-425. *)
Definition swapchainCI (s : State) (e : CreateEnv) (swapchainExtent : VkExtent2D)
    (vsync : bool) (oldSwapchain : Z) : VkSwapchainCreateInfoKHR :=
  {| ci_minImageCount := desiredNumberOfSwapchainImages (surfCaps e);
     ci_imageFormat := colorFormat s;
     ci_imageColorSpace := colorSpace s;
     ci_imageExtent := mkExtent (Vk.width swapchainExtent) (Vk.height swapchainExtent);
     ci_imageUsage :=
       if negb (Z.land (optimalTilingFeatures e) VK_FORMAT_FEATURE_BLIT_DST_BIT =? 0)
       then Z.lor VK_IMAGE_USAGE_COLOR_ATTACHMENT_BIT VK_IMAGE_USAGE_TRANSFER_SRC_BIT
       else VK_IMAGE_USAGE_COLOR_ATTACHMENT_BIT;
     ci_preTransform := choose_preTransform (surfCaps e);
     ci_imageArrayLayers := 1;
     ci_imageSharingMode := VK_SHARING_MODE_EXCLUSIVE;
     ci_queueFamilyIndexCount := 0;
     ci_pQueueFamilyIndices := [];
     ci_presentMode := select_present_mode vsync (presentModes e);
     ci_oldSwapchain := oldSwapchain;
     ci_clipped := true;
     ci_compositeAlpha := choose_compositeAlpha (surfCaps e) |}.

(** The loop [for (i = 0; i < imageCount; i++) vkDestroyImageView(device,
    buffers[i].view, nullptr)] of [create] (434-437) and of [cleanup]
    (531-534). *)
Definition destroy_views (s : State) : list DriverCall :=
  map (fun i => DestroyImageView (view (nth i (buffers s) (mkBuffer 0 0))))
      (seq 0 (Z.to_nat (imageCount s))).

(** VulkanSwapChain.hpp 451-477: one buffer and one view per image. *)
Fixpoint create_views (mk : Z -> Z * Z) (imgs : list Z)
  : Outcome (list SwapChainBuffer * list DriverCall) :=
  match imgs with
  | [] => Ok ([], [])
  | img :: rest =>
      let '(err, v) := mk img in
      assert (err =? 0) "!err" ;;;
      r <- create_views mk rest ;;
      Ok (mkBuffer img v :: fst r, CreateImageView img v :: snd r)
  end.

(** VulkanSwapChain.hpp 302-478.  The result carries the new state, the
    values left in [*width] and [*height], and the driver calls in the
    order they were made. *)
Definition create (s : State) (e : CreateEnv) (width height : Z) (vsync : bool)
  : Outcome (State * VkExtent2D * list DriverCall) :=
  let oldSwapchain := swapChain s in
  assert (err_surfCaps e =? 0) "!err" ;;;
  assert (err_presentModeCount e =? 0) "!err" ;;;
  assert (0 <? Z.of_nat (length (presentModes e))) "presentModeCount > 0" ;;;
  assert (err_presentModes e =? 0) "!err" ;;;
  let swapchainExtent := choose_extent (surfCaps e) width height in
  let ci := swapchainCI s e swapchainExtent vsync oldSwapchain in
  assert (err_createSwapchain e =? 0) "!err" ;;;
  let destroyed :=
    if negb (oldSwapchain =? VK_NULL_HANDLE)
    then destroy_views s ++ [DestroySwapchainKHR oldSwapchain]
    else [] in
  assert (err_imageCount e =? 0) "!err" ;;;
  assert (err_images e =? 0) "!err" ;;;
  r <- create_views (vkCreateImageView e) (new_images e) ;;
  Ok ({| surface := surface s;
         colorFormat := colorFormat s;
         colorSpace := colorSpace s;
         swapChain := new_swapChain e;
         imageCount := Z.of_nat (length (new_images e));
         images := new_images e;
         buffers := fst r;
         queueNodeIndex := queueNodeIndex s |},
      swapchainExtent,
      CreateSwapchainKHR ci (new_swapChain e) :: destroyed ++ snd r).

(** VulkanSwapChain.hpp 527-543. *)
Definition cleanup (s : State) : State * list DriverCall :=
  let views :=
    if negb (swapChain s =? VK_NULL_HANDLE) then destroy_views s else [] in
  let handles :=
    if negb (surface s =? VK_NULL_HANDLE)
    then [DestroySwapchainKHR (swapChain s); DestroySurfaceKHR (surface s)]
    else [] in
  ({| surface := VK_NULL_HANDLE;
      colorFormat := colorFormat s;
      colorSpace := colorSpace s;
      swapChain := VK_NULL_HANDLE;
      imageCount := imageCount s;
      images := images s;
      buffers := buffers s;
      queueNodeIndex := queueNodeIndex s |},
   views ++ handles).

(** A driver on which every call of [create] succeeds. *)
Definition driver_ok (e : CreateEnv) : Prop :=
  err_surfCaps e = 0 /\
  err_presentModeCount e = 0 /\
  err_presentModes e = 0 /\
  err_createSwapchain e = 0 /\
  err_imageCount e = 0 /\
  err_images e = 0 /\
  forall img, fst (vkCreateImageView e img) = 0.

End VulkanSwapChain.

(* ================================================================== *)
(** * Driver-side objects

    The swapchains and image views alive in the driver, as changed by the
    calls of a trace. *)

Record Device : Type := mkDevice {
  live_swapchains : list Z;
  live_views : list Z
}.

Definition handle_in (h : Z) (l : list Z) : bool := existsb (Z.eqb h) l.

Definition drop_handle (h : Z) (l : list Z) : list Z :=
  filter (fun x => negb (x =? h)) l.

Definition step (d : Device) (c : DriverCall) : Device :=
  match c with
  | CreateSwapchainKHR _ h => mkDevice (h :: live_swapchains d) (live_views d)
  | DestroySwapchainKHR h => mkDevice (drop_handle h (live_swapchains d)) (live_views d)
  | CreateImageView _ h => mkDevice (live_swapchains d) (h :: live_views d)
  | DestroyImageView h => mkDevice (live_swapchains d) (drop_handle h (live_views d))
  | DestroySurfaceKHR _ => d
  end.

(** The device before the first call and after each call of a trace. *)
Fixpoint states (d : Device) (calls : list DriverCall) : list Device :=
  match calls with
  | [] => [d]
  | c :: rest => d :: states (step d c) rest
  end.

(** A swapchain that can be rendered to: its handle is alive, it has at
    least one image view, and all its image views are alive. *)
Definition swapchain_with_views (d : Device) (chain : Z) (views : list Z) : bool :=
  handle_in chain (live_swapchains d)
  && negb (Nat.eqb (length views) 0)
  && forallb (fun v => handle_in v (live_views d)) views.

Definition views_of (s : VulkanSwapChain.State) : list Z :=
  map VulkanSwapChain.view (VulkanSwapChain.buffers s).

Definition is_destroy (c : DriverCall) : bool :=
  match c with
  | DestroySwapchainKHR _ | DestroyImageView _ | DestroySurfaceKHR _ => true
  | _ => false
  end.

(* ================================================================== *)
(** * test04: class [Scene] (vulkanchromedemo.cpp) *)

Module Scene.

(** [std::string::npos] for a 64-bit [size_t]. *)
Definition npos : Z := 18446744073709551615.

(** [std::string::find] on a C string: the position of the first occurrence
    of [pat] in [s], counted from [i], or [npos]. *)
Fixpoint find_from (s pat : string) (i : Z) : Z :=
  if String.prefix pat s then i
  else match s with
       | EmptyString => npos
       | String _ rest => find_from rest pat (i + 1)
       end.

Definition find (s pat : string) : Z := find_from s pat 0.

(** The conversion [int x = <size_t value>]: reduction modulo 2^32 into
    the signed range. *)
Definition int_of_size_t (z : Z) : Z :=
  let r := z mod 4294967296 in
  if r <? 2147483648 then r else r - 4294967296.

Inductive Pipeline : Type := solid | blending | bg | wireframe.

Record SceneMaterial : Type := mkMaterial {
  name : string;
  pipeline : Pipeline
}.

(** [material] stands for the pointed-to [SceneMaterial]. *)
Record ScenePart : Type := mkPart {
  indexBase : Z;
  indexCount : Z;
  material : SceneMaterial
}.

(** [Scene::loadMaterials], vulkanchromedemo.cpp 216-227. *)
Definition assign_pipeline (material_name : string) : Pipeline :=
  let val := int_of_size_t (find material_name "alpha") in
  if 0 <=? val then blending
  else
    let val := int_of_size_t (find material_name "mask") in
    if 0 <=? val then bg else solid.

Record MeshIds : Type := mkMeshIds {
  bgMeshIds : list Z;
  alphaMeshIds : list Z;
  nonAlphaMeshIds : list Z
}.

(** [Scene::render], vulkanchromedemo.cpp 609-629: the loop body applied
    to the meshes from index [i] on. *)
Fixpoint sort_meshes (renderSingleScenePart : bool) (scenePartIndex : Z)
    (meshes : list ScenePart) (i : Z) (ids : MeshIds) : MeshIds :=
  match meshes with
  | [] => ids
  | mesh :: rest =>
      let continue := sort_meshes renderSingleScenePart scenePartIndex rest (i + 1) in
      if renderSingleScenePart && negb (i =? scenePartIndex) then continue ids
      else
        let testForAlpha := int_of_size_t (find (name (material mesh)) "alpha") in
        if 0 <? testForAlpha then
          continue (mkMeshIds (bgMeshIds ids)
                              (alphaMeshIds ids ++ [int_of_size_t i])
                              (nonAlphaMeshIds ids))
        else
          let testForBG := int_of_size_t (find (name (material mesh)) "mask") in
          if 0 <? testForBG then
            continue (mkMeshIds (bgMeshIds ids ++ [int_of_size_t i])
                                (alphaMeshIds ids)
                                (nonAlphaMeshIds ids))
          else
            continue (mkMeshIds (bgMeshIds ids)
                                (alphaMeshIds ids)
                                (nonAlphaMeshIds ids ++ [int_of_size_t i]))
  end.

(** [Scene::render], vulkanchromedemo.cpp 595-646: the mesh ids passed to
    [RenderMesh], in call order. *)
Definition render (renderSingleScenePart : bool) (scenePartIndex : Z)
    (meshes : list ScenePart) : list Z :=
  let ids := sort_meshes renderSingleScenePart scenePartIndex meshes 0
               (mkMeshIds [] [] []) in
  bgMeshIds ids ++ nonAlphaMeshIds ids ++ alphaMeshIds ids.

(** ** The buckets in the words of the specification *)

(** [pat] occurs somewhere in [s]. *)
Fixpoint contains (s pat : string) : bool :=
  String.prefix pat s
  || match s with
     | EmptyString => false
     | String _ rest => contains rest pat
     end.

(** The ids, in mesh order, of the rendered meshes whose material name
    satisfies [f]. *)
Fixpoint ids_where (f : string -> bool) (renderSingleScenePart : bool)
    (scenePartIndex : Z) (meshes : list ScenePart) (i : Z) : list Z :=
  match meshes with
  | [] => []
  | mesh :: rest =>
      (if (negb renderSingleScenePart || (i =? scenePartIndex))
          && f (name (material mesh))
       then [i] else [])
      ++ ids_where f renderSingleScenePart scenePartIndex rest (i + 1)
  end.

Definition has_mask (n : string) : bool := contains n "mask".
Definition has_alpha (n : string) : bool := contains n "alpha".
Definition has_neither (n : string) : bool := negb (has_mask n) && negb (has_alpha n).
Definition has_mask_only (n : string) : bool := has_mask n && negb (has_alpha n).

(** Draw order as the specification words it: "mask" names, then names
    with neither substring, then "alpha" names. *)
Definition claimed_order (single : bool) (idx : Z) (meshes : list ScenePart) : list Z :=
  ids_where has_mask single idx meshes 0
  ++ ids_where has_neither single idx meshes 0
  ++ ids_where has_alpha single idx meshes 0.

(** Draw order with the background bucket restricted to names without
    "alpha". *)
Definition bucket_order (single : bool) (idx : Z) (meshes : list ScenePart) : list Z :=
  ids_where has_mask_only single idx meshes 0
  ++ ids_where has_neither single idx meshes 0
  ++ ids_where has_alpha single idx meshes 0.

(** Names on which the two substring tests of [render] can be read as
    "contains": shorter than 2^31 characters and starting with neither
    "alpha" nor "mask". *)
Definition plain_name (n : string) : Prop :=
  Z.of_nat (String.length n) < 2147483648 /\
  String.prefix "alpha" n = false /\
  String.prefix "mask" n = false.

End Scene.

(* ================================================================== *)
(** * Indexed access to vectors

    [std::vector] elements addressed by a [uint32_t].  Reading or writing
    past the end is undefined in the source; here a read yields [None] and
    a write leaves the vector as it is. *)

Definition range (n : Z) : list Z := map Z.of_nat (seq 0 (Z.to_nat n)).

Definition at_index {A : Type} (l : list A) (i : Z) : option A :=
  nth_error l (Z.to_nat i).

Fixpoint set_nth {A : Type} (n : nat) (x : A) (l : list A) : list A :=
  match l, n with
  | [], _ => []
  | _ :: rest, O => x :: rest
  | a :: rest, S n' => a :: set_nth n' x rest
  end.

Definition set_index {A : Type} (l : list A) (i : Z) (x : A) : list A :=
  set_nth (Z.to_nat i) x l.

(* ================================================================== *)
(** * test04: class [VulkanExample] (vulkanchromedemo.cpp) *)

Module VulkanExample.

Local Open Scope outcome_scope.

(** [glm::vec3].  The only positions the program ever stores are the grid
    points written by [prepareMultiThreadedRenderer], whose coordinates
    are small integers and hence exact as [float]s. *)
Definition vec3 : Type := (Z * Z * Z)%type.

Record ObjectData : Type := mkObjectData {
  pos : vec3;
  visible : bool
}.

Record ThreadData : Type := mkThreadData {
  commandPool : Z;
  commandBuffer : list Z;
  objectData : list ObjectData
}.

(** The closure [[=] { threadRenderCode(t, i, inheritanceInfo); }]. *)
Record Job : Type := mkJob {
  job_thread : Z;
  job_index : Z
}.

(** vulkanchromedemo.cpp 701-715: [numThreads] and [numObjectsPerThread]. *)
Definition constructor (hardware_concurrency : Z) : Outcome (Z * Z) :=
  let numThreads := hardware_concurrency in
  assert (0 <? numThreads) "numThreads > 0" ;;;
  let numObjectsPerThread := 1024 / numThreads in
  Ok (numThreads, numObjectsPerThread).

(** ** The per-worker job queues

    Modelled from the spec: [vks::ThreadPool] of threadpool.hpp, which is
    not part of the sources at hand.  Each worker owns a private FIFO queue;
    [addJob] appends to the queue of the worker it is called on; a worker
    "pops tasks from only its own queue"; [wait] returns when "all workers
    report their per-frame queues empty". *)

Definition Queues : Type := list (list Job).

Definition setThreadCount (count : Z) : Queues := repeat [] (Z.to_nat count).

Definition addJob (t : Z) (job : Job) (threads : Queues) : Queues :=
  match at_index threads t with
  | Some queue => set_index threads t (queue ++ [job])
  | None => threads
  end.

Definition all_idle (threads : Queues) : Prop :=
  forall queue, In queue threads -> queue = [].

(** vulkanchromedemo.cpp 1774-1780. *)
Definition dispatch (numThreads numObjectsPerThread : Z) (threads : Queues) : Queues :=
  fold_left
    (fun threads t =>
       fold_left (fun threads i => addJob t (mkJob t i) threads)
                 (range numObjectsPerThread) threads)
    (range numThreads) threads.

Section Renderer.

(** [frustum.checkSphere(pos, objectSphereDim * 0.5f)] for the frustum
    planes and the sphere radius of the current frame; frustum.hpp is not
    part of the sources at hand. *)
Variable checkSphere : vec3 -> bool.

(** Handles written by [vkCreateCommandPool] for worker [i] and by
    [vkAllocateCommandBuffers] for slot [j] of worker [i]. *)
Variable vkCreateCommandPool : Z -> Z.
Variable vkAllocateCommandBuffers : Z -> Z -> Z.

(** vulkanchromedemo.cpp 1577-1609: the objects of one worker, with the
    grid cursor ([x1], [y1]) threaded through. *)
Fixpoint place_objects (count : nat) (x1 y1 : Z) : list ObjectData * (Z * Z) :=
  match count with
  | O => ([], (x1, y1))
  | S count' =>
      let '(x1, y1) := if 32 <=? x1 then (x1 - 32, y1 + 1) else (x1, y1) in
      let object := mkObjectData ((-16 + x1) * 2, (-16 + y1) * 2, -10) true in
      let '(rest, cursor) := place_objects count' (x1 + 1) y1 in
      (object :: rest, cursor)
  end.

(** vulkanchromedemo.cpp 1553-1614: workers [i], [i+1], ... *)
Fixpoint prepare_threads (count : nat) (i : Z) (numObjectsPerThread : Z)
    (x1 y1 : Z) : list ThreadData :=
  match count with
  | O => []
  | S count' =>
      let '(objects, (x1', y1')) :=
        place_objects (Z.to_nat numObjectsPerThread) x1 y1 in
      mkThreadData (vkCreateCommandPool i)
                   (map (vkAllocateCommandBuffers i) (range numObjectsPerThread))
                   objects
      :: prepare_threads count' (i + 1) numObjectsPerThread x1' y1'
  end.

Definition prepareMultiThreadedRenderer (numThreads numObjectsPerThread : Z)
  : list ThreadData :=
  prepare_threads (Z.to_nat numThreads) 0 numObjectsPerThread 0 0.

(** vulkanchromedemo.cpp 1619-1685.  After the visibility test the
    function only records into [commandBuffer[cmdBufferIndex]] through the
    driver, which leaves the members embedded here as they are. *)
Definition threadRenderCode (threadIndex cmdBufferIndex : Z)
    (threadData : list ThreadData) : list ThreadData :=
  match at_index threadData threadIndex with
  | None => threadData
  | Some thread =>
      if Z.of_nat (length (objectData thread)) <=? 0 then threadData
      else
        match at_index (objectData thread) cmdBufferIndex with
        | None => threadData
        | Some object =>
            let object' := mkObjectData (pos object) (checkSphere (pos object)) in
            set_index threadData threadIndex
              (mkThreadData (commandPool thread) (commandBuffer thread)
                 (set_index (objectData thread) cmdBufferIndex object'))
        end
  end.

(** One worker takes the job at the head of its own queue and runs it.
    Jobs of different workers touch different [ThreadData] entries, so a
    parallel execution amounts to some sequence of such steps. *)
Inductive worker_step : Queues * list ThreadData -> Queues * list ThreadData -> Prop :=
| worker_runs : forall threads threadData w job rest,
    nth_error threads w = Some (job :: rest) ->
    worker_step (threads, threadData)
                (set_nth w rest threads,
                 threadRenderCode (job_thread job) (job_index job) threadData).

Inductive pool_run : Queues * list ThreadData -> Queues * list ThreadData -> Prop :=
| pool_run_done : forall s, pool_run s s
| pool_run_step : forall s1 s2 s3,
    worker_step s1 s2 -> pool_run s2 s3 -> pool_run s1 s3.

(** vulkanchromedemo.cpp 1785-1797. *)
Definition assemble (numThreads numObjectsPerThread : Z)
    (threadData : list ThreadData) : list Z :=
  flat_map
    (fun t =>
       flat_map
         (fun i =>
            match at_index threadData t with
            | None => []
            | Some thread =>
                if 0 <? Z.of_nat (length (objectData thread)) then
                  match at_index (objectData thread) i,
                        at_index (commandBuffer thread) i with
                  | Some object, Some buffer =>
                      if visible object then [buffer] else []
                  | _, _ => []
                  end
                else []
            end)
         (range numObjectsPerThread))
    (range numThreads).

(** vulkanchromedemo.cpp 1804-1805: the argument of the one
    [vkCmdExecuteCommands] call of the frame, if the call is made. *)
Definition executed (commandBuffers : list Z) : option (list Z) :=
  if 0 <? Z.of_nat (length commandBuffers) then Some commandBuffers else None.

(** vulkanchromedemo.cpp 1774-1805: a frame takes [threadData] to
    [threadData'] and hands [commands] to [vkCmdExecuteCommands].  The
    queues are empty when the frame starts. *)
Definition updateCommandBuffers (numThreads numObjectsPerThread : Z)
    (threadData threadData' : list ThreadData) (commands : option (list Z)) : Prop :=
  exists threads',
    pool_run (dispatch numThreads numObjectsPerThread (setThreadCount numThreads),
              threadData)
             (threads', threadData') /\
    all_idle threads' /\
    commands = executed (assemble numThreads numObjectsPerThread threadData').

(** ** The frame in the words of the specification *)

(** The buffers of one worker whose object passes this frame's visibility
    test, in slot order. *)
Definition visible_buffers (thread : ThreadData) : list Z :=
  map fst
    (filter (fun slot => checkSphere (pos (snd slot)))
            (combine (commandBuffer thread) (objectData thread))).

(** Worker-major, slot-minor. *)
Definition expected_commands (threadData : list ThreadData) : list Z :=
  flat_map visible_buffers threadData.

(** [threadData] as [prepareMultiThreadedRenderer] sizes it. *)
Definition well_sized (numThreads numObjectsPerThread : Z)
    (threadData : list ThreadData) : Prop :=
  Z.of_nat (length threadData) = numThreads /\
  forall thread, In thread threadData ->
    Z.of_nat (length (commandBuffer thread)) = numObjectsPerThread /\
    Z.of_nat (length (objectData thread)) = numObjectsPerThread.

Definition total_objects (threadData : list ThreadData) : Z :=
  fold_right (fun thread n => Z.of_nat (length (objectData thread)) + n) 0 threadData.

End Renderer.

End VulkanExample.

(* ================================================================== *)
(** * Statements of the specification *)

Definition has_graphics (qs : list QueueFamily) : Prop :=
  exists q, In q qs /\ is_graphics q = true.

Definition has_present (qs : list QueueFamily) : Prop :=
  exists q, In q qs /\ is_present q = true.

Definition has_combined (qs : list QueueFamily) : Prop :=
  exists q, In q qs /\ is_combined q = true.

(** [queueCount] is a [uint32_t]. *)
Definition countable (qs : list QueueFamily) : Prop :=
  Z.of_nat (length qs) <= UINT32_MAX.

(** "Clamped to the nearest bound of the range". *)
Definition clamp (x lo hi : Z) : Z := Z.max lo (Z.min x hi).

Definition clamp_extent (caps : VkSurfaceCapabilitiesKHR) (w h : Z) : VkExtent2D :=
  mkExtent (clamp w (width (minImageExtent caps)) (width (maxImageExtent caps)))
           (clamp h (height (minImageExtent caps)) (height (maxImageExtent caps))).

Definition ordered_bounds (caps : VkSurfaceCapabilitiesKHR) : Prop :=
  width (minImageExtent caps) <= width (maxImageExtent caps) /\
  height (minImageExtent caps) <= height (maxImageExtent caps).

(** "minImageCount plus one, reduced to maxImageCount whenever
    maxImageCount is nonzero and smaller than that value". *)
Definition claimed_image_count (caps : VkSurfaceCapabilitiesKHR) : Z :=
  let desired := minImageCount caps + 1 in
  if negb (maxImageCount caps =? 0) && (maxImageCount caps <? desired)
  then maxImageCount caps
  else desired.

(** The surface reports exactly one format, the undefined sentinel. *)
Definition only_undefined (fs : list VkSurfaceFormatKHR) : Prop :=
  exists space, fs = [mkSurfaceFormat VK_FORMAT_UNDEFINED space].

(** A host on which [sample_main] gets past the queue search and every
    driver call succeeds. *)
Definition Test03_host_ok (h : Test03.Host) : Prop :=
  countable (Test03.queue_props h) /\
  has_graphics (Test03.queue_props h) /\
  has_present (Test03.queue_props h) /\
  Test03.driver_ok h.

(** Queue families and query statuses with which
    [VulkanSwapChain::initSurface] gets to the format selection. *)
Definition initSurface_ok (qs : list QueueFamily) (err_formatCount err_formats : Z) : Prop :=
  countable qs /\ has_combined qs /\ err_formatCount = 0 /\ err_formats = 0.

(** A driver with which [VulkanSwapChain::create] runs to its end. *)
Definition create_ok (e : VulkanSwapChain.CreateEnv) : Prop :=
  VulkanSwapChain.driver_ok e /\ VulkanSwapChain.presentModes e <> [].

(** The jobs of worker [t] in dispatch order, slot 0 first. *)
Definition queue_of (numObjectsPerThread t : Z) : list VulkanExample.Job :=
  map (VulkanExample.mkJob t) (range numObjectsPerThread).

Definition Job_eq_dec (a b : VulkanExample.Job) : {a = b} + {a <> b}.
Proof. decide equality; apply Z.eq_dec. Defined.

(** What holds of the queues and the per-worker data at every moment of
    a frame that started from [threadData0]: a queue holds only jobs of
    its own worker; buffers and positions are those of [threadData0]; and
    every slot either carries the result of this frame's visibility test
    or still has its job queued. *)
Definition frame_invariant (checkSphere : VulkanExample.vec3 -> bool)
    (threadData0 : list VulkanExample.ThreadData)
    (state : VulkanExample.Queues * list VulkanExample.ThreadData) : Prop :=
  (forall w queue job,
     nth_error (fst state) w = Some queue -> In job queue ->
     VulkanExample.job_thread job = Z.of_nat w /\ 0 <= VulkanExample.job_index job) /\
  length (snd state) = length threadData0 /\
  forall t thread0,
    nth_error threadData0 t = Some thread0 ->
    exists thread,
      nth_error (snd state) t = Some thread /\
      VulkanExample.commandBuffer thread = VulkanExample.commandBuffer thread0 /\
      length (VulkanExample.objectData thread) =
        length (VulkanExample.objectData thread0) /\
      forall i object0,
        nth_error (VulkanExample.objectData thread0) i = Some object0 ->
        exists object,
          nth_error (VulkanExample.objectData thread) i = Some object /\
          VulkanExample.pos object = VulkanExample.pos object0 /\
          (VulkanExample.visible object = checkSphere (VulkanExample.pos object0) \/
           exists queue,
             nth_error (fst state) t = Some queue /\
             In (VulkanExample.mkJob (Z.of_nat t) (Z.of_nat i)) queue).

(* ================================================================== *)
(** * Sample inputs *)

Definition graphics_only : QueueFamily := mkQueueFamily 1 0.
Definition present_only : QueueFamily := mkQueueFamily 0 1.
Definition combined_family : QueueFamily := mkQueueFamily 1 1.

(** A [VulkanSwapChain] object as constructed: no surface, no swapchain. *)
Definition blank_swapchain : VulkanSwapChain.State :=
  VulkanSwapChain.mkState 0 0 0 0 0 [] [] UINT32_MAX.

(** Capabilities of a surface that leaves the extent to the swapchain:
    2 to 8 images, extents from 1x1 to 4096x4096. *)
Definition free_size_caps : VkSurfaceCapabilitiesKHR :=
  mkSurfCaps 2 8 (mkExtent 4294967295 4294967295)
             (mkExtent 1 1) (mkExtent 4096 4096) 1 1 1.

(** Capabilities of a surface with a fixed 800x600 extent. *)
Definition fixed_size_caps : VkSurfaceCapabilitiesKHR :=
  mkSurfCaps 2 8 (mkExtent 800 600)
             (mkExtent 1 1) (mkExtent 4096 4096) 1 1 1.

Definition bgra_format : VkSurfaceFormatKHR :=
  mkSurfaceFormat VK_FORMAT_B8G8R8A8_UNORM 0.

(** A test03 host with one combined family asking for 5000x5000. *)
Definition sample_host (caps : VkSurfaceCapabilitiesKHR) (modes : list Z) : Test03.Host :=
  Test03.mkHost [combined_family] 5000 5000 0 0 [bgra_format] 0 caps 0 0 modes 0.

(** A driver on which every call of [create] succeeds and which returns
    swapchain 20 with images 200 and 201, viewed by 210 and 211. *)
Definition sample_driver (caps : VkSurfaceCapabilitiesKHR) : VulkanSwapChain.CreateEnv :=
  VulkanSwapChain.mkCreateEnv 0 caps 0 0 [VK_PRESENT_MODE_FIFO_KHR] 0
    0 20 0 0 [200; 201] (fun img => (0, img + 10)).

(** A swapchain object holding swapchain 10 with images 100 and 101,
    viewed by 110 and 111, and the device that holds these objects. *)
Definition old_swapchain : VulkanSwapChain.State :=
  VulkanSwapChain.mkState 1 VK_FORMAT_B8G8R8A8_UNORM 0 10 2 [100; 101]
    [VulkanSwapChain.mkBuffer 100 110; VulkanSwapChain.mkBuffer 101 111] 0.

Definition old_device : Device := mkDevice [10] [110; 111].

(** A mesh of three indices whose material has the given name and the
    pipeline [loadMaterials] assigns to that name. *)
Definition part (n : string) : Scene.ScenePart :=
  Scene.mkPart 0 3 (Scene.mkMaterial n (Scene.assign_pipeline n)).

Definition sample_meshes : list Scene.ScenePart :=
  [part "stone"; part "leaf_alpha_mask"; part "sky_mask"; part "glass_alpha"].

(** A visibility test that passes left of the origin, and two workers
    with two slots each whose stored flags are stale. *)
Definition left_of_origin (p : VulkanExample.vec3) : bool :=
  let '(x, _, _) := p in x <? 0.

Definition sample_threadData : list VulkanExample.ThreadData :=
  [VulkanExample.mkThreadData 1 [11; 12]
     [VulkanExample.mkObjectData (-32, -32, -10) false;
      VulkanExample.mkObjectData (4, -32, -10) true];
   VulkanExample.mkThreadData 2 [21; 22]
     [VulkanExample.mkObjectData (6, -32, -10) true;
      VulkanExample.mkObjectData (-2, -30, -10) false]].

(* ================================================================== *)
(** * Further code of the three files *)

(** ** Names of result codes: [vkErrorToStr] and [vkIsSuccessful]
    (test1.cpp 31-73, VulkanSwapChain.hpp 547-588) *)

Module ResultNames.

Definition label (value : Z) (name : string) : Z * string := (value, name).

(** The [case] labels of [vkErrorToStr], each with the value [vulkan.h]
    gives the enumerator and the string the case returns. *)
Definition cases : list (Z * string) :=
  [label 0 "VK_SUCCESS";
   label 1 "VK_NOT_READY";
   label 2 "VK_TIMEOUT";
   label 3 "VK_EVENT_SET";
   label 4 "VK_EVENT_RESET";
   label 5 "VK_INCOMPLETE";
   label (-1) "VK_ERROR_OUT_OF_HOST_MEMORY";
   label (-2) "VK_ERROR_OUT_OF_DEVICE_MEMORY";
   label (-3) "VK_ERROR_INITIALIZATION_FAILED";
   label (-4) "VK_ERROR_DEVICE_LOST";
   label (-5) "VK_ERROR_MEMORY_MAP_FAILED";
   label (-6) "VK_ERROR_LAYER_NOT_PRESENT";
   label (-7) "VK_ERROR_EXTENSION_NOT_PRESENT";
   label (-8) "VK_ERROR_FEATURE_NOT_PRESENT";
   label (-9) "VK_ERROR_INCOMPATIBLE_DRIVER";
   label (-10) "VK_ERROR_TOO_MANY_OBJECTS";
   label (-11) "VK_ERROR_FORMAT_NOT_SUPPORTED";
   label (-1000000000) "VK_ERROR_SURFACE_LOST_KHR";
   label 1000001003 "VK_SUBOPTIMAL_KHR";
   label (-1000001004) "VK_ERROR_OUT_OF_DATE_KHR";
   label (-1000003001) "VK_ERROR_INCOMPATIBLE_DISPLAY_KHR";
   label (-1000000001) "VK_ERROR_NATIVE_WINDOW_IN_USE_KHR";
   label (-1000011001) "VK_ERROR_VALIDATION_FAILED_EXT";
   label (-1000012000) "VK_ERROR_INVALID_SHADER_NV"].

(** A [switch] whose cases all [return]: the first matching label
    decides, [default] otherwise. *)
Fixpoint switch (errorCode : Z) (labels : list (Z * string)) (default : string) : string :=
  match labels with
  | [] => default
  | (value, name) :: rest =>
      if errorCode =? value then name else switch errorCode rest default
  end.

Definition vkErrorToStr (errorCode : Z) : string := switch errorCode cases EmptyString.

(** The return value and what [printf] writes, if anything. *)
Definition vkIsSuccessful (result : Z) (msg : string) : bool * option string :=
  if negb (result =? VK_SUCCESS) then
    (false,
     Some (String.append "Failed: "
            (String.append msg
               (String.append ". Vulkan has raised an error: "
                  (vkErrorToStr result)))))
  else (true, None).

End ResultNames.

(** ** [VulkanSwapChain::connect] (VulkanSwapChain.hpp 34-51, 279-293) *)

Module SwapChainLoader.

Local Open Scope outcome_scope.

Record FunctionPointers : Type := mkFunctionPointers {
  fpGetPhysicalDeviceSurfaceSupportKHR : Z;
  fpGetPhysicalDeviceSurfaceCapabilitiesKHR : Z;
  fpGetPhysicalDeviceSurfaceFormatsKHR : Z;
  fpGetPhysicalDeviceSurfacePresentModesKHR : Z;
  fpCreateSwapchainKHR : Z;
  fpDestroySwapchainKHR : Z;
  fpGetSwapchainImagesKHR : Z;
  fpAcquireNextImageKHR : Z;
  fpQueuePresentKHR : Z
}.

(** The macros [GET_INSTANCE_PROC_ADDR] and [GET_DEVICE_PROC_ADDR]: look
    the name up, and [exit(1)] without writing anything when the result is
    [NULL].  [getProcAddr] is the driver's lookup for the instance or the
    device at hand; a pointer is carried as an integer, [NULL] as 0. *)
Definition GET_PROC_ADDR (getProcAddr : string -> Z) (entrypoint : string) : Outcome Z :=
  let fp := getProcAddr (String.append "vk" entrypoint) in
  if fp =? 0 then ExitFatal EmptyString else Ok fp.

Definition connect (vkGetInstanceProcAddr vkGetDeviceProcAddr : string -> Z)
  : Outcome FunctionPointers :=
  f1 <- GET_PROC_ADDR vkGetInstanceProcAddr "GetPhysicalDeviceSurfaceSupportKHR" ;;
  f2 <- GET_PROC_ADDR vkGetInstanceProcAddr "GetPhysicalDeviceSurfaceCapabilitiesKHR" ;;
  f3 <- GET_PROC_ADDR vkGetInstanceProcAddr "GetPhysicalDeviceSurfaceFormatsKHR" ;;
  f4 <- GET_PROC_ADDR vkGetInstanceProcAddr "GetPhysicalDeviceSurfacePresentModesKHR" ;;
  f5 <- GET_PROC_ADDR vkGetDeviceProcAddr "CreateSwapchainKHR" ;;
  f6 <- GET_PROC_ADDR vkGetDeviceProcAddr "DestroySwapchainKHR" ;;
  f7 <- GET_PROC_ADDR vkGetDeviceProcAddr "GetSwapchainImagesKHR" ;;
  f8 <- GET_PROC_ADDR vkGetDeviceProcAddr "AcquireNextImageKHR" ;;
  f9 <- GET_PROC_ADDR vkGetDeviceProcAddr "QueuePresentKHR" ;;
  Ok (mkFunctionPointers f1 f2 f3 f4 f5 f6 f7 f8 f9).

(** The names looked up, in order. *)
Definition instance_entrypoints : list string :=
  ["vkGetPhysicalDeviceSurfaceSupportKHR";
   "vkGetPhysicalDeviceSurfaceCapabilitiesKHR";
   "vkGetPhysicalDeviceSurfaceFormatsKHR";
   "vkGetPhysicalDeviceSurfacePresentModesKHR"]%string.

Definition device_entrypoints : list string :=
  ["vkCreateSwapchainKHR";
   "vkDestroySwapchainKHR";
   "vkGetSwapchainImagesKHR";
   "vkAcquireNextImageKHR";
   "vkQueuePresentKHR"]%string.

(** The driver knows every one of [names]. *)
Definition found (getProcAddr : string -> Z) (names : list string) : bool :=
  forallb (fun name => negb (getProcAddr name =? 0)) names.

End SwapChainLoader.

(** ** A swapchain object over its lifetime *)

Module SwapChainLifetime.

Local Open Scope outcome_scope.

(** One call of [VulkanSwapChain::create]: what the driver answers during
    the call, and the arguments. *)
Record CreateCall : Type := mkCreateCall {
  call_env : VulkanSwapChain.CreateEnv;
  call_width : Z;
  call_height : Z;
  call_vsync : bool
}.

(** The first creation followed by every re-creation (a resize calls
    [create] again on the same object), with the driver calls made. *)
Fixpoint create_all (s : VulkanSwapChain.State) (calls : list CreateCall)
  : Outcome (VulkanSwapChain.State * list DriverCall) :=
  match calls with
  | [] => Ok (s, [])
  | c :: rest =>
      r <- VulkanSwapChain.create s (call_env c) (call_width c) (call_height c)
             (call_vsync c) ;;
      r' <- create_all (fst (fst r)) rest ;;
      Ok (fst r', snd r ++ snd r')
  end.

(** The device after all the calls of a trace. *)
Definition final_device (d : Device) (calls : list DriverCall) : Device :=
  fold_left step calls d.

(** What [create] and [cleanup] rely on when they walk [buffers]:
    [imageCount] is the number of buffers. *)
Definition counted (s : VulkanSwapChain.State) : Prop :=
  VulkanSwapChain.imageCount s = Z.of_nat (length (VulkanSwapChain.buffers s)).

(** The device holds nothing but what the object refers to. *)
Definition owns (s : VulkanSwapChain.State) (d : Device) : Prop :=
  (forall h, In h (live_swapchains d) -> h = VulkanSwapChain.swapChain s) /\
  (forall v, In v (live_views d) -> In v (views_of s)) /\
  (VulkanSwapChain.swapChain s = VK_NULL_HANDLE ->
   live_swapchains d = [] /\ live_views d = []).

(** Every call succeeds and returns a swapchain handle other than
    [VK_NULL_HANDLE]. *)
Definition all_ok (calls : list CreateCall) : Prop :=
  forall c, In c calls ->
    create_ok (call_env c) /\
    VulkanSwapChain.new_swapChain (call_env c) <> VK_NULL_HANDLE.

End SwapChainLifetime.

(** ** Loading the scene: [Scene::load], [loadMaterials], [loadMeshes]
    (vulkanchromedemo.cpp 144-229, 332-369, 525-558) *)

Module SceneAssets.

Definition VK_FORMAT_R8G8B8A8_UNORM : Z := 37.

(** The three members of [vulkanDevice->features] that are read. *)
Record Features : Type := mkFeatures {
  textureCompressionBC : bool;
  textureCompressionASTC_LDR : bool;
  textureCompressionETC2 : bool
}.

(** An imported material: its name and the file of its first diffuse
    texture when [GetTextureCount(aiTextureType_DIFFUSE) > 0].  Colours
    and opacity are floating-point data that do not steer the control flow
    and are left out. *)
Record aiMaterial : Type := mkAiMaterial {
  mat_name : string;
  mat_diffuse : option string
}.

(** An imported mesh: its material index and its faces, each with the
    three indices [mIndices[0..2]] that are read.  Vertex data are
    floating-point and left out. *)
Record aiMesh : Type := mkAiMesh {
  mMaterialIndex : Z;
  mFaces : list (Z * Z * Z)
}.

Record aiScene : Type := mkAiScene {
  mMaterials : list aiMaterial;
  mMeshes : list aiMesh
}.

(** How loading ends: normally, through [exitFatal], with an uncaught
    [std::out_of_range], or in a [VK_CHECK_RESULT] that saw the given
    result. *)
Inductive Loading (A : Type) : Type :=
| Loaded (a : A)
| Exit (message : string)
| OutOfRange
| CheckFailed (result : Z).

Arguments Loaded {A} a.
Arguments Exit {A} message.
Arguments OutOfRange {A}.
Arguments CheckFailed {A} result.

Definition and_then {A B : Type} (c : Loading A) (k : A -> Loading B) : Loading B :=
  match c with
  | Loaded a => k a
  | Exit m => Exit m
  | OutOfRange => OutOfRange
  | CheckFailed result => CheckFailed result
  end.

(** Modelled from the spec: the macro [VK_CHECK_RESULT] of VulkanTools.h,
    which is not part of the sources at hand; it "turns any non-success
    boundary result into a fatal error with call-site context". *)
Definition VK_CHECK_RESULT (result : Z) : Loading unit :=
  if result =? VK_SUCCESS then Loaded tt else CheckFailed result.

(** [std::replace(begin, end, old, new)] on a string. *)
Fixpoint replace (s : string) (old new : ascii) : string :=
  match s with
  | EmptyString => EmptyString
  | String c rest =>
      String (if Ascii.eqb c old then new else c) (replace rest old new)
  end.

Fixpoint take (n : nat) (s : string) : string :=
  match n, s with
  | S n', String c rest => String c (take n' rest)
  | _, _ => EmptyString
  end.

Fixpoint drop (n : nat) (s : string) : string :=
  match n, s with
  | S n', String _ rest => drop n' rest
  | _, _ => s
  end.

(** [std::string::insert(pos, str)]: throws [std::out_of_range] when
    [pos > size()]. *)
Definition insert (s : string) (pos : Z) (str : string) : Loading string :=
  if pos >? Z.of_nat (String.length s) then OutOfRange
  else Loaded (String.append (take (Z.to_nat pos) s)
                 (String.append str (drop (Z.to_nat pos) s))).

(** A call of [vks::Texture2D::loadFromFile]: the file and the format. *)
Definition TextureLoad : Type := (string * Z)%type.

Definition backslash : ascii := Ascii.ascii_of_nat 92.
Definition slash : ascii := Ascii.ascii_of_nat 47.

(** vulkanchromedemo.cpp 149-229, one turn of the loop. *)
Definition loadMaterial (features : Features) (assetPath : string) (m : aiMaterial)
  : Loading (Scene.SceneMaterial * TextureLoad) :=
  and_then
    (if textureCompressionBC features then Loaded tt
     else if textureCompressionASTC_LDR features then Loaded tt
     else if textureCompressionETC2 features then Loaded tt
     else Exit "Device does not support any compressed texture format!")
    (fun _ =>
       let texFormat := VK_FORMAT_R8G8B8A8_UNORM in
       let texFormatSuffix := EmptyString in
       and_then
         (match mat_diffuse m with
          | Some texturefile =>
              let fileName := replace texturefile backslash slash in
              and_then (insert fileName (Scene.find fileName ".ktx") texFormatSuffix)
                (fun fileName => Loaded (String.append assetPath fileName, texFormat))
          | None =>
              Loaded (String.append assetPath "dummy_rgba_unorm.ktx",
                      VK_FORMAT_R8G8B8A8_UNORM)
          end)
         (fun texture =>
            Loaded (Scene.mkMaterial (mat_name m) (Scene.assign_pipeline (mat_name m)),
                    texture))).

(** vulkanchromedemo.cpp 145-229, the loop over the materials, which is
    the first part of [Scene::loadMaterials]; [Scene_loadMaterials] below
    is the function as a whole. *)
Fixpoint loadMaterials (features : Features) (assetPath : string)
    (ms : list aiMaterial) : Loading (list Scene.SceneMaterial * list TextureLoad) :=
  match ms with
  | [] => Loaded ([], [])
  | m :: rest =>
      and_then (loadMaterial features assetPath m)
        (fun first =>
           and_then (loadMaterials features assetPath rest)
             (fun others =>
                Loaded (fst first :: fst others, snd first :: snd others)))
  end.

(** The results of the driver calls that follow the loop
    (vulkanchromedemo.cpp 244-314), each wrapped in [VK_CHECK_RESULT]:
    the descriptor pool, the two descriptor set layouts, the pipeline
    layout, the descriptor set of material [i], and the descriptor set of
    the scene. *)
Record DescriptorResults : Type := mkDescriptorResults {
  res_descriptorPool : Z;
  res_sceneLayout : Z;
  res_materialLayout : Z;
  res_pipelineLayout : Z;
  res_materialSet : Z -> Z;
  res_sceneSet : Z
}.

(** vulkanchromedemo.cpp 282-303: one descriptor set for each of the
    materials [i], [i+1], ... *)
Fixpoint allocate_material_sets (res : Z -> Z) (count : nat) (i : Z) : Loading unit :=
  match count with
  | O => Loaded tt
  | S count' =>
      and_then (VK_CHECK_RESULT (res i))
        (fun _ => allocate_material_sets res count' (i + 1))
  end.

(** vulkanchromedemo.cpp 231-314, "Generate descriptor sets for the
    materials": the checked driver calls in source order.  The handles
    they write are not read again in the code embedded here. *)
Definition generate_descriptor_sets (d : DescriptorResults) (size : nat) : Loading unit :=
  and_then (VK_CHECK_RESULT (res_descriptorPool d)) (fun _ =>
  and_then (VK_CHECK_RESULT (res_sceneLayout d)) (fun _ =>
  and_then (VK_CHECK_RESULT (res_materialLayout d)) (fun _ =>
  and_then (VK_CHECK_RESULT (res_pipelineLayout d)) (fun _ =>
  and_then (allocate_material_sets (res_materialSet d) size 0) (fun _ =>
  VK_CHECK_RESULT (res_sceneSet d)))))).

(** vulkanchromedemo.cpp 144-315, [Scene::loadMaterials] as a whole: the
    loop, then the descriptor sets. *)
Definition Scene_loadMaterials (features : Features) (assetPath : string)
    (d : DescriptorResults) (ms : list aiMaterial)
  : Loading (list Scene.SceneMaterial * list TextureLoad) :=
  and_then (loadMaterials features assetPath ms) (fun loaded =>
  and_then (generate_descriptor_sets d (length (fst loaded))) (fun _ =>
  Loaded loaded)).

(** Every driver call after the loop succeeds, for [size] materials. *)
Definition descriptors_ok (d : DescriptorResults) (size : nat) : Prop :=
  res_descriptorPool d = VK_SUCCESS /\
  res_sceneLayout d = VK_SUCCESS /\
  res_materialLayout d = VK_SUCCESS /\
  res_pipelineLayout d = VK_SUCCESS /\
  (forall i, 0 <= i < Z.of_nat size -> res_materialSet d i = VK_SUCCESS) /\
  res_sceneSet d = VK_SUCCESS.

(** [materials[i]]; an index past the end is undefined in the source and
    yields an unnamed material here. *)
Definition material_at (materials : list Scene.SceneMaterial) (i : Z) : Scene.SceneMaterial :=
  nth (Z.to_nat i) materials (Scene.mkMaterial EmptyString Scene.solid).

Definition face_indices (face : Z * Z * Z) : list Z :=
  let '(a, b, c) := face in [a; b; c].

(** vulkanchromedemo.cpp 332-369: the meshes from [aMeshes] on and the
    indices they append, with [indexBase] threaded through.  [mNumFaces]
    and [indexBase] are 32-bit. *)
Fixpoint loadMeshes_from (materials : list Scene.SceneMaterial)
    (aMeshes : list aiMesh) (indexBase : Z) : list Scene.ScenePart * list Z :=
  match aMeshes with
  | [] => ([], [])
  | aMesh :: rest =>
      let mNumFaces := Z.of_nat (length (mFaces aMesh)) in
      let mesh :=
        Scene.mkPart indexBase (wrap32 (mNumFaces * 3))
                     (material_at materials (mMaterialIndex aMesh)) in
      let others :=
        loadMeshes_from materials rest (wrap32 (indexBase + wrap32 (mNumFaces * 3))) in
      (mesh :: fst others, flat_map face_indices (mFaces aMesh) ++ snd others)
  end.

Definition loadMeshes (materials : list Scene.SceneMaterial) (aMeshes : list aiMesh)
  : list Scene.ScenePart * list Z :=
  loadMeshes_from materials aMeshes 0.

(** What a [Scene] holds after loading. *)
Record Contents : Type := mkContents {
  materials : list Scene.SceneMaterial;
  meshes : list Scene.ScenePart;
  indices : list Z;
  textures : list TextureLoad
}.

(** vulkanchromedemo.cpp 525-558.  [aScene] is what the importer returned;
    a null pointer only prints an error and leaves the scene as it was
    constructed. *)
Definition load (features : Features) (assetPath : string) (aScene : option aiScene)
  : Loading Contents :=
  match aScene with
  | Some imported =>
      and_then (loadMaterials features assetPath (mMaterials imported))
        (fun loaded =>
           let built := loadMeshes (fst loaded) (mMeshes imported) in
           Loaded (mkContents (fst loaded) (fst built) (snd built) (snd loaded)))
  | None => Loaded (mkContents [] [] [] [])
  end.

(** The faces of all meshes fit the 32-bit index counter. *)
Definition indices_fit (aMeshes : list aiMesh) : Prop :=
  3 * Z.of_nat (length (flat_map mFaces aMeshes)) <= UINT32_MAX.

Definition supports_compression (features : Features) : bool :=
  textureCompressionBC features
  || textureCompressionASTC_LDR features
  || textureCompressionETC2 features.

(** The texture file a material asks for, after the path separators have
    been normalised. *)
Definition texture_file (m : aiMaterial) : string :=
  match mat_diffuse m with
  | Some texturefile => replace texturefile backslash slash
  | None => "dummy_rgba_unorm.ktx"
  end.

End SceneAssets.

(** ** [VulkanExample::keyPressed] (vulkanchromedemo.cpp 1812-1843) *)

Module ExampleKeys.

(** The key codes the [switch] distinguishes; every other code is
    [other_key]. *)
Inductive Key : Type :=
| KEY_SPACE | GAMEPAD_BUTTON_A | KEY_P | KEY_KPADD | KEY_KPSUB | KEY_L | other_key.

(** The members [keyPressed] reads or writes. *)
Record View : Type := mkView {
  wireframe : bool;
  attachLight : bool;
  renderSingleScenePart : bool;
  scenePartIndex : Z
}.

(** The member functions [keyPressed] calls. *)
Inductive Call : Type :=
| reBuildCommandBuffers
| updateTextOverlay
| updateUniformBuffers.

(** [fillModeNonSolid] is [deviceFeatures.fillModeNonSolid]; [size] is
    [scene->meshes.size()]. *)
Definition keyPressed (fillModeNonSolid : bool) (size : Z) (v : View) (keyCode : Key)
  : View * list Call :=
  match keyCode with
  | KEY_SPACE | GAMEPAD_BUTTON_A =>
      if fillModeNonSolid then
        (mkView (negb (wireframe v)) (attachLight v)
                (renderSingleScenePart v) (scenePartIndex v),
         [reBuildCommandBuffers])
      else (v, [])
  | KEY_P =>
      (mkView (wireframe v) (attachLight v)
              (negb (renderSingleScenePart v)) (scenePartIndex v),
       [reBuildCommandBuffers; updateTextOverlay])
  | KEY_KPADD =>
      (mkView (wireframe v) (attachLight v) (renderSingleScenePart v)
              (if scenePartIndex v <? wrap32 size
               then wrap32 (scenePartIndex v + 1) else 0),
       [reBuildCommandBuffers; updateTextOverlay])
  | KEY_KPSUB =>
      (mkView (wireframe v) (attachLight v) (renderSingleScenePart v)
              (if scenePartIndex v >? 0
               then wrap32 (scenePartIndex v - 1) else wrap32 (wrap32 size - 1)),
       [updateTextOverlay; reBuildCommandBuffers])
  | KEY_L =>
      (mkView (wireframe v) (negb (attachLight v))
              (renderSingleScenePart v) (scenePartIndex v),
       [updateUniformBuffers])
  | other_key => (v, [])
  end.

(** A sequence of key presses. *)
Fixpoint keysPressed (fillModeNonSolid : bool) (size : Z) (v : View) (keys : list Key)
  : View :=
  match keys with
  | [] => v
  | k :: rest =>
      keysPressed fillModeNonSolid size (fst (keyPressed fillModeNonSolid size v k)) rest
  end.

(** The members as the constructors leave them. *)
Definition initial_view : View := mkView false false false 0.

(** What [Scene::render] draws, and with which pipeline, depends on
    these three members. *)
Definition same_drawing (v v' : View) : Prop :=
  wireframe v = wireframe v' /\
  renderSingleScenePart v = renderSingleScenePart v' /\
  scenePartIndex v = scenePartIndex v'.

End ExampleKeys.

(** ** The worker data over the lifetime of [VulkanExample] *)

Module ExampleLifetime.

Import VulkanExample.

(** A worker's data with every flag set to the result of the test. *)
Definition refresh (checkSphere : vec3 -> bool) (thread : ThreadData) : ThreadData :=
  mkThreadData (commandPool thread) (commandBuffer thread)
    (map (fun object => mkObjectData (pos object) (checkSphere (pos object)))
         (objectData thread)).

(** Any number of frames, each with the frustum of its own moment. *)
Inductive frames (N M : Z) : list ThreadData -> list ThreadData -> Prop :=
| frames_none : forall threadData, frames N M threadData threadData
| frames_next : forall checkSphere threadData threadData' threadData'' commands,
    updateCommandBuffers checkSphere N M threadData threadData' commands ->
    frames N M threadData' threadData'' ->
    frames N M threadData threadData''.

Inductive PoolCall : Type :=
| FreeCommandBuffers (commandPool : Z) (commandBufferCount : Z) (buffers : list Z)
| DestroyCommandPool (commandPool : Z).

(** vulkanchromedemo.cpp 732-736, the loop of [~VulkanExample]. *)
Definition free_threads (threadData : list ThreadData) : list PoolCall :=
  flat_map
    (fun thread =>
       [FreeCommandBuffers (commandPool thread)
          (Z.of_nat (length (commandBuffer thread))) (commandBuffer thread);
        DestroyCommandPool (commandPool thread)])
    threadData.

(** The place of the [k]-th object placed, counted over all workers:
    rows of 32, two units apart, from (-32, -32). *)
Definition grid (k : Z) : vec3 :=
  ((-16 + k mod 32) * 2, (-16 + k / 32) * 2, -10).

Definition all_objects (threadData : list ThreadData) : list ObjectData :=
  flat_map objectData threadData.

(** The handles of a worker, which the frames leave as they are. *)
Definition handles (thread : ThreadData) : Z * list Z :=
  (commandPool thread, commandBuffer thread).

End ExampleLifetime.

(** ** [sample_main] as a whole (test1.cpp 75-403, display build) *)

Module Test03Run.

(** How the process ends: [return] from [sample_main] with its value,
    [exit] with its status after the text written to [std::cout], or a
    failed [assert] with its expression. *)
Inductive Termination : Type :=
| Returned (status : Z)
| Exited (status : Z) (output : string)
| Aborted (expression : string).


(** What the driver and [malloc] answer after the swapchain creation
    call: the results of the two [vkGetSwapchainImagesKHR] calls, whether
    [malloc] returned an array for the images, the images, and the result
    and handle of [vkCreateImageView] for an image. *)
Record Images : Type := mkImages {
  swap_chain : Z;
  res_swapchainImageCount : Z;
  swapchainImages_allocated : bool;
  res_swapchainImages : Z;
  swapchainImages : list Z;
  vkCreateImageView : Z -> Z * Z
}.

(** test1.cpp 367-389: one view per image, each checked by an [assert].
    The views made and the calls that made them, up to the first call
    that fails, and whether all calls succeeded. *)
Fixpoint create_views (mk : Z -> Z * Z) (imgs : list Z)
  : list (Z * Z) * list DriverCall * bool :=
  match imgs with
  | [] => ([], [], true)
  | img :: rest =>
      let '(res, v) := mk img in
      if res =? VK_SUCCESS then
        let '(buffers, calls, ok) := create_views mk rest in
        ((img, v) :: buffers, CreateImageView img v :: calls, ok)
      else ([], [], false)
  end.

(** test1.cpp 394-397. *)
Definition clean_up (buffers : list (Z * Z)) (swap_chain : Z) : list DriverCall :=
  map (fun b => DestroyImageView (snd b)) buffers ++ [DestroySwapchainKHR swap_chain].

(** The message of test1.cpp 170, which ends in a line feed. *)
Definition surface_message : string :=
  String.append "Could not create DisplayPlane Surface"
                (String (Ascii.ascii_of_nat 10) EmptyString).

(** test1.cpp 75-403, [sample_main] as a whole in the build that creates
    a display-plane surface: [res_surface] is the result of
    [vkCreateDisplayPlaneSurfaceKHR].  The outcome is how the process
    ends together with the create and destroy calls that succeeded until
    then.  The helpers of util_init.hpp ([init_instance], [init_device],
    [destroy_device] and the like) are not part of the sources at hand
    and are taken to return; the allocations the code does not check are
    taken to succeed; the display is taken to report at least one mode,
    as [modeProperties[0]] is read before the surface is created. *)
Definition sample_main (res_surface : Z) (h : Test03.Host) (i : Images)
  : Termination * list DriverCall :=
  if negb (fst (ResultNames.vkIsSuccessful res_surface surface_message))
  then (Returned 0, [])
  else
    match Test03.sample_main h with
    | ExitFatal output => (Exited (-1) output, [])
    | AssertFailed expression => (Aborted expression, [])
    | Ok (_, _, ci) =>
        let created := [CreateSwapchainKHR ci (swap_chain i)] in
        if negb (res_swapchainImageCount i =? VK_SUCCESS)
        then (Aborted "res == VK_SUCCESS", created)
        else if negb (swapchainImages_allocated i)
        then (Aborted "swapchainImages", created)
        else if negb (res_swapchainImages i =? VK_SUCCESS)
        then (Aborted "res == VK_SUCCESS", created)
        else
          let '(buffers, calls, ok) :=
            create_views (vkCreateImageView i) (swapchainImages i) in
          if ok
          then (Returned 0, created ++ calls ++ clean_up buffers (swap_chain i))
          else (Aborted "res == VK_SUCCESS", created ++ calls)
    end.

(** The two image queries and the allocation of the image array
    succeed. *)
Definition queries_ok (i : Images) : Prop :=
  res_swapchainImageCount i = VK_SUCCESS /\
  swapchainImages_allocated i = true /\
  res_swapchainImages i = VK_SUCCESS.

Definition images_ok (i : Images) : Prop :=
  res_swapchainImageCount i = VK_SUCCESS /\
  swapchainImages_allocated i = true /\
  res_swapchainImages i = VK_SUCCESS /\
  forall img, In img (swapchainImages i) -> fst (vkCreateImageView i img) = VK_SUCCESS.

End Test03Run.

(** ** Statements about the further code *)

(** The tests of [Scene::render] as they are written. *)
Definition drawn_as_alpha (n : string) : bool :=
  0 <? Scene.int_of_size_t (Scene.find n "alpha").

Definition drawn_as_bg (n : string) : bool :=
  negb (drawn_as_alpha n) && (0 <? Scene.int_of_size_t (Scene.find n "mask")).

Definition drawn_as_standard (n : string) : bool :=
  negb (drawn_as_alpha n) && negb (0 <? Scene.int_of_size_t (Scene.find n "mask")).

Definition every_name (n : string) : bool := true.

(** The pipeline [RenderMesh] binds (vulkanchromedemo.cpp 577). *)
Definition bound_pipeline (wireframe : bool) (mesh : Scene.ScenePart) : Scene.Pipeline :=
  if wireframe then Scene.wireframe else Scene.pipeline (Scene.material mesh).

(** The materials carry the pipeline [loadMaterials] gives their name. *)
Definition pipelines_assigned (meshes : list Scene.ScenePart) : Prop :=
  forall mesh, In mesh meshes ->
    Scene.pipeline (Scene.material mesh) =
      Scene.assign_pipeline (Scene.name (Scene.material mesh)).



(** More sample inputs. *)
Definition resize_calls : list SwapChainLifetime.CreateCall :=
  [SwapChainLifetime.mkCreateCall (sample_driver free_size_caps) 640 480 false;
   SwapChainLifetime.mkCreateCall
     (VulkanSwapChain.mkCreateEnv 0 fixed_size_caps 0 0 [VK_PRESENT_MODE_FIFO_KHR] 0
        0 30 0 0 [300; 301; 302] (fun img => (0, img + 10)))
     800 600 true].

Definition surfaced_swapchain : VulkanSwapChain.State :=
  VulkanSwapChain.mkState 1 VK_FORMAT_B8G8R8A8_UNORM 0 0 0 [] [] 0.

Definition sample_scene : SceneAssets.aiScene :=
  SceneAssets.mkAiScene
    [SceneAssets.mkAiMaterial "stone" (Some "textures\stone.ktx"%string);
     SceneAssets.mkAiMaterial "glass_alpha" None]
    [SceneAssets.mkAiMesh 0 [(0, 1, 2); (2, 3, 0)];
     SceneAssets.mkAiMesh 1 [(4, 5, 6)]].

Definition bc_features : SceneAssets.Features := SceneAssets.mkFeatures true false false.

Definition sample_images : Test03Run.Images :=
  Test03Run.mkImages 20 0 true 0 [200; 201] (fun img => (0, img + 10)).

(* ================================================================== *)
(** * Facts about the queue family search *)

Section QueueSearch.

Lemma first_index_range {A : Type} (f : A -> bool) (l : list A) :
  forall i k, first_index f l i = Some k ->
    i <= k < i + Z.of_nat (length l).
Proof.
  induction l as [|a rest IH]; intros i k H; simpl in H.
  - discriminate.
  - destruct (f a).
    + injection H as <-. simpl length. lia.
    + apply IH in H. simpl length. lia.
Qed.

Lemma first_index_none {A : Type} (f : A -> bool) (l : list A) :
  forall i, first_index f l i = None <-> (forall a, In a l -> f a = false).
Proof.
  induction l as [|a rest IH]; intros i; simpl.
  - split; [intros _ a [] | reflexivity].
  - destruct (f a) eqn:Fa.
    + split; [discriminate|]. intros H. specialize (H a (or_introl eq_refl)). congruence.
    + rewrite IH. split.
      * intros H b [<-|Hb]; auto.
      * intros H b Hb. apply H. now right.
Qed.

Lemma first_index_some {A : Type} (f : A -> bool) (l : list A) :
  forall i, (exists a, In a l /\ f a = true) -> exists k, first_index f l i = Some k.
Proof.
  intros i [a [Ha Fa]].
  destruct (first_index f l i) as [k|] eqn:E; [now exists k|].
  rewrite first_index_none in E. rewrite (E a Ha) in Fa. discriminate.
Qed.

(** The element found satisfies the predicate, and nothing before it does. *)
Lemma first_index_found {A : Type} (f : A -> bool) (l : list A) :
  forall i k, first_index f l i = Some k ->
    exists a, nth_error l (Z.to_nat (k - i)) = Some a /\ f a = true.
Proof.
  induction l as [|a rest IH]; intros i k H; simpl in H.
  - discriminate.
  - destruct (f a) eqn:Fa.
    + injection H as <-. exists a. rewrite Z.sub_diag. now split.
    + pose proof (first_index_range _ _ _ _ H) as R.
      destruct (IH _ _ H) as [b [Hb Fb]]. exists b. split; [|exact Fb].
      replace (Z.to_nat (k - i)) with (S (Z.to_nat (k - (i + 1)))) by lia.
      exact Hb.
Qed.

(** The second loop returns the first present-capable index, or leaves
    the variable as it was. *)
Lemma search_present_spec (qs : list QueueFamily) :
  forall i p,
    search_present qs i p =
    match first_index is_present qs i with Some k => k | None => p end.
Proof.
  induction qs as [|q rest IH]; intros i p; simpl.
  - reflexivity.
  - destruct (is_present q); [reflexivity | apply IH].
Qed.

(** The first loop, started with the graphics index already set. *)
Lemma search_graphics_present_set (qs : list QueueFamily) :
  forall i g p, g <> UINT32_MAX ->
    search_graphics_present qs i g p =
    match first_index is_combined qs i with
    | Some k => (k, k)
    | None => (g, p)
    end.
Proof.
  induction qs as [|q rest IH]; intros i g p Hg; simpl.
  - reflexivity.
  - unfold is_combined at 1.
    destruct (is_graphics q); simpl.
    + destruct (is_present q); [reflexivity|].
      destruct (Z.eqb_spec g UINT32_MAX); [contradiction|].
      now apply IH.
    + now apply IH.
Qed.

(** The first loop, started with both variables unset. *)
Lemma search_graphics_present_unset (qs : list QueueFamily) :
  forall i p, 0 <= i -> i + Z.of_nat (length qs) <= UINT32_MAX ->
    search_graphics_present qs i UINT32_MAX p =
    match first_index is_combined qs i with
    | Some k => (k, k)
    | None =>
        (match first_index is_graphics qs i with Some k => k | None => UINT32_MAX end, p)
    end.
Proof.
  induction qs as [|q rest IH]; intros i p Hi Hlen; simpl.
  - reflexivity.
  - simpl length in Hlen. unfold is_combined at 1.
    destruct (is_graphics q); simpl.
    + destruct (is_present q); [reflexivity|].
      rewrite search_graphics_present_set by lia.
      reflexivity.
    + apply IH; lia.
Qed.

(** What the two loops compute together. *)
Lemma select_queues_spec (qs : list QueueFamily) :
  countable qs ->
  select_queues qs =
  match first_index is_combined qs 0 with
  | Some k => (k, k)
  | None =>
      (match first_index is_graphics qs 0 with Some k => k | None => UINT32_MAX end,
       match first_index is_present qs 0 with Some k => k | None => UINT32_MAX end)
  end.
Proof.
  intros Hc. unfold countable in Hc. unfold select_queues.
  rewrite search_graphics_present_unset by lia.
  destruct (first_index is_combined qs 0) as [k|] eqn:E.
  - apply first_index_range in E.
    destruct (Z.eqb_spec k UINT32_MAX); [lia | reflexivity].
  - rewrite Z.eqb_refl. now rewrite search_present_spec.
Qed.

Lemma found_below_sentinel {A : Type} (f : A -> bool) (l : list A) (k : Z) :
  Z.of_nat (length l) <= UINT32_MAX ->
  first_index f l 0 = Some k -> 0 <= k < UINT32_MAX.
Proof. intros Hc H. apply first_index_range in H. lia. Qed.

Lemma has_combined_graphics (qs : list QueueFamily) :
  has_combined qs -> has_graphics qs.
Proof.
  intros [q [Hq H]]. exists q. split; [exact Hq|].
  now apply andb_true_iff in H.
Qed.

Lemma has_combined_present (qs : list QueueFamily) :
  has_combined qs -> has_present qs.
Proof.
  intros [q [Hq H]]. exists q. split; [exact Hq|].
  now apply andb_true_iff in H.
Qed.

Lemma no_combined_none (qs : list QueueFamily) :
  ~ has_combined qs -> first_index is_combined qs 0 = None.
Proof.
  intros H. apply first_index_none. intros q Hq.
  destruct (is_combined q) eqn:E; [|reflexivity].
  exfalso. apply H. now exists q.
Qed.

(** With no combined family, the first graphics family and the first
    present family are different families. *)
Lemma disjoint_roles_distinct (qs : list QueueFamily) (g p : Z) :
  ~ has_combined qs ->
  first_index is_graphics qs 0 = Some g ->
  first_index is_present qs 0 = Some p ->
  g <> p.
Proof.
  intros Hno Hg Hp E. subst p.
  destruct (first_index_found _ _ _ _ Hg) as [a [Ha Ga]].
  destruct (first_index_found _ _ _ _ Hp) as [b [Hb Pb]].
  rewrite Ha in Hb. injection Hb as <-.
  apply Hno. exists a. split.
  - eapply nth_error_In; eauto.
  - unfold is_combined. now rewrite Ga, Pb.
Qed.

End QueueSearch.

(* ================================================================== *)
(** * When the initialisation code runs to its end *)

Section Runs.

Lemma select_queues_found (qs : list QueueFamily) :
  countable qs -> has_graphics qs -> has_present qs ->
  exists g p, select_queues qs = (g, p) /\
              0 <= g < UINT32_MAX /\ 0 <= p < UINT32_MAX.
Proof.
  intros Hc Hg Hp. rewrite select_queues_spec by exact Hc.
  destruct (first_index is_combined qs 0) as [k|] eqn:E.
  - exists k, k. pose proof (found_below_sentinel _ _ _ Hc E). auto.
  - destruct (first_index_some is_graphics qs 0 Hg) as [g Eg].
    destruct (first_index_some is_present qs 0 Hp) as [p Ep].
    rewrite Eg, Ep. exists g, p.
    pose proof (found_below_sentinel _ _ _ Hc Eg).
    pose proof (found_below_sentinel _ _ _ Hc Ep). auto.
Qed.

Lemma sentinel_tests_false (g p : Z) :
  0 <= g < UINT32_MAX -> 0 <= p < UINT32_MAX ->
  (g =? UINT32_MAX) || (p =? UINT32_MAX) = false.
Proof.
  intros Hg Hp.
  destruct (Z.eqb_spec g UINT32_MAX); [lia|].
  destruct (Z.eqb_spec p UINT32_MAX); [lia|]. reflexivity.
Qed.

Lemma choose_format_nonempty (fs : list VkSurfaceFormatKHR) :
  fs <> [] ->
  exists fmt, Test03.choose_format fs = Ok fmt /\
    (only_undefined fs -> fmt = VK_FORMAT_B8G8R8A8_UNORM) /\
    (~ only_undefined fs -> In fmt (map format fs)).
Proof.
  intros Hne. destruct fs as [|f rest]; [contradiction|].
  unfold Test03.choose_format. cbn [nth].
  destruct ((Z.of_nat (length (f :: rest)) =? 1) && (format f =? VK_FORMAT_UNDEFINED))
    eqn:E.
  - exists VK_FORMAT_B8G8R8A8_UNORM. split; [reflexivity|]. split; [reflexivity|].
    intros Hn. exfalso. apply Hn.
    apply andb_true_iff in E. destruct E as [E1 E2].
    apply Z.eqb_eq in E1, E2. simpl length in E1.
    destruct rest; [|simpl length in E1; lia].
    exists (colorSpace f). destruct f as [fm cs]. simpl in *. now subst.
  - exists (format f).
    replace (1 <=? Z.of_nat (length (f :: rest))) with true
      by (symmetry; apply Z.leb_le; simpl length; lia).
    split; [reflexivity|]. split.
    + intros [space Hs]. injection Hs as -> ->. discriminate E.
    + intros _. now left.
Qed.

(** [sample_main] reaches the swapchain creation on a well-behaved host
    that reports at least one format. *)
Lemma sample_main_runs (h : Test03.Host) :
  Test03_host_ok h -> Test03.surfFormats h <> [] ->
  exists g p fmt,
    select_queues (Test03.queue_props h) = (g, p) /\
    Test03.choose_format (Test03.surfFormats h) = Ok fmt /\
    Test03.sample_main h =
      Ok (g, p,
          Test03.swapchain_ci (Test03.surfCapabilities h) fmt
            (Test03.choose_extent (Test03.surfCapabilities h)
               (Test03.info_width h) (Test03.info_height h)) g p).
Proof.
  intros (Hc & Hg & Hp & D) Hf.
  destruct (select_queues_found _ Hc Hg Hp) as (g & p & Sel & Bg & Bp).
  destruct (choose_format_nonempty _ Hf) as (fmt & Cf & _).
  exists g, p, fmt. split; [exact Sel|]. split; [exact Cf|].
  destruct D as (D1 & D2 & D3 & D4 & D5 & D6).
  unfold Test03.sample_main. rewrite Sel.
  rewrite (sentinel_tests_false _ _ Bg Bp).
  rewrite D1, D2, D3, D4, D5, D6, Cf. reflexivity.
Qed.

Lemma create_views_runs (mk : Z -> Z * Z) (imgs : list Z) :
  (forall img, fst (mk img) = 0) ->
  VulkanSwapChain.create_views mk imgs =
    Ok (map (fun img => VulkanSwapChain.mkBuffer img (snd (mk img))) imgs,
        map (fun img => CreateImageView img (snd (mk img))) imgs).
Proof.
  intros Hok. induction imgs as [|img rest IH]; simpl.
  - reflexivity.
  - specialize (Hok img). destruct (mk img) as [err v]. simpl in Hok. subst err.
    simpl. rewrite IH. reflexivity.
Qed.

(** [create] runs to its end when every driver call succeeds and at least
    one present mode is reported. *)
Lemma create_runs (s : VulkanSwapChain.State) (e : VulkanSwapChain.CreateEnv)
    (w h : Z) (vsync : bool) :
  create_ok e ->
  let extent := VulkanSwapChain.choose_extent (VulkanSwapChain.surfCaps e) w h in
  let mk := VulkanSwapChain.vkCreateImageView e in
  let imgs := VulkanSwapChain.new_images e in
  VulkanSwapChain.create s e w h vsync =
    Ok (VulkanSwapChain.mkState
          (VulkanSwapChain.surface s) (VulkanSwapChain.colorFormat s)
          (VulkanSwapChain.colorSpace s) (VulkanSwapChain.new_swapChain e)
          (Z.of_nat (length imgs)) imgs
          (map (fun img => VulkanSwapChain.mkBuffer img (snd (mk img))) imgs)
          (VulkanSwapChain.queueNodeIndex s),
        extent,
        CreateSwapchainKHR
          (VulkanSwapChain.swapchainCI s e extent vsync (VulkanSwapChain.swapChain s))
          (VulkanSwapChain.new_swapChain e)
        :: (if negb (VulkanSwapChain.swapChain s =? VK_NULL_HANDLE)
            then VulkanSwapChain.destroy_views s
                 ++ [DestroySwapchainKHR (VulkanSwapChain.swapChain s)]
            else [])
           ++ map (fun img => CreateImageView img (snd (mk img))) imgs).
Proof.
  intros [(D1 & D2 & D3 & D4 & D5 & D6 & D7) Hm] extent mk imgs.
  unfold VulkanSwapChain.create.
  rewrite D1, D2, D3, D4, D5, D6.
  replace (0 <? Z.of_nat (length (VulkanSwapChain.presentModes e))) with true.
  - cbn [assert bind Z.eqb]. rewrite (create_views_runs _ _ D7). reflexivity.
  - symmetry. apply Z.ltb_lt.
    destruct (VulkanSwapChain.presentModes e); [contradiction | simpl length; lia].
Qed.

(** [initSurface] gets to the format selection when one family serves
    both roles and the format queries succeed. *)
Lemma initSurface_runs (s : VulkanSwapChain.State) (new_surface : Z)
    (qs : list QueueFamily) (e1 e2 : Z) (fs : list VkSurfaceFormatKHR) :
  initSurface_ok qs e1 e2 -> fs <> [] ->
  exists k,
    first_index is_combined qs 0 = Some k /\
    VulkanSwapChain.initSurface s new_surface qs e1 e2 fs =
      Ok (VulkanSwapChain.mkState new_surface
            (fst (VulkanSwapChain.select_surface_format fs))
            (snd (VulkanSwapChain.select_surface_format fs))
            (VulkanSwapChain.swapChain s) (VulkanSwapChain.imageCount s)
            (VulkanSwapChain.images s) (VulkanSwapChain.buffers s) k).
Proof.
  intros (Hc & Hb & -> & ->) Hf.
  destruct (first_index_some is_combined qs 0 Hb) as [k Ek].
  exists k. split; [exact Ek|].
  pose proof (found_below_sentinel _ _ _ Hc Ek) as Bk.
  unfold VulkanSwapChain.initSurface.
  rewrite (select_queues_spec _ Hc), Ek.
  replace (1 <=? Z.of_nat (length qs)) with true.
  2:{ symmetry. apply Z.leb_le. destruct Hb as [q [Hq _]].
      destruct qs; [destruct Hq | simpl length; lia]. }
  cbn [assert bind].
  rewrite (sentinel_tests_false _ _ Bk Bk), Z.eqb_refl.
  replace (0 <? Z.of_nat (length fs)) with true.
  2:{ symmetry. apply Z.ltb_lt. destruct fs; [contradiction | simpl length; lia]. }
  cbn [negb assert bind Z.eqb].
  destruct (VulkanSwapChain.select_surface_format fs). reflexivity.
Qed.

End Runs.

(* ================================================================== *)
(** * Queue selection and sharing mode *)

Section SharingMode.

Lemma initSurface_separate (s : VulkanSwapChain.State) (surf : Z)
    (qs : list QueueFamily) (e1 e2 : Z) (fs : list VkSurfaceFormatKHR) (g p : Z) :
  countable qs -> ~ has_combined qs ->
  first_index is_graphics qs 0 = Some g ->
  first_index is_present qs 0 = Some p ->
  VulkanSwapChain.initSurface s surf qs e1 e2 fs =
    ExitFatal "Separate graphics and presenting queues are not supported yet!".
Proof.
  intros Hc Hno Eg Ep.
  pose proof (found_below_sentinel _ _ _ Hc Eg) as Bg.
  pose proof (found_below_sentinel _ _ _ Hc Ep) as Bp.
  pose proof (disjoint_roles_distinct _ _ _ Hno Eg Ep) as Hd.
  unfold VulkanSwapChain.initSurface.
  replace (1 <=? Z.of_nat (length qs)) with true.
  2:{ symmetry. apply Z.leb_le. destruct qs; [discriminate Eg | simpl length; lia]. }
  cbn [assert bind].
  rewrite (select_queues_spec _ Hc), (no_combined_none _ Hno), Eg, Ep.
  rewrite (sentinel_tests_false _ _ Bg Bp).
  destruct (Z.eqb_spec g p); [contradiction | reflexivity].
Qed.

(** C2, amended.  When no family serves both roles but some family can do
    graphics and some family can present, the search returns the first
    graphics-capable and the first present-capable index, and they differ.
    [sample_main] of test03 then creates the swapchain with concurrent
    sharing over exactly these two families.  [VulkanSwapChain::initSurface]
    stops with "Separate graphics and presenting queues are not supported
    yet!", and [VulkanSwapChain::create] has exclusive sharing only. *)
Theorem disjoint_families_sharing (qs : list QueueFamily) :
  countable qs -> ~ has_combined qs -> has_graphics qs -> has_present qs ->
  exists g p,
    first_index is_graphics qs 0 = Some g /\
    first_index is_present qs 0 = Some p /\
    g <> p /\
    select_queues qs = (g, p) /\
    (forall h, Test03.queue_props h = qs -> Test03.driver_ok h ->
               Test03.surfFormats h <> [] ->
       exists ci, Test03.sample_main h = Ok (g, p, ci) /\
                  ci_imageSharingMode ci = VK_SHARING_MODE_CONCURRENT /\
                  ci_queueFamilyIndexCount ci = 2 /\
                  ci_pQueueFamilyIndices ci = [g; p]) /\
    (forall s surf e1 e2 fs,
       VulkanSwapChain.initSurface s surf qs e1 e2 fs =
         ExitFatal "Separate graphics and presenting queues are not supported yet!") /\
    (forall s e extent vsync old,
       ci_imageSharingMode (VulkanSwapChain.swapchainCI s e extent vsync old) =
         VK_SHARING_MODE_EXCLUSIVE).
Proof.
  intros Hc Hno Hg Hp.
  destruct (first_index_some is_graphics qs 0 Hg) as [g Eg].
  destruct (first_index_some is_present qs 0 Hp) as [p Ep].
  pose proof (disjoint_roles_distinct _ _ _ Hno Eg Ep) as Hd.
  assert (Sel : select_queues qs = (g, p)).
  { rewrite (select_queues_spec _ Hc), (no_combined_none _ Hno), Eg, Ep. reflexivity. }
  exists g, p. repeat split; try assumption.
  - intros h Hq D Hf.
    assert (Hok : Test03_host_ok h) by (unfold Test03_host_ok; rewrite Hq; auto).
    destruct (sample_main_runs h Hok Hf) as (g' & p' & fmt & Sel' & _ & Run).
    rewrite Hq, Sel in Sel'. injection Sel' as <- <-.
    eexists. split; [exact Run|].
    unfold Test03.swapchain_ci. cbn.
    destruct (Z.eqb_spec g p); [contradiction|]. cbn. auto.
  - intros. eapply initSurface_separate; eauto.
Qed.

Lemma disjoint_families_sharing_witness :
  exists g p,
    first_index is_graphics [graphics_only; present_only] 0 = Some g /\
    first_index is_present [graphics_only; present_only] 0 = Some p /\
    g <> p /\
    select_queues [graphics_only; present_only] = (g, p) /\
    (forall h, Test03.queue_props h = [graphics_only; present_only] ->
               Test03.driver_ok h -> Test03.surfFormats h <> [] ->
       exists ci, Test03.sample_main h = Ok (g, p, ci) /\
                  ci_imageSharingMode ci = VK_SHARING_MODE_CONCURRENT /\
                  ci_queueFamilyIndexCount ci = 2 /\
                  ci_pQueueFamilyIndices ci = [g; p]) /\
    (forall s surf e1 e2 fs,
       VulkanSwapChain.initSurface s surf [graphics_only; present_only] e1 e2 fs =
         ExitFatal "Separate graphics and presenting queues are not supported yet!") /\
    (forall s e extent vsync old,
       ci_imageSharingMode (VulkanSwapChain.swapchainCI s e extent vsync old) =
         VK_SHARING_MODE_EXCLUSIVE).
Proof.
  apply (disjoint_families_sharing [graphics_only; present_only]).
  - unfold countable, UINT32_MAX. simpl. lia.
  - intros [q [[<-|[<-|[]]] H]]; discriminate H.
  - exists graphics_only. split; [left; reflexivity | reflexivity].
  - exists present_only. split; [right; left; reflexivity | reflexivity].
Defined.

(** On one graphics-only and one present-only family, the precondition of
    C2 holds and [VulkanSwapChain::initSurface] produces no swapchain
    state at all. *)
Lemma separate_queues_rejected :
  ~ has_combined [graphics_only; present_only] /\
  has_graphics [graphics_only; present_only] /\
  has_present [graphics_only; present_only] /\
  ~ (exists st,
       VulkanSwapChain.initSurface blank_swapchain 1
         [graphics_only; present_only] 0 0
         [mkSurfaceFormat VK_FORMAT_B8G8R8A8_UNORM 0] = Ok st).
Proof.
  split; [|split; [|split]].
  - intros [q [[<-|[<-|[]]] H]]; discriminate H.
  - exists graphics_only. split; [left; reflexivity | reflexivity].
  - exists present_only. split; [right; left; reflexivity | reflexivity].
  - intros [st H]. vm_compute in H. discriminate H.
Qed.

End SharingMode.

(* ================================================================== *)
(** * Extent and image count of the swapchain *)

Section ExtentAndCount.

Lemma clamp_component_clamp (x lo hi : Z) :
  lo <= hi -> Test03.clamp_component x lo hi = clamp x lo hi.
Proof.
  intros H. unfold Test03.clamp_component, clamp.
  destruct (Z.ltb_spec x lo); [lia|].
  destruct (x >? hi) eqn:E.
  - apply Z.gtb_lt in E. lia.
  - assert (x <= hi) by (destruct (Z.gtb_spec x hi); [discriminate | lia]). lia.
Qed.

Lemma extent_eta (e : VkExtent2D) : mkExtent (width e) (height e) = e.
Proof. now destruct e. Qed.

Lemma sample_host_ok (caps : VkSurfaceCapabilitiesKHR) (modes : list Z) :
  Test03_host_ok (sample_host caps modes).
Proof.
  unfold Test03_host_ok, countable, UINT32_MAX. simpl. split; [lia|].
  split; [exists combined_family; split; [now left | reflexivity]|].
  split; [exists combined_family; split; [now left | reflexivity]|].
  repeat split.
Qed.

Lemma sample_driver_ok (caps : VkSurfaceCapabilitiesKHR) :
  create_ok (sample_driver caps).
Proof.
  split; [|discriminate]. repeat split.
Qed.

(** C3, amended.  In [sample_main] of test03 the extent of the swapchain
    is the requested size clamped component-wise when the surface reports
    the undefined current extent (width 0xFFFFFFFF) and its bounds are
    ordered, and is the current extent of the surface otherwise.
    [VulkanSwapChain::create] does not clamp: it takes the requested size
    as it is when the current extent is undefined, and the current extent
    otherwise. *)
Theorem swapchain_extent_used (h : Test03.Host) (s : VulkanSwapChain.State)
    (e : VulkanSwapChain.CreateEnv) (w ht : Z) (vsync : bool) :
  Test03_host_ok h -> Test03.surfFormats h <> [] -> create_ok e ->
  (exists g p ci,
     Test03.sample_main h = Ok (g, p, ci) /\
     (width (currentExtent (Test03.surfCapabilities h)) = 4294967295 ->
      ordered_bounds (Test03.surfCapabilities h) ->
      ci_imageExtent ci =
        clamp_extent (Test03.surfCapabilities h)
                     (Test03.info_width h) (Test03.info_height h)) /\
     (width (currentExtent (Test03.surfCapabilities h)) <> 4294967295 ->
      ci_imageExtent ci = currentExtent (Test03.surfCapabilities h))) /\
  (exists st ci calls,
     VulkanSwapChain.create s e w ht vsync =
       Ok (st, ci_imageExtent ci,
           CreateSwapchainKHR ci (VulkanSwapChain.swapChain st) :: calls) /\
     (width (currentExtent (VulkanSwapChain.surfCaps e)) = 4294967295 ->
      ci_imageExtent ci = mkExtent w ht) /\
     (width (currentExtent (VulkanSwapChain.surfCaps e)) <> 4294967295 ->
      ci_imageExtent ci = currentExtent (VulkanSwapChain.surfCaps e))).
Proof.
  intros Hok Hf He. split.
  - destruct (sample_main_runs h Hok Hf) as (g & p & fmt & _ & _ & Run).
    eexists g, p, _. split; [exact Run|].
    cbn [Test03.swapchain_ci ci_imageExtent]. rewrite extent_eta.
    unfold Test03.choose_extent. split.
    + intros Hu [Bw Bh]. rewrite Hu. cbn [Z.eqb Pos.eqb].
      unfold clamp_extent. now rewrite !clamp_component_clamp.
    + intros Hd.
      destruct (Z.eqb_spec (width (currentExtent (Test03.surfCapabilities h))) 4294967295);
        [contradiction | reflexivity].
  - pose proof (create_runs s e w ht vsync He) as Run. cbv zeta in Run.
    eexists _, (VulkanSwapChain.swapchainCI s e _ vsync _), _.
    cbn [VulkanSwapChain.swapchainCI ci_imageExtent]. rewrite extent_eta.
    split; [exact Run|].
    unfold VulkanSwapChain.choose_extent. split.
    + intros Hu. rewrite Hu. reflexivity.
    + intros Hd.
      destruct (Z.eqb_spec (width (currentExtent (VulkanSwapChain.surfCaps e))) 4294967295);
        [contradiction | reflexivity].
Qed.

Lemma swapchain_extent_used_witness :
  (exists g p ci,
     Test03.sample_main (sample_host free_size_caps [VK_PRESENT_MODE_FIFO_KHR]) = Ok (g, p, ci) /\
     (width (currentExtent free_size_caps) = 4294967295 ->
      ordered_bounds free_size_caps ->
      ci_imageExtent ci = clamp_extent free_size_caps 5000 5000) /\
     (width (currentExtent free_size_caps) <> 4294967295 ->
      ci_imageExtent ci = currentExtent free_size_caps)) /\
  (exists st ci calls,
     VulkanSwapChain.create old_swapchain (sample_driver free_size_caps) 5000 5000 false =
       Ok (st, ci_imageExtent ci,
           CreateSwapchainKHR ci (VulkanSwapChain.swapChain st) :: calls) /\
     (width (currentExtent free_size_caps) = 4294967295 ->
      ci_imageExtent ci = mkExtent 5000 5000) /\
     (width (currentExtent free_size_caps) <> 4294967295 ->
      ci_imageExtent ci = currentExtent free_size_caps)).
Proof.
  apply (swapchain_extent_used (sample_host free_size_caps [VK_PRESENT_MODE_FIFO_KHR]) old_swapchain
           (sample_driver free_size_caps) 5000 5000 false).
  - apply sample_host_ok.
  - discriminate.
  - apply sample_driver_ok.
Defined.

(** A 5000x5000 request against bounds 1x1 to 4096x4096, where the
    clamped request is 4096x4096: [VulkanSwapChain::create] hands
    5000x5000 to the driver on a surface without a current extent, and
    [sample_main] hands over 800x600 on a surface whose current extent is
    800x600. *)
Lemma extent_not_clamped :
  (exists st ci calls,
     VulkanSwapChain.create old_swapchain (sample_driver free_size_caps) 5000 5000 false =
       Ok (st, mkExtent 5000 5000, CreateSwapchainKHR ci 20 :: calls) /\
     ci_imageExtent ci = mkExtent 5000 5000 /\
     ci_imageExtent ci <> clamp_extent free_size_caps 5000 5000) /\
  (exists ci,
     Test03.sample_main (sample_host fixed_size_caps [VK_PRESENT_MODE_FIFO_KHR]) = Ok (0, 0, ci) /\
     ci_imageExtent ci = mkExtent 800 600 /\
     ci_imageExtent ci <> clamp_extent fixed_size_caps 5000 5000).
Proof.
  split.
  - eexists _, _, _. split; [vm_compute; reflexivity|].
    split; [reflexivity | discriminate].
  - eexists. split; [vm_compute; reflexivity|].
    split; [reflexivity | discriminate].
Qed.

End ExtentAndCount.

Section ImageCount.

Lemma wrap32_small (z : Z) : 0 <= z <= UINT32_MAX -> wrap32 z = z.
Proof. unfold wrap32, UINT32_MAX. intros H. apply Z.mod_small. lia. Qed.

(** Below the top of the 32-bit range the code of [create] computes the
    count the specification words. *)
Lemma desired_images_claimed (caps : VkSurfaceCapabilitiesKHR) :
  0 <= minImageCount caps < UINT32_MAX ->
  0 <= maxImageCount caps ->
  VulkanSwapChain.desiredNumberOfSwapchainImages caps = claimed_image_count caps.
Proof.
  intros Hmin Hmax.
  unfold VulkanSwapChain.desiredNumberOfSwapchainImages, claimed_image_count.
  rewrite wrap32_small by lia.
  destruct (Z.ltb_spec 0 (maxImageCount caps));
    destruct (Z.eqb_spec (maxImageCount caps) 0); try lia; cbn [negb andb].
  - destruct (Z.ltb_spec (maxImageCount caps) (minImageCount caps + 1));
      destruct (minImageCount caps + 1 >? maxImageCount caps) eqn:E;
      try reflexivity.
    + assert (minImageCount caps + 1 <= maxImageCount caps)
        by (destruct (Z.gtb_spec (minImageCount caps + 1) (maxImageCount caps));
            [discriminate | lia]). lia.
    + apply Z.gtb_lt in E. lia.
  - reflexivity.
Qed.

(** C4, amended.  [VulkanSwapChain::create] asks for [minImageCount + 1]
    images, reduced to [maxImageCount] whenever that is nonzero and
    smaller; the sum is a 32-bit sum, so a [minImageCount] of 0xFFFFFFFF
    gives 0, which no bound reduces.  [sample_main] of test03 asks for
    exactly [minImageCount] images. *)
Theorem image_count_requested (h : Test03.Host) (s : VulkanSwapChain.State)
    (e : VulkanSwapChain.CreateEnv) (w ht : Z) (vsync : bool) :
  Test03_host_ok h -> Test03.surfFormats h <> [] -> create_ok e ->
  0 <= minImageCount (VulkanSwapChain.surfCaps e) <= UINT32_MAX ->
  0 <= maxImageCount (VulkanSwapChain.surfCaps e) <= UINT32_MAX ->
  (exists st extent ci calls,
     VulkanSwapChain.create s e w ht vsync =
       Ok (st, extent, CreateSwapchainKHR ci (VulkanSwapChain.swapChain st) :: calls) /\
     (minImageCount (VulkanSwapChain.surfCaps e) < UINT32_MAX ->
      ci_minImageCount ci = claimed_image_count (VulkanSwapChain.surfCaps e)) /\
     (minImageCount (VulkanSwapChain.surfCaps e) = UINT32_MAX ->
      ci_minImageCount ci = 0)) /\
  (exists g p ci,
     Test03.sample_main h = Ok (g, p, ci) /\
     ci_minImageCount ci = minImageCount (Test03.surfCapabilities h)).
Proof.
  intros Hok Hf He Hmin Hmax. split.
  - pose proof (create_runs s e w ht vsync He) as Run. cbv zeta in Run.
    eexists _, _, (VulkanSwapChain.swapchainCI s e _ vsync _), _.
    split; [exact Run|].
    cbn [VulkanSwapChain.swapchainCI ci_minImageCount]. split.
    + intros Hlt. apply desired_images_claimed; lia.
    + intros Heq. unfold VulkanSwapChain.desiredNumberOfSwapchainImages.
      rewrite Heq. change (wrap32 (UINT32_MAX + 1)) with 0.
      destruct (Z.ltb_spec 0 (maxImageCount (VulkanSwapChain.surfCaps e)));
        cbn [andb]; [|reflexivity].
      destruct (0 >? maxImageCount (VulkanSwapChain.surfCaps e)) eqn:E;
        [apply Z.gtb_lt in E; lia | reflexivity].
  - destruct (sample_main_runs h Hok Hf) as (g & p & fmt & _ & _ & Run).
    eexists g, p, _. split; [exact Run | reflexivity].
Qed.

Lemma image_count_requested_witness :
  (exists st extent ci calls,
     VulkanSwapChain.create old_swapchain (sample_driver free_size_caps) 640 480 false =
       Ok (st, extent, CreateSwapchainKHR ci (VulkanSwapChain.swapChain st) :: calls) /\
     (minImageCount free_size_caps < UINT32_MAX ->
      ci_minImageCount ci = claimed_image_count free_size_caps) /\
     (minImageCount free_size_caps = UINT32_MAX ->
      ci_minImageCount ci = 0)) /\
  (exists g p ci,
     Test03.sample_main (sample_host free_size_caps [VK_PRESENT_MODE_FIFO_KHR]) = Ok (g, p, ci) /\
     ci_minImageCount ci = minImageCount free_size_caps).
Proof.
  apply (image_count_requested (sample_host free_size_caps [VK_PRESENT_MODE_FIFO_KHR]) old_swapchain
           (sample_driver free_size_caps) 640 480 false).
  - apply sample_host_ok.
  - discriminate.
  - apply sample_driver_ok.
  - unfold UINT32_MAX. simpl. lia.
  - unfold UINT32_MAX. simpl. lia.
Defined.

(** On a surface that reports 2 to 8 images, [sample_main] asks for 2
    images where the specification says 3. *)
Lemma image_count_without_increment :
  claimed_image_count free_size_caps = 3 /\
  exists ci,
    Test03.sample_main (sample_host free_size_caps [VK_PRESENT_MODE_FIFO_KHR]) = Ok (0, 0, ci) /\
    ci_minImageCount ci = 2 /\
    ci_minImageCount ci <> claimed_image_count free_size_caps.
Proof.
  split; [reflexivity|].
  eexists. split; [vm_compute; reflexivity|].
  split; [reflexivity | discriminate].
Qed.

End ImageCount.

(* ================================================================== *)
(** * Surface format selection *)

Section SurfaceFormat.

Lemma find_B8G8R8A8_UNORM_some (fs : list VkSurfaceFormatKHR) (f : VkSurfaceFormatKHR) :
  VulkanSwapChain.find_B8G8R8A8_UNORM fs = Some f ->
  In f fs /\ format f = VK_FORMAT_B8G8R8A8_UNORM.
Proof.
  induction fs as [|a rest IH]; simpl; [discriminate|].
  destruct (Z.eqb_spec (format a) VK_FORMAT_B8G8R8A8_UNORM) as [E|E].
  - intros H. injection H as <-. auto.
  - intros H. destruct (IH H). auto.
Qed.

Lemma surface_format_eta (f : VkSurfaceFormatKHR) :
  mkSurfaceFormat (format f) (colorSpace f) = f.
Proof. now destruct f. Qed.

(** What [initSurface] stores in [colorFormat] and [colorSpace]. *)
Lemma select_surface_format_spec (fs : list VkSurfaceFormatKHR) :
  fs <> [] ->
  (only_undefined fs ->
   fst (VulkanSwapChain.select_surface_format fs) = VK_FORMAT_B8G8R8A8_UNORM) /\
  (~ only_undefined fs ->
   In (mkSurfaceFormat (fst (VulkanSwapChain.select_surface_format fs))
                       (snd (VulkanSwapChain.select_surface_format fs))) fs).
Proof.
  intros Hne. destruct fs as [|f rest]; [contradiction|].
  unfold VulkanSwapChain.select_surface_format. cbn [nth].
  destruct ((Z.of_nat (length (f :: rest)) =? 1) && (format f =? VK_FORMAT_UNDEFINED))
    eqn:E.
  - split; [reflexivity|]. intros Hn. exfalso. apply Hn.
    apply andb_true_iff in E. destruct E as [E1 E2].
    apply Z.eqb_eq in E1, E2. simpl length in E1.
    destruct rest; [|simpl length in E1; lia].
    exists (colorSpace f). destruct f as [fm cs]. simpl in *. now subst.
  - split.
    + intros [space Hs]. injection Hs as -> ->. discriminate E.
    + intros _.
      destruct (VulkanSwapChain.find_B8G8R8A8_UNORM (f :: rest)) as [b|] eqn:F;
        cbn [fst snd]; rewrite surface_format_eta.
      * now apply find_B8G8R8A8_UNORM_some in F.
      * now left.
Qed.

Lemma only_undefined_nonempty (fs : list VkSurfaceFormatKHR) :
  only_undefined fs -> fs <> [].
Proof. intros [space ->]. discriminate. Qed.

(** C7.  When the surface reports exactly one format and it is
    [VK_FORMAT_UNDEFINED], format selection does not fail: it yields
    [VK_FORMAT_B8G8R8A8_UNORM] and the run goes on.  For every other
    report of one or more formats the format chosen is one of the reported
    ones.  This holds for [sample_main] of test03 and for
    [VulkanSwapChain::initSurface], where the chosen format and colour
    space form a reported entry. *)
Theorem format_selection (h : Test03.Host) (s : VulkanSwapChain.State)
    (surf : Z) (qs : list QueueFamily) (e1 e2 : Z) (fs : list VkSurfaceFormatKHR) :
  Test03_host_ok h -> Test03.surfFormats h = fs ->
  initSurface_ok qs e1 e2 ->
  (only_undefined fs ->
   (exists g p ci,
      Test03.sample_main h = Ok (g, p, ci) /\
      ci_imageFormat ci = VK_FORMAT_B8G8R8A8_UNORM) /\
   (exists st,
      VulkanSwapChain.initSurface s surf qs e1 e2 fs = Ok st /\
      VulkanSwapChain.colorFormat st = VK_FORMAT_B8G8R8A8_UNORM)) /\
  (fs <> [] -> ~ only_undefined fs ->
   (exists g p ci,
      Test03.sample_main h = Ok (g, p, ci) /\
      In (ci_imageFormat ci) (map format fs)) /\
   (exists st,
      VulkanSwapChain.initSurface s surf qs e1 e2 fs = Ok st /\
      In (mkSurfaceFormat (VulkanSwapChain.colorFormat st)
                          (VulkanSwapChain.colorSpace st)) fs)).
Proof.
  intros Hok Hfs Hinit.
  assert (Main : fs <> [] ->
            exists g p ci fmt,
              Test03.sample_main h = Ok (g, p, ci) /\
              ci_imageFormat ci = fmt /\
              (only_undefined fs -> fmt = VK_FORMAT_B8G8R8A8_UNORM) /\
              (~ only_undefined fs -> In fmt (map format fs))).
  { intros Hne.
    assert (Hf : Test03.surfFormats h <> []) by now rewrite Hfs.
    destruct (sample_main_runs h Hok Hf) as (g & p & fmt & _ & Cf & Run).
    destruct (choose_format_nonempty _ Hf) as (fmt' & Cf' & U & R).
    rewrite Cf in Cf'. injection Cf' as <-. rewrite Hfs in U, R.
    eexists g, p, _, fmt. split; [exact Run|]. split; [reflexivity|]. auto. }
  assert (Init : fs <> [] ->
            exists st,
              VulkanSwapChain.initSurface s surf qs e1 e2 fs = Ok st /\
              (only_undefined fs ->
               VulkanSwapChain.colorFormat st = VK_FORMAT_B8G8R8A8_UNORM) /\
              (~ only_undefined fs ->
               In (mkSurfaceFormat (VulkanSwapChain.colorFormat st)
                                   (VulkanSwapChain.colorSpace st)) fs)).
  { intros Hne.
    destruct (initSurface_runs s surf qs e1 e2 fs Hinit Hne) as (k & _ & Run).
    eexists. split; [exact Run|].
    cbn [VulkanSwapChain.colorFormat VulkanSwapChain.colorSpace].
    apply select_surface_format_spec. exact Hne. }
  split.
  - intros U. pose proof (only_undefined_nonempty _ U) as Hne.
    destruct (Main Hne) as (g & p & ci & fmt & Run & E & Hu & _).
    destruct (Init Hne) as (st & Run' & Hu' & _).
    split; [exists g, p, ci; split; [exact Run | rewrite E; auto]|].
    exists st. auto.
  - intros Hne N.
    destruct (Main Hne) as (g & p & ci & fmt & Run & E & _ & Hr).
    destruct (Init Hne) as (st & Run' & _ & Hr').
    split; [exists g, p, ci; split; [exact Run | rewrite E; auto]|].
    exists st. auto.
Qed.

Lemma format_selection_witness :
  (exists g p ci,
     Test03.sample_main
       (Test03.mkHost [combined_family] 640 480 0 0
          [mkSurfaceFormat VK_FORMAT_UNDEFINED 0] 0 free_size_caps 0 0
          [VK_PRESENT_MODE_FIFO_KHR] 0) = Ok (g, p, ci) /\
     ci_imageFormat ci = VK_FORMAT_B8G8R8A8_UNORM) /\
  (exists st,
     VulkanSwapChain.initSurface blank_swapchain 1 [combined_family] 0 0
       [mkSurfaceFormat VK_FORMAT_UNDEFINED 0] = Ok st /\
     VulkanSwapChain.colorFormat st = VK_FORMAT_B8G8R8A8_UNORM).
Proof.
  refine (proj1 (format_selection
                   (Test03.mkHost [combined_family] 640 480 0 0
                      [mkSurfaceFormat VK_FORMAT_UNDEFINED 0] 0 free_size_caps 0 0
                      [VK_PRESENT_MODE_FIFO_KHR] 0)
                   blank_swapchain 1 [combined_family] 0 0
                   [mkSurfaceFormat VK_FORMAT_UNDEFINED 0] _ _ _) _).
  - unfold Test03_host_ok, countable, UINT32_MAX. simpl. split; [lia|].
    split; [exists combined_family; split; [now left | reflexivity]|].
    split; [exists combined_family; split; [now left | reflexivity]|].
    repeat split.
  - reflexivity.
  - unfold initSurface_ok, countable, UINT32_MAX. simpl. split; [lia|].
    split; [exists combined_family; split; [now left | reflexivity]|].
    split; reflexivity.
  - exists 0. reflexivity.
Defined.

(** A surface that reports an sRGB format first and BGRA second:
    [sample_main] takes the first entry, [initSurface] the BGRA entry;
    both are reported formats. *)
Lemma format_selection_example :
  Test03.choose_format [mkSurfaceFormat 50 0; bgra_format] = Ok 50 /\
  VulkanSwapChain.select_surface_format [mkSurfaceFormat 50 0; bgra_format] =
    (VK_FORMAT_B8G8R8A8_UNORM, 0).
Proof. split; reflexivity. Qed.

End SurfaceFormat.

(* ================================================================== *)
(** * Cleanup *)

Section Cleanup.

(** C10.  After [cleanup] the swapchain and surface handles are null; a
    second [cleanup] makes no driver call (the image-view loop and the
    two destroy calls are both skipped) and leaves the object as the first
    call left it. *)
Theorem cleanup_idempotent (s : VulkanSwapChain.State) :
  VulkanSwapChain.swapChain (fst (VulkanSwapChain.cleanup s)) = VK_NULL_HANDLE /\
  VulkanSwapChain.surface (fst (VulkanSwapChain.cleanup s)) = VK_NULL_HANDLE /\
  VulkanSwapChain.cleanup (fst (VulkanSwapChain.cleanup s)) =
    (fst (VulkanSwapChain.cleanup s), []).
Proof.
  split; [reflexivity|]. split; reflexivity.
Qed.

(** The first [cleanup] of a swapchain with two image views destroys the
    views, the swapchain and the surface, in that order. *)
Lemma cleanup_example :
  snd (VulkanSwapChain.cleanup old_swapchain) =
    [DestroyImageView 110; DestroyImageView 111;
     DestroySwapchainKHR 10; DestroySurfaceKHR 1].
Proof. reflexivity. Qed.

End Cleanup.

(* ================================================================== *)
(** * Fatal outcomes of the initialisation *)

Section FatalOutcomes.






End FatalOutcomes.

Section FatalCases.




End FatalCases.

(** [sample_main] of test03 after the swapchain creation call. *)
Section SampleMainTail.

Import Test03Run.

Lemma create_views_all (mk : Z -> Z * Z) (imgs : list Z) :
  (forall img, In img imgs -> fst (mk img) = VK_SUCCESS) ->
  create_views mk imgs =
    (map (fun img => (img, snd (mk img))) imgs,
     map (fun img => CreateImageView img (snd (mk img))) imgs,
     true).
Proof.
  induction imgs as [|img rest IH]; intros Hok; [reflexivity|].
  cbn [create_views map].
  pose proof (Hok img (or_introl eq_refl)) as H.
  destruct (mk img) as [res v] eqn:E. cbn [fst snd] in *. rewrite H.
  cbn [Z.eqb VK_SUCCESS]. rewrite IH by (intros; apply Hok; now right).
  reflexivity.
Qed.

(** The loop stops at the first image whose view cannot be created, and
    keeps the views made until then. *)
Lemma create_views_stops (mk : Z -> Z * Z) (imgs : list Z) :
  ~ (forall img, In img imgs -> fst (mk img) = VK_SUCCESS) ->
  exists made failing rest,
    imgs = made ++ failing :: rest /\
    (forall img, In img made -> fst (mk img) = VK_SUCCESS) /\
    fst (mk failing) <> VK_SUCCESS /\
    snd (create_views mk imgs) = false /\
    snd (fst (create_views mk imgs)) =
      map (fun img => CreateImageView img (snd (mk img))) made.
Proof.
  induction imgs as [|img rest IH]; intros Hbad.
  - exfalso. apply Hbad. intros img [].
  - cbn [create_views]. destruct (mk img) as [res v] eqn:E.
    destruct (Z.eqb_spec res VK_SUCCESS) as [->|Hne].
    + destruct IH as (made & failing & rest' & -> & Hmade & Hfail & Stop & Calls).
      { intros Hall. apply Hbad. intros x [<-|Hx]; [now rewrite E | auto]. }
      exists (img :: made), failing, rest'.
      destruct (create_views mk (made ++ failing :: rest')) as [[buffers calls] ok].
      cbn [fst snd] in *. split; [reflexivity|].
      split; [intros x [<-|Hx]; [now rewrite E | auto]|].
      split; [exact Hfail|]. split; [exact Stop|].
      cbn [map]. rewrite E, Calls. reflexivity.
    + exists [], img, rest. cbn [fst snd map app].
      split; [reflexivity|]. split; [intros x []|].
      split; [now rewrite E | split; reflexivity].
Qed.

Lemma views_ok_or_not (mk : Z -> Z * Z) (imgs : list Z) :
  (forall img, In img imgs -> fst (mk img) = VK_SUCCESS) \/
  ~ (forall img, In img imgs -> fst (mk img) = VK_SUCCESS).
Proof.
  induction imgs as [|img rest [IH|IH]].
  - left. intros img [].
  - destruct (Z.eq_dec (fst (mk img)) VK_SUCCESS) as [E|Hne].
    + left. intros x [<-|Hx]; auto.
    + right. intros Hall. apply Hne. apply Hall. now left.
  - right. intros Hall. apply IH. intros x Hx. apply Hall. now right.
Qed.

Lemma images_ok_or_not (i : Images) : images_ok i \/ ~ images_ok i.
Proof.
  unfold images_ok.
  destruct (Z.eq_dec (res_swapchainImageCount i) VK_SUCCESS);
    [|right; tauto].
  destruct (swapchainImages_allocated i);
    [|right; intros (_ & H & _); discriminate H].
  destruct (Z.eq_dec (res_swapchainImages i) VK_SUCCESS);
    [|right; tauto].
  destruct (views_ok_or_not (vkCreateImageView i) (swapchainImages i));
    [left | right]; tauto.
Qed.

(** The run that gets to the end. *)
Lemma sample_main_completes (h : Test03.Host) (i : Images) (g p : Z)
    (ci : VkSwapchainCreateInfoKHR) :
  Test03.sample_main h = Ok (g, p, ci) ->
  images_ok i ->
  sample_main VK_SUCCESS h i =
    (Returned 0,
     CreateSwapchainKHR ci (swap_chain i)
     :: map (fun img => CreateImageView img (snd (vkCreateImageView i img)))
            (swapchainImages i)
     ++ map (fun img => DestroyImageView (snd (vkCreateImageView i img)))
            (swapchainImages i)
     ++ [DestroySwapchainKHR (swap_chain i)]).
Proof.
  intros Run (I1 & I2 & I3 & I4).
  unfold sample_main, ResultNames.vkIsSuccessful. cbn [Z.eqb VK_SUCCESS negb fst].
  rewrite Run, I1, I2, I3. cbn [Z.eqb VK_SUCCESS negb].
  rewrite (create_views_all _ _ I4). unfold clean_up. rewrite map_map.
  reflexivity.
Qed.

(** The run that stops at an assertion after the swapchain creation. *)
Lemma sample_main_stops (h : Test03.Host) (i : Images) (g p : Z)
    (ci : VkSwapchainCreateInfoKHR) :
  Test03.sample_main h = Ok (g, p, ci) ->
  ~ images_ok i ->
  exists expression made,
    sample_main VK_SUCCESS h i =
      (Aborted expression,
       CreateSwapchainKHR ci (swap_chain i)
       :: map (fun img => CreateImageView img (snd (vkCreateImageView i img))) made) /\
    (~ queries_ok i -> made = []) /\
    (queries_ok i ->
     exists failing rest,
       swapchainImages i = made ++ failing :: rest /\
       (forall img, In img made -> fst (vkCreateImageView i img) = VK_SUCCESS) /\
       fst (vkCreateImageView i failing) <> VK_SUCCESS).
Proof.
  intros Run Hbad.
  unfold sample_main, ResultNames.vkIsSuccessful. cbn [Z.eqb VK_SUCCESS negb fst].
  rewrite Run. unfold queries_ok.
  destruct (Z.eqb_spec (res_swapchainImageCount i) VK_SUCCESS) as [E1|N1]; cbn [negb].
  2:{ exists "res == VK_SUCCESS"%string, []. split; [reflexivity|]. split; tauto. }
  destruct (swapchainImages_allocated i) eqn:E2; cbn [negb].
  2:{ exists "swapchainImages"%string, []. split; [reflexivity|].
      split; [reflexivity|]. intros (_ & H & _). discriminate H. }
  destruct (Z.eqb_spec (res_swapchainImages i) VK_SUCCESS) as [E3|N3]; cbn [negb].
  2:{ exists "res == VK_SUCCESS"%string, []. split; [reflexivity|]. split; tauto. }
  destruct (create_views_stops (vkCreateImageView i) (swapchainImages i))
    as (made & failing & rest & Split & Hmade & Hfail & Stop & Calls).
  { intros Hall. apply Hbad. unfold images_ok. rewrite E2. auto. }
  destruct (create_views (vkCreateImageView i) (swapchainImages i))
    as [[buffers calls] ok].
  cbn [fst snd] in Stop, Calls. subst ok calls.
  exists "res == VK_SUCCESS"%string, made. split; [reflexivity|].
  split; [intros N; exfalso; apply N; auto|].
  intros _. exists failing, rest. auto.
Qed.



End SampleMainTail.

Section FatalTheorem.


End FatalTheorem.

Section FatalExamples.



End FatalExamples.

(* ================================================================== *)
(** * Recreating the swapchain *)

Section Recreation.

Import SwapChainLifetime.

Lemma states_invariant (P : Device -> Prop) (calls : list DriverCall) :
  forall d,
    P d ->
    (forall d' c, P d' -> In c calls -> P (step d' c)) ->
    forall d', In d' (states d calls) -> P d'.
Proof.
  induction calls as [|c rest IH]; intros d Hd Hstep d' Hin; simpl in Hin.
  - destruct Hin as [<-|[]]. exact Hd.
  - destruct Hin as [<-|Hin]; [exact Hd|].
    apply (IH (step d c)); auto.
    + apply Hstep; [exact Hd | now left].
    + intros d1 c1 H1 Hc1. apply Hstep; [exact H1 | now right].
Qed.

Lemma handle_in_drop (h x : Z) (l : list Z) :
  h <> x -> handle_in h (drop_handle x l) = handle_in h l.
Proof.
  intros Hne. unfold handle_in, drop_handle.
  induction l as [|a rest IH]; simpl; [reflexivity|].
  destruct (Z.eqb_spec a x) as [->|Ha]; simpl.
  - destruct (Z.eqb_spec h x); [contradiction|]. exact IH.
  - now rewrite IH.
Qed.

Lemma destroy_views_calls (s : VulkanSwapChain.State) (c : DriverCall) :
  In c (VulkanSwapChain.destroy_views s) -> exists v, c = DestroyImageView v.
Proof.
  unfold VulkanSwapChain.destroy_views. rewrite in_map_iff.
  intros [i [<- _]]. eauto.
Qed.

(** The calls that follow the creation of the new swapchain leave its
    handle alive. *)
Lemma new_handle_stays (s : VulkanSwapChain.State) (new : Z) (created : list DriverCall)
    (d : Device) (c : DriverCall) :
  new <> VulkanSwapChain.swapChain s ->
  (forall c', In c' created -> exists img v, c' = CreateImageView img v) ->
  In c ((VulkanSwapChain.destroy_views s
         ++ [DestroySwapchainKHR (VulkanSwapChain.swapChain s)]) ++ created) ->
  handle_in new (live_swapchains d) = true ->
  handle_in new (live_swapchains (step d c)) = true.
Proof.
  intros Hne Hcr Hin Hlive.
  rewrite !in_app_iff in Hin. destruct Hin as [[Hin|[<-|[]]]|Hin].
  - destruct (destroy_views_calls _ _ Hin) as [v ->]. exact Hlive.
  - cbn [step live_swapchains]. now rewrite handle_in_drop.
  - destruct (Hcr _ Hin) as (img & v & ->). exact Hlive.
Qed.

Lemma final_device_app (d : Device) (a b : list DriverCall) :
  final_device d (a ++ b) = final_device (final_device d a) b.
Proof. unfold final_device. apply fold_left_app. Qed.

Lemma map_nth_all {A : Type} (l : list A) (d : A) :
  map (fun i => nth i l d) (seq 0 (length l)) = l.
Proof.
  induction l as [|a rest IH]; cbn [length seq map nth]; [reflexivity|].
  f_equal. rewrite <- seq_shift, map_map. exact IH.
Qed.

(** With [imageCount] equal to the number of buffers, the destroy loop
    walks exactly the views of the object. *)
Lemma destroy_views_counted (s : VulkanSwapChain.State) :
  counted s ->
  VulkanSwapChain.destroy_views s = map DestroyImageView (views_of s).
Proof.
  intros C. unfold VulkanSwapChain.destroy_views, views_of. rewrite C, Nat2Z.id.
  rewrite <- (map_nth_all (VulkanSwapChain.buffers s) (VulkanSwapChain.mkBuffer 0 0)) at 2.
  rewrite !map_map. reflexivity.
Qed.

Lemma final_after_destroying_views (vs : list Z) :
  forall d,
    final_device d (map DestroyImageView vs) =
      mkDevice (live_swapchains d)
               (fold_left (fun l v => drop_handle v l) vs (live_views d)).
Proof.
  induction vs as [|v rest IH]; intros d; cbn.
  - now destruct d.
  - unfold final_device in IH. rewrite IH. reflexivity.
Qed.

Lemma final_after_creating_views (f : Z -> Z) (imgs : list Z) :
  forall d,
    final_device d (map (fun img => CreateImageView img (f img)) imgs) =
      mkDevice (live_swapchains d) (rev (map f imgs) ++ live_views d).
Proof.
  induction imgs as [|img rest IH]; intros d; cbn.
  - now destruct d.
  - unfold final_device in IH. rewrite IH. cbn. now rewrite <- app_assoc.
Qed.

Lemma in_drop_handle (h x : Z) (l : list Z) :
  In h (drop_handle x l) <-> In h l /\ h <> x.
Proof.
  unfold drop_handle. rewrite filter_In. split.
  - intros [H E]. split; [exact H|].
    destruct (Z.eqb_spec h x); [discriminate E | assumption].
  - intros [H E]. split; [exact H|].
    destruct (Z.eqb_spec h x); [contradiction | reflexivity].
Qed.

Lemma nothing_in {A : Type} (l : list A) : (forall a, ~ In a l) -> l = [].
Proof.
  destruct l as [|a rest]; [reflexivity|]. intros H.
  exfalso. apply (H a). now left.
Qed.

(** Dropping every handle of a list that covers [l] leaves nothing. *)
Lemma all_dropped (vs : list Z) :
  forall l, (forall v, In v l -> In v vs) ->
    fold_left (fun l v => drop_handle v l) vs l = [].
Proof.
  induction vs as [|v rest IH]; intros l Hl; cbn.
  - apply nothing_in. intros a Ha. exact (Hl a Ha).
  - apply IH. intros a Ha. apply in_drop_handle in Ha. destruct Ha as [Ha Hne].
    destruct (Hl a Ha) as [E|Hin]; [congruence | exact Hin].
Qed.

Lemma handle_in_In (h : Z) (l : list Z) : handle_in h l = true <-> In h l.
Proof.
  unfold handle_in. rewrite existsb_exists. split.
  - intros (x & Hx & E). apply Z.eqb_eq in E. now subst x.
  - intros H. exists h. split; [exact H | apply Z.eqb_refl].
Qed.

Lemma handle_in_false (h : Z) (l : list Z) : ~ In h l -> handle_in h l = false.
Proof.
  intros N. destruct (handle_in h l) eqn:E; [|reflexivity].
  apply handle_in_In in E. contradiction.
Qed.

(** What is left of [l] when every handle of [vs] has been dropped. *)
Lemma in_dropped (vs : list Z) :
  forall l a,
    In a (fold_left (fun l v => drop_handle v l) vs l) <-> In a l /\ ~ In a vs.
Proof.
  induction vs as [|v rest IH]; intros l a; cbn [fold_left].
  - split; [intros H; split; [exact H | intros []] | intros [H _]; exact H].
  - rewrite IH, in_drop_handle. cbn [In]. split.
    + intros [[H Hne] N]. split; [exact H|]. intros [E|H']; [congruence | contradiction].
    + intros [H N]. split; [split; [exact H|]|]; intros E; apply N; auto.
Qed.

(** The device after a prefix of the calls is one of the states the
    trace goes through. *)
Lemma final_device_in_states (a b : list DriverCall) :
  forall d, In (final_device d a) (states d (a ++ b)).
Proof.
  induction a as [|c rest IH]; intros d.
  - cbn [app final_device fold_left]. destruct b; now left.
  - cbn [app states]. right. apply IH.
Qed.

(** C6, amended.  When [create] replaces an existing swapchain, the new
    swapchain is created first, with the old handle as its
    [oldSwapchain]; then the old image views and the old swapchain are
    destroyed; only then are the image views of the new swapchain
    created.  A swapchain handle, old or new, is alive at every point of
    the recreation.  That does not extend to the image views: when
    [imageCount] counts the buffers of the object, the views destroyed
    are exactly its views, and when the driver hands out view handles
    that are not in use, the recreation goes through a state, after the
    old swapchain is destroyed and before the first new view is created,
    in which no old view and no new view is alive, so that neither the
    old nor the new swapchain has its image views. *)
Theorem recreation_order (s : VulkanSwapChain.State) (e : VulkanSwapChain.CreateEnv)
    (w ht : Z) (vsync : bool) (d0 : Device) :
  create_ok e ->
  VulkanSwapChain.swapChain s <> VK_NULL_HANDLE ->
  VulkanSwapChain.new_swapChain e <> VulkanSwapChain.swapChain s ->
  handle_in (VulkanSwapChain.swapChain s) (live_swapchains d0) = true ->
  exists st extent ci calls,
    VulkanSwapChain.create s e w ht vsync = Ok (st, extent, calls) /\
    calls =
      CreateSwapchainKHR ci (VulkanSwapChain.new_swapChain e)
      :: (VulkanSwapChain.destroy_views s
          ++ [DestroySwapchainKHR (VulkanSwapChain.swapChain s)])
         ++ map (fun b => CreateImageView (VulkanSwapChain.image b)
                                          (VulkanSwapChain.view b))
                (VulkanSwapChain.buffers st) /\
    ci_oldSwapchain ci = VulkanSwapChain.swapChain s /\
    VulkanSwapChain.swapChain st = VulkanSwapChain.new_swapChain e /\
    (forall d, In d (states d0 calls) ->
       handle_in (VulkanSwapChain.swapChain s) (live_swapchains d)
       || handle_in (VulkanSwapChain.new_swapChain e) (live_swapchains d) = true) /\
    views_of st =
      map (fun img => snd (VulkanSwapChain.vkCreateImageView e img))
          (VulkanSwapChain.new_images e) /\
    (counted s ->
     VulkanSwapChain.destroy_views s = map DestroyImageView (views_of s) /\
     ((forall img, In img (VulkanSwapChain.new_images e) ->
         handle_in (snd (VulkanSwapChain.vkCreateImageView e img)) (live_views d0)
           = false) ->
      exists gap,
        gap = final_device d0
                (CreateSwapchainKHR ci (VulkanSwapChain.new_swapChain e)
                 :: map DestroyImageView (views_of s)
                 ++ [DestroySwapchainKHR (VulkanSwapChain.swapChain s)]) /\
        In gap (states d0 calls) /\
        handle_in (VulkanSwapChain.swapChain s) (live_swapchains gap) = false /\
        (forall v, In v (views_of s) -> handle_in v (live_views gap) = false) /\
        (forall v, In v (views_of st) -> handle_in v (live_views gap) = false) /\
        swapchain_with_views gap (VulkanSwapChain.swapChain s) (views_of s) = false /\
        swapchain_with_views gap (VulkanSwapChain.new_swapChain e) (views_of st)
          = false)).
Proof.
  intros He Hold Hnew Hlive.
  pose proof (create_runs s e w ht vsync He) as Run. cbv zeta in Run.
  destruct (Z.eqb_spec (VulkanSwapChain.swapChain s) VK_NULL_HANDLE) as [E|_];
    [contradiction|]. cbn [negb] in Run.
  eexists _, _, _, _. split; [exact Run|].
  cbn [VulkanSwapChain.buffers VulkanSwapChain.swapChain].
  rewrite map_map. cbn [VulkanSwapChain.image VulkanSwapChain.view].
  split; [reflexivity|]. split; [reflexivity|]. split; [reflexivity|].
  split.
  { intros d Hd. cbn [states] in Hd. destruct Hd as [<-|Hd].
    - now rewrite Hlive.
    - apply orb_true_iff. right. revert d Hd.
      apply (states_invariant
               (fun d => handle_in (VulkanSwapChain.new_swapChain e)
                                   (live_swapchains d) = true)).
      + cbn [step live_swapchains]. unfold handle_in. cbn [existsb].
        now rewrite Z.eqb_refl.
      + intros d' c Hd' Hc.
        eapply new_handle_stays; eauto.
        intros c' Hc'. apply in_map_iff in Hc'. destruct Hc' as [img [<- _]]. eauto. }
  match goal with
  | |- context [views_of (VulkanSwapChain.mkState ?a ?b ?c ?d ?n ?f ?g ?h)] =>
      assert (Vst : views_of (VulkanSwapChain.mkState a b c d n f g h) =
                    map (fun img => snd (VulkanSwapChain.vkCreateImageView e img))
                        (VulkanSwapChain.new_images e))
        by (unfold views_of; cbn [VulkanSwapChain.buffers]; rewrite map_map;
            reflexivity);
      rewrite !Vst
  end.
  split; [reflexivity|].
  intros Counted. pose proof (destroy_views_counted s Counted) as Views.
  split; [exact Views|]. intros Fresh.
  set (ci := VulkanSwapChain.swapchainCI s e
               (VulkanSwapChain.choose_extent (VulkanSwapChain.surfCaps e) w ht)
               vsync (VulkanSwapChain.swapChain s)).
  set (new_views := map (fun img => snd (VulkanSwapChain.vkCreateImageView e img))
                        (VulkanSwapChain.new_images e)).
  eexists. split; [reflexivity|].
  assert (Gap :
    final_device d0
      (CreateSwapchainKHR ci (VulkanSwapChain.new_swapChain e)
       :: map DestroyImageView (views_of s)
       ++ [DestroySwapchainKHR (VulkanSwapChain.swapChain s)]) =
    mkDevice
      (drop_handle (VulkanSwapChain.swapChain s)
         (VulkanSwapChain.new_swapChain e :: live_swapchains d0))
      (fold_left (fun l v => drop_handle v l) (views_of s) (live_views d0))).
  { unfold final_device at 1. cbn [fold_left step].
    fold (final_device
            (mkDevice (VulkanSwapChain.new_swapChain e :: live_swapchains d0)
                      (live_views d0))
            (map DestroyImageView (views_of s)
             ++ [DestroySwapchainKHR (VulkanSwapChain.swapChain s)])).
    rewrite final_device_app, final_after_destroying_views. reflexivity. }
  rewrite Gap.
  assert (OldChain :
    handle_in (VulkanSwapChain.swapChain s)
      (drop_handle (VulkanSwapChain.swapChain s)
         (VulkanSwapChain.new_swapChain e :: live_swapchains d0)) = false).
  { apply handle_in_false. intros Hin. apply in_drop_handle in Hin. now destruct Hin. }
  assert (OldViews : forall v, In v (views_of s) ->
    handle_in v (fold_left (fun l v => drop_handle v l) (views_of s) (live_views d0))
      = false).
  { intros v Hv. apply handle_in_false. intros Hin. apply in_dropped in Hin.
    now destruct Hin. }
  assert (NewViews : forall v, In v new_views ->
    handle_in v (fold_left (fun l v => drop_handle v l) (views_of s) (live_views d0))
      = false).
  { intros v Hv. apply handle_in_false. intros Hin. apply in_dropped in Hin.
    destruct Hin as [Hin _]. apply in_map_iff in Hv. destruct Hv as (img & <- & Himg).
    apply handle_in_In in Hin. rewrite (Fresh img Himg) in Hin. discriminate Hin. }
  split.
  { rewrite <- Gap, Views.
    change (CreateSwapchainKHR ci (VulkanSwapChain.new_swapChain e)
            :: (map DestroyImageView (views_of s)
                ++ [DestroySwapchainKHR (VulkanSwapChain.swapChain s)])
            ++ map (fun img =>
                      CreateImageView img (snd (VulkanSwapChain.vkCreateImageView e img)))
                   (VulkanSwapChain.new_images e))
      with ((CreateSwapchainKHR ci (VulkanSwapChain.new_swapChain e)
             :: map DestroyImageView (views_of s)
             ++ [DestroySwapchainKHR (VulkanSwapChain.swapChain s)])
            ++ map (fun img =>
                      CreateImageView img (snd (VulkanSwapChain.vkCreateImageView e img)))
                   (VulkanSwapChain.new_images e)).
    apply final_device_in_states. }
  cbn [live_swapchains live_views].
  split; [exact OldChain|]. split; [exact OldViews|]. split; [exact NewViews|].
  unfold swapchain_with_views. cbn [live_swapchains live_views]. split.
  - now rewrite OldChain.
  - destruct new_views as [|v rest] eqn:Enew.
    + cbn. now rewrite andb_false_r.
    + cbn [forallb]. rewrite (NewViews v (or_introl eq_refl)).
      cbn [andb]. now rewrite !andb_false_r.
Qed.

Lemma recreation_order_witness :
  exists st extent ci calls gap,
    VulkanSwapChain.create old_swapchain (sample_driver free_size_caps) 640 480 false =
      Ok (st, extent, calls) /\
    calls =
      [CreateSwapchainKHR ci 20;
       DestroyImageView 110; DestroyImageView 111; DestroySwapchainKHR 10;
       CreateImageView 200 210; CreateImageView 201 211] /\
    ci_oldSwapchain ci = 10 /\
    VulkanSwapChain.swapChain st = 20 /\
    (forall d, In d (states old_device calls) ->
       handle_in 10 (live_swapchains d) || handle_in 20 (live_swapchains d) = true) /\
    gap = mkDevice [20] [] /\
    In gap (states old_device calls) /\
    swapchain_with_views gap 10 (views_of old_swapchain) = false /\
    swapchain_with_views gap 20 (views_of st) = false.
Proof.
  destruct (recreation_order old_swapchain (sample_driver free_size_caps)
              640 480 false old_device)
    as (st & extent & ci & calls & Run & Calls & Old & New & Alive & NewViews & Views).
  - apply sample_driver_ok.
  - discriminate.
  - discriminate.
  - reflexivity.
  - destruct (Views eq_refl) as (Destroyed & Gap).
    destruct Gap as (gap & Egap & Hgap & _ & _ & _ & NoOld & NoNew).
    { intros img [<-|[<-|[]]]; reflexivity. }
    exists st, extent, ci, calls, gap.
    split; [exact Run|].
    pose proof Run as Shape. vm_compute in Shape. injection Shape as <- _ Ecalls.
    split.
    { rewrite Calls, Destroyed. cbn. reflexivity. }
    split; [exact Old|]. split; [exact New|]. split; [exact Alive|].
    split; [rewrite Egap; reflexivity|].
    split; [exact Hgap|]. split; [exact NoOld | exact NoNew].
Defined.

(** Recreating a swapchain with two image views: once the old swapchain
    has been destroyed, and before the first new image view exists, the
    device holds swapchain 20 alone, with no image view; neither the old
    nor the new swapchain has its views then. *)
Lemma recreation_gap :
  exists st extent ci,
    VulkanSwapChain.create old_swapchain (sample_driver free_size_caps) 640 480 false =
      Ok (st, extent,
          [CreateSwapchainKHR ci 20;
           DestroyImageView 110; DestroyImageView 111; DestroySwapchainKHR 10;
           CreateImageView 200 210; CreateImageView 201 211]) /\
    In (mkDevice [20] [])
       (states old_device
          [CreateSwapchainKHR ci 20;
           DestroyImageView 110; DestroyImageView 111; DestroySwapchainKHR 10;
           CreateImageView 200 210; CreateImageView 201 211]) /\
    swapchain_with_views (mkDevice [20] []) 10 (views_of old_swapchain) = false /\
    swapchain_with_views (mkDevice [20] []) 20 (views_of st) = false.
Proof.
  eexists _, _, _. split; [vm_compute; reflexivity|].
  split; [|split; reflexivity].
  cbn. do 4 right. left. reflexivity.
Qed.

End Recreation.

(* ================================================================== *)
(** * Draw order of the scene *)

Section DrawOrder.

Import Scene.

Lemma find_from_spec (pat s : string) :
  forall i, 0 <= i ->
    (contains s pat = false /\ find_from s pat i = npos) \/
    (contains s pat = true /\
     i <= find_from s pat i <= i + Z.of_nat (String.length s) /\
     (find_from s pat i = i <-> String.prefix pat s = true)).
Proof.
  induction s as [|c rest IH]; intros i Hi.
  - cbn [find_from contains String.length].
    destruct (String.prefix pat "") eqn:P; cbn [orb].
    + right. split; [reflexivity|]. split; [lia|]. tauto.
    + left. auto.
  - cbn [find_from contains String.length].
    destruct (String.prefix pat (String c rest)) eqn:P; cbn [orb].
    + right. split; [reflexivity|]. split; [lia|]. tauto.
    + destruct (IH (i + 1)) as [[C F]|(C & B & _)]; [lia| |].
      * left. auto.
      * right. split; [exact C|]. split; [lia|].
        split; [lia | discriminate].
Qed.

Lemma int_of_size_t_small (z : Z) :
  0 <= z < 2147483648 -> int_of_size_t z = z.
Proof.
  intros H. unfold int_of_size_t. rewrite Z.mod_small by lia.
  destruct (Z.ltb_spec z 2147483648); [reflexivity | lia].
Qed.

(** On a plain name the test [find(...) > 0] of [render] says whether the
    substring occurs. *)
Lemma substring_test (n pat : string) :
  Z.of_nat (String.length n) < 2147483648 ->
  String.prefix pat n = false ->
  (0 <? int_of_size_t (find n pat)) = contains n pat.
Proof.
  intros Hlen Hpre. unfold find.
  destruct (find_from_spec pat n 0) as [[C F]|(C & B & Z0)]; [lia| |].
  - rewrite C, F. reflexivity.
  - rewrite C.
    assert (find_from n pat 0 <> 0) by (intros E; apply Z0 in E; congruence).
    rewrite int_of_size_t_small by lia. apply Z.ltb_lt. lia.
Qed.

Lemma sort_meshes_buckets (single : bool) (idx : Z) (meshes : list ScenePart) :
  forall i ids,
    0 <= i -> i + Z.of_nat (length meshes) <= 2147483648 ->
    (forall mesh, In mesh meshes -> plain_name (name (material mesh))) ->
    sort_meshes single idx meshes i ids =
      mkMeshIds
        (bgMeshIds ids ++ ids_where has_mask_only single idx meshes i)
        (alphaMeshIds ids ++ ids_where has_alpha single idx meshes i)
        (nonAlphaMeshIds ids ++ ids_where has_neither single idx meshes i).
Proof.
  induction meshes as [|mesh rest IH]; intros i ids Hi Hlen Hplain.
  - cbn. rewrite !app_nil_r. now destruct ids.
  - simpl length in Hlen.
    destruct (Hplain mesh (or_introl eq_refl)) as (Hn & Pa & Pm).
    cbn [sort_meshes ids_where].
    rewrite (substring_test _ "alpha" Hn Pa), (substring_test _ "mask" Hn Pm).
    rewrite int_of_size_t_small by lia.
    assert (Hrest : forall m, In m rest -> plain_name (name (material m)))
      by (intros m Hm; apply Hplain; now right).
    unfold has_mask_only, has_neither, has_alpha, has_mask.
    destruct single; destruct (i =? idx);
      destruct (contains (name (material mesh)) "alpha");
      destruct (contains (name (material mesh)) "mask");
      cbn [negb andb orb]; rewrite IH by (auto; lia);
      cbn [bgMeshIds alphaMeshIds nonAlphaMeshIds app];
      rewrite <- ?app_assoc; reflexivity.
Qed.

(** C5, amended.  On meshes whose material names do not begin with
    "alpha" or "mask", [Scene::render] draws first the meshes whose name
    contains "mask" and not "alpha", then those whose name contains
    neither, then those whose name contains "alpha", each bucket in mesh
    order; a name belongs to exactly one of the three buckets.  With
    [renderSingleScenePart] set, only the mesh at [scenePartIndex] is
    drawn. *)
Theorem render_bucket_order (single : bool) (idx : Z) (meshes : list ScenePart) :
  Z.of_nat (length meshes) <= 2147483648 ->
  (forall mesh, In mesh meshes -> plain_name (name (material mesh))) ->
  render single idx meshes = bucket_order single idx meshes /\
  (forall n,
     (has_mask_only n = true /\ has_neither n = false /\ has_alpha n = false) \/
     (has_mask_only n = false /\ has_neither n = true /\ has_alpha n = false) \/
     (has_mask_only n = false /\ has_neither n = false /\ has_alpha n = true)).
Proof.
  intros Hlen Hplain. split.
  - unfold render, bucket_order.
    rewrite (sort_meshes_buckets single idx meshes 0 (mkMeshIds [] [] []))
      by (auto; lia).
    reflexivity.
  - intros n. unfold has_mask_only, has_neither.
    destruct (has_mask n), (has_alpha n); cbn; auto.
Qed.

Lemma sample_meshes_plain :
  forall mesh, In mesh sample_meshes -> plain_name (name (material mesh)).
Proof.
  intros mesh [<-|[<-|[<-|[<-|[]]]]]; unfold plain_name; cbn; repeat split; lia.
Qed.

Lemma render_bucket_order_witness :
  render false 0 sample_meshes = bucket_order false 0 sample_meshes /\
  (forall n,
     (has_mask_only n = true /\ has_neither n = false /\ has_alpha n = false) \/
     (has_mask_only n = false /\ has_neither n = true /\ has_alpha n = false) \/
     (has_mask_only n = false /\ has_neither n = false /\ has_alpha n = true)).
Proof.
  apply (render_bucket_order false 0 sample_meshes).
  - cbn. lia.
  - exact sample_meshes_plain.
Defined.

(** A mesh whose material is named "leaf_alpha_mask" is drawn once, last
    but one, in the alpha bucket; the order worded in the specification
    lists it first, among the "mask" names, and again among the "alpha"
    names. *)
Lemma mask_and_alpha_drawn_as_alpha :
  render false 0 sample_meshes = [2; 0; 1; 3] /\
  claimed_order false 0 sample_meshes = [1; 2; 0; 1; 3] /\
  render false 0 sample_meshes <> claimed_order false 0 sample_meshes.
Proof.
  split; [vm_compute; reflexivity|].
  split; [vm_compute; reflexivity|].
  vm_compute. discriminate.
Qed.

(** A name that begins with "alpha" gets the blending pipeline from
    [loadMaterials], whose test is [>= 0], and is drawn in the standard
    bucket by [render], whose test is [> 0]. *)
Lemma alpha_prefix_drawn_as_standard :
  assign_pipeline "alpha_glass" = blending /\
  sort_meshes false 0 [part "alpha_glass"] 0 (mkMeshIds [] [] []) =
    mkMeshIds [] [] [0].
Proof.
  split; vm_compute; reflexivity.
Qed.

End DrawOrder.

(* ================================================================== *)
(** * Vectors addressed by index *)

Section IndexedVectors.

Context {A : Type}.

Lemma set_nth_length (n : nat) (x : A) (l : list A) :
  length (set_nth n x l) = length l.
Proof.
  revert n. induction l as [|a rest IH]; intros [|n]; simpl; auto.
Qed.

Lemma nth_error_set_nth_eq (n : nat) (x : A) (l : list A) :
  (n < length l)%nat -> nth_error (set_nth n x l) n = Some x.
Proof.
  revert n. induction l as [|a rest IH]; intros [|n] H; simpl in *;
    try lia; [reflexivity|]. apply IH. lia.
Qed.

Lemma nth_error_set_nth_neq (n m : nat) (x : A) (l : list A) :
  n <> m -> nth_error (set_nth n x l) m = nth_error l m.
Proof.
  revert n m. induction l as [|a rest IH]; intros [|n] [|m] H; simpl;
    try reflexivity; try congruence.
  apply IH. congruence.
Qed.

Lemma set_nth_same (n : nat) (x : A) (l : list A) :
  nth_error l n = Some x -> set_nth n x l = l.
Proof.
  revert n. induction l as [|a rest IH]; intros [|n] H; simpl in *;
    try discriminate.
  - now injection H as ->.
  - now rewrite IH.
Qed.

Lemma set_nth_twice (n : nat) (x y : A) (l : list A) :
  set_nth n y (set_nth n x l) = set_nth n y l.
Proof.
  revert n. induction l as [|a rest IH]; intros [|n]; simpl; auto.
  now rewrite IH.
Qed.

Lemma set_nth_middle (l1 l2 : list A) (a x : A) :
  set_nth (length l1) x (l1 ++ a :: l2) = l1 ++ x :: l2.
Proof.
  induction l1 as [|b rest IH]; simpl; [reflexivity|]. now rewrite IH.
Qed.

Lemma nth_error_middle (l1 l2 : list A) (a : A) :
  nth_error (l1 ++ a :: l2) (length l1) = Some a.
Proof.
  induction l1 as [|b rest IH]; simpl; auto.
Qed.

End IndexedVectors.

Section Ranges.

Lemma range_length (n : Z) : length (range n) = Z.to_nat n.
Proof. unfold range. now rewrite length_map, length_seq. Qed.

Lemma in_range (n x : Z) : In x (range n) <-> 0 <= x < n.
Proof.
  unfold range. rewrite in_map_iff. split.
  - intros [k [<- Hk]]. apply in_seq in Hk. lia.
  - intros H. exists (Z.to_nat x). split; [lia|]. apply in_seq. lia.
Qed.

Lemma range_NoDup (n : Z) : NoDup (range n).
Proof.
  unfold range. apply Injective_map_NoDup.
  - intros a b H. lia.
  - apply seq_NoDup.
Qed.

Lemma range_of_nat_succ (k : nat) :
  range (Z.of_nat (S k)) = range (Z.of_nat k) ++ [Z.of_nat k].
Proof.
  unfold range. rewrite !Nat2Z.id, seq_S, map_app. reflexivity.
Qed.

Lemma nth_error_range (n : Z) (k : nat) :
  (k < Z.to_nat n)%nat -> nth_error (range n) k = Some (Z.of_nat k).
Proof.
  intros H. unfold range. rewrite nth_error_map.
  rewrite nth_error_seq.
  destruct (Nat.ltb_spec k (Z.to_nat n)); [reflexivity | lia].
Qed.

(** A loop over the indices of a vector visits its elements in order. *)
Lemma flat_map_seq {A B : Type} (l : list A) :
  forall (k : nat) (f : Z -> list B) (g : A -> list B),
    (forall t a, nth_error l t = Some a -> f (Z.of_nat (k + t)) = g a) ->
    flat_map f (map Z.of_nat (seq k (length l))) = flat_map g l.
Proof.
  induction l as [|a rest IH]; intros k f g H; simpl; [reflexivity|].
  rewrite (IH (S k) f g).
  - f_equal. specialize (H 0%nat a eq_refl). now rewrite Nat.add_0_r in H.
  - intros t b Hb. specialize (H (S t) b Hb).
    now replace (S k + t)%nat with (k + S t)%nat by lia.
Qed.

Lemma flat_map_range {A B : Type} (l : list A) (f : Z -> list B) (g : A -> list B) :
  (forall t a, nth_error l t = Some a -> f (Z.of_nat t) = g a) ->
  flat_map f (range (Z.of_nat (length l))) = flat_map g l.
Proof.
  intros H. unfold range. rewrite Nat2Z.id. now apply flat_map_seq.
Qed.

End Ranges.

(* ================================================================== *)
(** * Static partition of the objects over the workers *)

Section Partition.

Import VulkanExample.

Lemma at_index_in_range {A : Type} (l : list A) (i : Z) (a : A) :
  0 <= i -> at_index l i = Some a -> 0 <= i < Z.of_nat (length l).
Proof.
  intros Hi H. unfold at_index in H.
  assert (Z.to_nat i < length l)%nat by (apply nth_error_Some; congruence). lia.
Qed.

Lemma addJob_fold (t : Z) (l : list Z) :
  forall threads queue,
    at_index threads t = Some queue ->
    fold_left (fun threads i => addJob t (mkJob t i) threads) l threads =
      set_index threads t (queue ++ map (mkJob t) l).
Proof.
  induction l as [|i rest IH]; intros threads queue H.
  - cbn. rewrite app_nil_r. symmetry. now apply set_nth_same.
  - cbn [fold_left map].
    replace (addJob t (mkJob t i) threads)
      with (set_index threads t (queue ++ [mkJob t i]))
      by (unfold addJob; now rewrite H).
    rewrite (IH _ (queue ++ [mkJob t i])).
    + unfold set_index. rewrite set_nth_twice, <- app_assoc. reflexivity.
    + unfold at_index, set_index. apply nth_error_set_nth_eq.
      apply nth_error_Some. unfold at_index in H. congruence.
Qed.

Lemma dispatch_prefix (M : Z) (N k : nat) :
  (k <= N)%nat ->
  fold_left
    (fun threads t =>
       fold_left (fun threads i => addJob t (mkJob t i) threads) (range M) threads)
    (range (Z.of_nat k)) (repeat [] N) =
  map (queue_of M) (range (Z.of_nat k)) ++ repeat [] (N - k).
Proof.
  induction k as [|k IH]; intros Hk.
  - cbn. now rewrite Nat.sub_0_r.
  - rewrite range_of_nat_succ, fold_left_app, IH by lia.
    cbn [fold_left].
    replace (N - k)%nat with (S (N - S k)) by lia. cbn [repeat].
    assert (L : length (map (queue_of M) (range (Z.of_nat k))) = k)
      by (now rewrite length_map, range_length, Nat2Z.id).
    pose proof (set_nth_middle (map (queue_of M) (range (Z.of_nat k)))
                  (repeat [] (N - S k)) [] (queue_of M (Z.of_nat k))) as HSet.
    pose proof (nth_error_middle (map (queue_of M) (range (Z.of_nat k)))
                  (repeat [] (N - S k)) []) as HGet.
    rewrite L in HSet, HGet.
    rewrite (addJob_fold _ _ _ []).
    + unfold set_index. rewrite Nat2Z.id. cbn [app]. fold (queue_of M (Z.of_nat k)).
      rewrite HSet, map_app, <- app_assoc. reflexivity.
    + unfold at_index. rewrite Nat2Z.id. exact HGet.
Qed.

(** After the dispatch loops, worker [t] holds the jobs of its own slots
    in slot order, and nothing else. *)
Lemma dispatch_queues (N M : Z) :
  dispatch N M (setThreadCount N) = map (queue_of M) (range N).
Proof.
  unfold dispatch, setThreadCount.
  replace (range N) with (range (Z.of_nat (Z.to_nat N)))
    by (unfold range; now rewrite Nat2Z.id).
  rewrite dispatch_prefix by lia.
  rewrite Nat.sub_diag. cbn [repeat]. now rewrite app_nil_r.
Qed.

Lemma at_index_queues (N M w : Z) (queue : list Job) :
  0 <= w ->
  at_index (map (queue_of M) (range N)) w = Some queue ->
  w < N /\ queue = queue_of M w.
Proof.
  intros Hw H.
  pose proof (at_index_in_range _ _ _ Hw H) as R.
  rewrite length_map, range_length in R.
  unfold at_index in H. rewrite nth_error_map, nth_error_range in H by lia.
  cbn in H. rewrite Z2Nat.id in H by lia. injection H as <-. split; [lia | reflexivity].
Qed.

Lemma queue_of_count (M t i w : Z) :
  0 <= i < M ->
  count_occ Job_eq_dec (queue_of M w) (mkJob t i) = if w =? t then 1%nat else 0%nat.
Proof.
  intros Hi. unfold queue_of. destruct (Z.eqb_spec w t) as [->|Hne].
  - apply NoDup_count_occ'.
    + apply Injective_map_NoDup; [|apply range_NoDup].
      intros a b H. now injection H.
    + apply in_map. now apply in_range.
  - apply count_occ_not_In. rewrite in_map_iff.
    intros [x [H _]]. injection H as H _. contradiction.
Qed.

Section Prepared.

Variable vkCreateCommandPool : Z -> Z.
Variable vkAllocateCommandBuffers : Z -> Z -> Z.

Lemma place_objects_length (count : nat) :
  forall x1 y1, length (fst (place_objects count x1 y1)) = count.
Proof.
  induction count as [|count IH]; intros x1 y1; cbn [place_objects].
  - reflexivity.
  - destruct (32 <=? x1).
    + specialize (IH (x1 - 32 + 1) (y1 + 1)).
      destruct (place_objects count (x1 - 32 + 1) (y1 + 1)) as [rest cursor].
      cbn in *. now rewrite IH.
    + specialize (IH (x1 + 1) y1).
      destruct (place_objects count (x1 + 1) y1) as [rest cursor].
      cbn in *. now rewrite IH.
Qed.

Lemma prepare_threads_sized (M : Z) (count : nat) :
  forall i x1 y1,
    length (prepare_threads vkCreateCommandPool vkAllocateCommandBuffers
              count i M x1 y1) = count /\
    forall thread,
      In thread (prepare_threads vkCreateCommandPool vkAllocateCommandBuffers
                   count i M x1 y1) ->
      length (commandBuffer thread) = Z.to_nat M /\
      length (objectData thread) = Z.to_nat M.
Proof.
  induction count as [|count IH]; intros i x1 y1; cbn [prepare_threads].
  - split; [reflexivity | intros thread []].
  - pose proof (place_objects_length (Z.to_nat M) x1 y1) as L.
    destruct (place_objects (Z.to_nat M) x1 y1) as [objects [x1' y1']].
    cbn [fst] in L.
    destruct (IH (i + 1) x1' y1') as [Len Each].
    split; [cbn; now rewrite Len|].
    intros thread [<-|Hin]; [|now apply Each].
    cbn. now rewrite length_map, range_length.
Qed.

Lemma prepared_well_sized (N M : Z) :
  0 <= N -> 0 <= M ->
  well_sized N M
    (prepareMultiThreadedRenderer vkCreateCommandPool vkAllocateCommandBuffers N M).
Proof.
  intros HN HM. unfold well_sized, prepareMultiThreadedRenderer.
  destruct (prepare_threads_sized M (Z.to_nat N) 0 0 0) as [Len Each].
  split; [rewrite Len; lia|].
  intros thread Hin. destruct (Each thread Hin) as [E1 E2].
  rewrite E1, E2. lia.
Qed.

End Prepared.

Lemma total_objects_sized (N M : Z) (threadData : list ThreadData) :
  well_sized N M threadData -> total_objects threadData = N * M.
Proof.
  intros [Len Each]. subst N.
  induction threadData as [|thread rest IH]; [reflexivity|].
  cbn [total_objects fold_right length].
  fold (total_objects rest). rewrite IH by (intros t Ht; apply Each; now right).
  destruct (Each thread (or_introl eq_refl)) as [_ ->]. lia.
Qed.

(** C9.  [numObjectsPerThread] is 1024 divided by [numThreads]; the
    dispatch loops put job (t, i) once into the queue of worker t and
    into no other queue, and a queue holds only jobs of its own worker;
    the prepared workers hold [numThreads * numObjectsPerThread] objects
    in all, which is at most 1024. *)
Theorem static_partition (vkCreateCommandPool : Z -> Z)
    (vkAllocateCommandBuffers : Z -> Z -> Z) (hardware_concurrency : Z) :
  0 < hardware_concurrency ->
  exists numThreads numObjectsPerThread,
    constructor hardware_concurrency = Ok (numThreads, numObjectsPerThread) /\
    numThreads = hardware_concurrency /\
    numObjectsPerThread = 1024 / numThreads /\
    dispatch numThreads numObjectsPerThread (setThreadCount numThreads) =
      map (queue_of numObjectsPerThread) (range numThreads) /\
    (forall t i w queue,
       0 <= t < numThreads -> 0 <= i < numObjectsPerThread -> 0 <= w ->
       at_index (dispatch numThreads numObjectsPerThread (setThreadCount numThreads)) w
         = Some queue ->
       count_occ Job_eq_dec queue (mkJob t i) = if w =? t then 1%nat else 0%nat) /\
    (forall w queue job,
       0 <= w ->
       at_index (dispatch numThreads numObjectsPerThread (setThreadCount numThreads)) w
         = Some queue ->
       In job queue ->
       job_thread job = w /\ 0 <= job_index job < numObjectsPerThread) /\
    well_sized numThreads numObjectsPerThread
      (prepareMultiThreadedRenderer vkCreateCommandPool vkAllocateCommandBuffers
         numThreads numObjectsPerThread) /\
    total_objects
      (prepareMultiThreadedRenderer vkCreateCommandPool vkAllocateCommandBuffers
         numThreads numObjectsPerThread) = numThreads * numObjectsPerThread /\
    numThreads * numObjectsPerThread <= 1024.
Proof.
  intros Hpos. exists hardware_concurrency, (1024 / hardware_concurrency).
  assert (HM : 0 <= 1024 / hardware_concurrency) by (apply Z.div_pos; lia).
  split.
  { unfold constructor.
    destruct (Z.ltb_spec 0 hardware_concurrency); [reflexivity | lia]. }
  split; [reflexivity|]. split; [reflexivity|].
  split; [apply dispatch_queues|].
  split.
  { intros t i w queue Ht Hi Hw H. rewrite dispatch_queues in H.
    destruct (at_index_queues _ _ _ _ Hw H) as [_ ->]. now apply queue_of_count. }
  split.
  { intros w queue job Hw H Hin. rewrite dispatch_queues in H.
    destruct (at_index_queues _ _ _ _ Hw H) as [_ ->].
    unfold queue_of in Hin. apply in_map_iff in Hin.
    destruct Hin as [i [<- Hi]]. apply in_range in Hi. cbn. auto. }
  split; [apply prepared_well_sized; lia|].
  split; [apply total_objects_sized, prepared_well_sized; lia|].
  apply Z.mul_div_le. lia.
Qed.

End Partition.

(* ================================================================== *)
(** * One frame of the multi-threaded renderer *)

Section Frame.

Import VulkanExample.

Variable checkSphere : vec3 -> bool.

(** What one job does to the per-worker data. *)
Lemma threadRenderCode_spec (w idx : nat) (threadData : list ThreadData) :
  length (threadRenderCode checkSphere (Z.of_nat w) (Z.of_nat idx) threadData) =
    length threadData /\
  forall t thread,
    nth_error threadData t = Some thread ->
    exists thread',
      nth_error (threadRenderCode checkSphere (Z.of_nat w) (Z.of_nat idx) threadData) t
        = Some thread' /\
      commandBuffer thread' = commandBuffer thread /\
      length (objectData thread') = length (objectData thread) /\
      forall i object,
        nth_error (objectData thread) i = Some object ->
        exists object',
          nth_error (objectData thread') i = Some object' /\
          pos object' = pos object /\
          (t = w -> i = idx -> visible object' = checkSphere (pos object)) /\
          (~ (t = w /\ i = idx) -> visible object' = visible object).
Proof.
  unfold threadRenderCode, at_index. rewrite !Nat2Z.id.
  assert (Same : forall (td : list ThreadData),
             (forall thread object,
                nth_error td w = Some thread ->
                nth_error (objectData thread) idx = Some object -> False) ->
             length td = length td /\
             forall t thread,
               nth_error td t = Some thread ->
               exists thread',
                 nth_error td t = Some thread' /\
                 commandBuffer thread' = commandBuffer thread /\
                 length (objectData thread') = length (objectData thread) /\
                 forall i object,
                   nth_error (objectData thread) i = Some object ->
                   exists object',
                     nth_error (objectData thread') i = Some object' /\
                     pos object' = pos object /\
                     (t = w -> i = idx -> visible object' = checkSphere (pos object)) /\
                     (~ (t = w /\ i = idx) -> visible object' = visible object)).
  { intros td No. split; [reflexivity|]. intros t thread Ht.
    exists thread. repeat split; auto. intros i object Hi.
    exists object. repeat split; auto.
    intros -> ->. exfalso. eapply No; eauto. }
  destruct (nth_error threadData w) as [thw|] eqn:Ew.
  2:{ apply Same. intros thread object H. rewrite Ew in H. discriminate. }
  destruct (Z.leb_spec (Z.of_nat (length (objectData thw))) 0) as [Hle|Hgt].
  { apply Same. intros thread object H Ho. rewrite Ew in H. injection H as <-.
    assert (idx < length (objectData thw))%nat by (apply nth_error_Some; congruence).
    lia. }
  destruct (nth_error (objectData thw) idx) as [ow|] eqn:Eo.
  2:{ apply Same. intros thread object H Ho. rewrite Ew in H. injection H as <-.
      congruence. }
  assert (Hw : (w < length threadData)%nat) by (apply nth_error_Some; congruence).
  assert (Hidx : (idx < length (objectData thw))%nat)
    by (apply nth_error_Some; congruence).
  unfold set_index. rewrite !Nat2Z.id.
  split; [apply set_nth_length|].
  intros t thread Ht.
  destruct (Nat.eq_dec t w) as [->|Hne].
  - rewrite Ew in Ht. injection Ht as <-.
    eexists. split; [now apply nth_error_set_nth_eq|].
    cbn [commandBuffer objectData]. split; [reflexivity|].
    split; [apply set_nth_length|].
    intros i object Hi.
    destruct (Nat.eq_dec i idx) as [->|Hni].
    + rewrite Eo in Hi. injection Hi as <-.
      eexists. split; [now apply nth_error_set_nth_eq|].
      cbn [pos visible]. repeat split; auto. intros N. exfalso. now apply N.
    + exists object. rewrite nth_error_set_nth_neq by congruence.
      repeat split; auto. intros _ E. contradiction.
  - exists thread. rewrite nth_error_set_nth_neq by congruence.
    repeat split; auto. intros i object Hi. exists object.
    repeat split; auto. intros E. contradiction.
Qed.

Lemma job_eta (job : Job) : mkJob (job_thread job) (job_index job) = job.
Proof. now destruct job. Qed.

Lemma frame_invariant_step (threadData0 : list ThreadData)
    (s1 s2 : Queues * list ThreadData) :
  frame_invariant checkSphere threadData0 s1 ->
  worker_step checkSphere s1 s2 ->
  frame_invariant checkSphere threadData0 s2.
Proof.
  intros (Aff & Len & Slots) Step.
  destruct Step as [threads threadData w job rest Hq].
  cbn [fst snd] in *.
  destruct (Aff w _ job Hq (or_introl eq_refl)) as [Jt Ji].
  assert (Hw : (w < length threads)%nat) by (apply nth_error_Some; congruence).
  rewrite Jt. rewrite <- (Z2Nat.id (job_index job)) by exact Ji.
  set (idx := Z.to_nat (job_index job)).
  assert (Ej : job = mkJob (Z.of_nat w) (Z.of_nat idx)).
  { subst idx. rewrite Z2Nat.id by exact Ji. rewrite <- Jt. symmetry. apply job_eta. }
  destruct (threadRenderCode_spec w idx threadData) as [Len' Spec].
  unfold frame_invariant. cbn [fst snd].
  split; [|split].
  - intros w' queue' job' Hq' Hin.
    destruct (Nat.eq_dec w w') as [<-|Hne].
    + rewrite nth_error_set_nth_eq in Hq' by exact Hw. injection Hq' as <-.
      apply (Aff w (job :: rest) job' Hq). now right.
    + rewrite nth_error_set_nth_neq in Hq' by exact Hne. eapply Aff; eauto.
  - congruence.
  - intros t thread0 Ht0.
    destruct (Slots t thread0 Ht0) as (thread & Ht & Cb & Lo & Each).
    destruct (Spec t thread Ht) as (thread' & Ht' & Cb' & Lo' & Each').
    exists thread'. split; [exact Ht'|]. split; [congruence|]. split; [congruence|].
    intros i object0 Hi0.
    destruct (Each i object0 Hi0) as (object & Hi & Po & Settled).
    destruct (Each' i object Hi) as (object' & Hi' & Po' & Hit & Miss).
    exists object'. split; [exact Hi'|]. split; [congruence|].
    destruct (Nat.eq_dec t w) as [Etw|Ntw]; [destruct (Nat.eq_dec i idx) as [Eii|Nii]|].
    + left. rewrite (Hit Etw Eii). congruence.
    + rewrite (Miss (fun C => Nii (proj2 C))).
      destruct Settled as [V|(queue & Hqt & Hin)]; [now left|].
      right. subst t. rewrite Hq in Hqt. injection Hqt as <-.
      exists rest. split; [now apply nth_error_set_nth_eq|].
      destruct Hin as [E|Hin]; [|exact Hin].
      exfalso. rewrite Ej in E. injection E as E. lia.
    + rewrite (Miss (fun C => Ntw (proj1 C))).
      destruct Settled as [V|(queue & Hqt & Hin)]; [now left|].
      right. exists queue. split; [|exact Hin].
      rewrite nth_error_set_nth_neq by congruence. exact Hqt.
Qed.

Lemma frame_invariant_run (threadData0 : list ThreadData)
    (s1 s2 : Queues * list ThreadData) :
  pool_run checkSphere s1 s2 ->
  frame_invariant checkSphere threadData0 s1 ->
  frame_invariant checkSphere threadData0 s2.
Proof.
  induction 1 as [s|s1 s2 s3 Step Run IH]; intros Inv; [exact Inv|].
  apply IH. eapply frame_invariant_step; eauto.
Qed.

Lemma frame_invariant_start (N M : Z) (threadData : list ThreadData) :
  well_sized N M threadData ->
  frame_invariant checkSphere threadData
    (dispatch N M (setThreadCount N), threadData).
Proof.
  intros [Len Each]. unfold frame_invariant. cbn [fst snd].
  rewrite dispatch_queues.
  assert (Q : forall w, (w < length threadData)%nat ->
            nth_error (map (queue_of M) (range N)) w = Some (queue_of M (Z.of_nat w))).
  { intros w Hw. rewrite nth_error_map, nth_error_range by lia. reflexivity. }
  split; [|split; [reflexivity|]].
  - intros w queue job Hq Hin.
    assert (Hw : (w < length threadData)%nat).
    { assert (w < length (map (queue_of M) (range N)))%nat
        by (apply nth_error_Some; congruence).
      rewrite length_map, range_length in H. lia. }
    rewrite (Q w Hw) in Hq. injection Hq as <-.
    unfold queue_of in Hin. apply in_map_iff in Hin.
    destruct Hin as [i [<- Hi]]. apply in_range in Hi. cbn. split; [reflexivity | lia].
  - intros t thread0 Ht. exists thread0. repeat split; auto.
    intros i object0 Hi. exists object0. repeat split; auto. right.
    assert (Hlt : (t < length threadData)%nat) by (apply nth_error_Some; congruence).
    exists (queue_of M (Z.of_nat t)). split; [now apply Q|].
    unfold queue_of. apply in_map. apply in_range.
    destruct (Each thread0 (nth_error_In _ _ Ht)) as [_ Lo].
    assert (i < length (objectData thread0))%nat by (apply nth_error_Some; congruence).
    lia.
Qed.

End Frame.

Section FrameAssembly.

Import VulkanExample.

Variable checkSphere : vec3 -> bool.

Lemma nth_error_combine {A B : Type} (l1 : list A) (l2 : list B) :
  forall i a b,
    nth_error (combine l1 l2) i = Some (a, b) ->
    nth_error l1 i = Some a /\ nth_error l2 i = Some b.
Proof.
  revert l2. induction l1 as [|x rest IH]; intros [|y l2] [|i] a b H;
    cbn in H; try discriminate.
  - injection H as <- <-. auto.
  - cbn. now apply IH.
Qed.

Lemma flat_map_filter {A B : Type} (keep : A -> bool) (f : A -> B) (l : list A) :
  flat_map (fun a => if keep a then [f a] else []) l = map f (filter keep l).
Proof.
  induction l as [|a rest IH]; cbn; [reflexivity|].
  destruct (keep a); cbn; now rewrite IH.
Qed.

(** Once every queue is empty, the assembly loops collect exactly the
    buffers of the slots that pass the test, worker by worker. *)
Lemma settled_assemble (N M : Z) (threadData0 : list ThreadData)
    (threads' : Queues) (threadData' : list ThreadData) :
  well_sized N M threadData0 ->
  frame_invariant checkSphere threadData0 (threads', threadData') ->
  all_idle threads' ->
  assemble N M threadData' = expected_commands checkSphere threadData0.
Proof.
  intros [Len Each] (_ & _ & Slots) Idle. cbn [fst snd] in Slots.
  unfold assemble, expected_commands. rewrite <- Len.
  apply flat_map_range. intros t thread0 Ht.
  destruct (Slots t thread0 Ht) as (thread & Ht' & Cb & Lo & Settled).
  destruct (Each thread0 (nth_error_In _ _ Ht)) as [Lc Ld].
  unfold visible_buffers.
  rewrite <- (flat_map_filter (fun slot => checkSphere (pos (snd slot))) fst).
  assert (LM : M = Z.of_nat (length (combine (commandBuffer thread0) (objectData thread0))))
    by (rewrite length_combine; lia).
  rewrite LM. apply flat_map_range. intros i [buffer object0] Hi.
  apply nth_error_combine in Hi. destruct Hi as [Hb Ho].
  destruct (Settled i object0 Ho) as (object & Ho' & _ & V).
  unfold at_index. rewrite !Nat2Z.id, Ht', Ho', Cb, Hb. cbn [fst snd].
  assert (i < length (objectData thread))%nat by (apply nth_error_Some; congruence).
  destruct (Z.ltb_spec 0 (Z.of_nat (length (objectData thread)))); [|lia].
  destruct V as [->|(queue & Hq & Hin)]; [reflexivity|].
  rewrite (Idle queue (nth_error_In _ _ Hq)) in Hin. destruct Hin.
Qed.

Lemma settled_well_sized (N M : Z) (threadData0 : list ThreadData)
    (threads' : Queues) (threadData' : list ThreadData) :
  well_sized N M threadData0 ->
  frame_invariant checkSphere threadData0 (threads', threadData') ->
  well_sized N M threadData'.
Proof.
  intros [Len Each] (_ & Len' & Slots). cbn [fst snd] in *.
  split; [congruence|]. intros thread' Hin.
  destruct (In_nth_error _ _ Hin) as [t Ht'].
  assert (Hlt : (t < length threadData0)%nat)
    by (rewrite <- Len'; apply nth_error_Some; congruence).
  destruct (nth_error threadData0 t) as [thread0|] eqn:Ht0;
    [|apply nth_error_None in Ht0; lia].
  destruct (Slots t thread0 Ht0) as (thread & Ht & Cb & Lo & _).
  rewrite Ht' in Ht. injection Ht as <-.
  destruct (Each thread0 (nth_error_In _ _ Ht0)) as [Lc Ld].
  rewrite Cb, Lo. auto.
Qed.

Lemma busy_or_idle (threads : Queues) :
  all_idle threads \/
  exists w job rest, nth_error threads w = Some (job :: rest).
Proof.
  induction threads as [|queue others IH].
  - left. intros q [].
  - destruct queue as [|job rest].
    + destruct IH as [Idle|(w & job & rest & H)].
      * left. intros q [<-|Hq]; [reflexivity | now apply Idle].
      * right. exists (S w), job, rest. exact H.
    + right. exists 0%nat, job, rest. reflexivity.
Qed.

Lemma pending_decreases (threads : Queues) :
  forall w job rest,
    nth_error threads w = Some (job :: rest) ->
    S (length (concat (set_nth w rest threads))) = length (concat threads).
Proof.
  induction threads as [|queue others IH]; intros [|w] job rest H; cbn in H;
    try discriminate.
  - injection H as ->. cbn. rewrite !length_app. reflexivity.
  - cbn. rewrite !length_app. rewrite <- (IH _ _ _ H). lia.
Qed.

(** The workers empty their queues: [threadPool.wait()] returns. *)
Lemma pool_drains (n : nat) :
  forall threads threadData,
    (length (concat threads) <= n)%nat ->
    exists threads' threadData',
      pool_run checkSphere (threads, threadData) (threads', threadData') /\
      all_idle threads'.
Proof.
  induction n as [|n IH]; intros threads threadData Hn.
  - destruct (busy_or_idle threads) as [Idle|(w & job & rest & H)].
    + exists threads, threadData. split; [constructor | exact Idle].
    + pose proof (pending_decreases _ _ _ _ H). lia.
  - destruct (busy_or_idle threads) as [Idle|(w & job & rest & H)].
    + exists threads, threadData. split; [constructor | exact Idle].
    + pose proof (pending_decreases _ _ _ _ H) as Dec.
      destruct (IH (set_nth w rest threads)
                   (threadRenderCode checkSphere (job_thread job) (job_index job)
                      threadData)) as (threads' & threadData' & Run & Idle); [lia|].
      exists threads', threadData'. split; [|exact Idle].
      eapply pool_run_step; [|exact Run]. now constructor.
Qed.

Lemma in_expected_commands (threadData : list ThreadData) (buffer : Z) :
  In buffer (expected_commands checkSphere threadData) ->
  exists thread object,
    In thread threadData /\
    In (buffer, object) (combine (commandBuffer thread) (objectData thread)) /\
    checkSphere (pos object) = true.
Proof.
  unfold expected_commands, visible_buffers. rewrite in_flat_map.
  intros (thread & Hin & Hb). apply in_map_iff in Hb.
  destruct Hb as ([b object] & <- & Hf). apply filter_In in Hf.
  exists thread, object. cbn [fst snd] in *. tauto.
Qed.

End FrameAssembly.

Section FrameTheorem.

Import VulkanExample.

(** C1.  A frame started on well-sized per-worker data runs to its end,
    whatever the order in which the workers take their jobs and whatever
    visibility flags the previous frame left.  The argument of the
    [vkCmdExecuteCommands] call is then the list of the command buffers
    of the slots whose visibility test passed in this frame, workers in
    index order and slots in index order within a worker; the call is
    omitted when that list is empty.  Every buffer in the list belongs to a
    slot whose test passed, and the data stay well-sized for the next
    frame. *)
Theorem executed_commands_are_visible (checkSphere : vec3 -> bool) (N M : Z)
    (threadData : list ThreadData) :
  well_sized N M threadData ->
  (exists threadData' commands,
     updateCommandBuffers checkSphere N M threadData threadData' commands) /\
  (forall threadData' commands,
     updateCommandBuffers checkSphere N M threadData threadData' commands ->
     commands = executed (expected_commands checkSphere threadData) /\
     well_sized N M threadData' /\
     (forall buffers buffer,
        commands = Some buffers -> In buffer buffers ->
        exists thread object,
          In thread threadData /\
          In (buffer, object) (combine (commandBuffer thread) (objectData thread)) /\
          checkSphere (pos object) = true)).
Proof.
  intros Sized. split.
  - destruct (pool_drains checkSphere _ (dispatch N M (setThreadCount N)) threadData
                (le_n _)) as (threads' & threadData' & Run & Idle).
    exists threadData', (executed (assemble N M threadData')), threads'. auto.
  - intros threadData' commands (threads' & Run & Idle & ->).
    pose proof (frame_invariant_run checkSphere threadData _ _ Run
                  (frame_invariant_start checkSphere N M threadData Sized)) as Inv.
    rewrite (settled_assemble checkSphere N M threadData threads' threadData'
               Sized Inv Idle).
    split; [reflexivity|].
    split; [eapply settled_well_sized; eauto|].
    intros buffers buffer E Hin. apply in_expected_commands.
    unfold executed in E.
    destruct (0 <? Z.of_nat (length (expected_commands checkSphere threadData)));
      [|discriminate].
    injection E as <-. exact Hin.
Qed.

Lemma sample_threadData_sized : well_sized 2 2 sample_threadData.
Proof.
  split; [reflexivity|].
  intros thread [<-|[<-|[]]]; split; reflexivity.
Qed.

Lemma executed_commands_are_visible_witness :
  exists threadData' commands,
    updateCommandBuffers left_of_origin 2 2 sample_threadData threadData' commands /\
    commands = Some [11; 22].
Proof.
  destruct (executed_commands_are_visible left_of_origin 2 2 sample_threadData
              sample_threadData_sized) as [(threadData' & commands & Frame) Sound].
  exists threadData', commands. split; [exact Frame|].
  exact (proj1 (Sound threadData' commands Frame)).
Defined.

Lemma static_partition_witness :
  exists numThreads numObjectsPerThread,
    constructor 4 = Ok (numThreads, numObjectsPerThread) /\
    numThreads = 4 /\
    numObjectsPerThread = 256 /\
    dispatch numThreads numObjectsPerThread (setThreadCount numThreads) =
      map (queue_of numObjectsPerThread) (range numThreads).
Proof.
  destruct (static_partition (fun i => i) (fun i j => 1024 * i + j) 4)
    as (N & M & H1 & H2 & H3 & H4 & _); [lia|].
  exists N, M. subst N. subst M. repeat split; assumption.
Defined.

End FrameTheorem.

(* ================================================================== *)
(** * Further properties: queue selection, present mode, composite alpha *)

Section SharedFamily.

Lemma first_index_weaker {A : Type} (f g : A -> bool) (l : list A) :
  (forall a, f a = true -> g a = true) ->
  forall i k j,
    first_index f l i = Some k -> first_index g l i = Some j -> j <= k.
Proof.
  intros Hfg. induction l as [|a rest IH]; intros i k j Hk Hj; simpl in *.
  - discriminate.
  - destruct (g a) eqn:Ga.
    + injection Hj as <-. destruct (f a).
      * injection Hk as <-. lia.
      * apply first_index_range in Hk. lia.
    + destruct (f a) eqn:Fa; [rewrite (Hfg a Fa) in Ga; discriminate|].
      eapply IH; eauto.
Qed.

(** X1.  When some family supports both graphics and presentation, both
    roles get the index of the first such family, even when an earlier
    family supports graphics only.  [sample_main] then creates the
    swapchain with exclusive sharing and no family indices, and
    [initSurface] stores the index in [queueNodeIndex]. *)
Theorem combined_family_serves_both_roles (qs : list QueueFamily) :
  countable qs -> has_combined qs ->
  exists k,
    first_index is_combined qs 0 = Some k /\
    select_queues qs = (k, k) /\
    (forall g, first_index is_graphics qs 0 = Some g -> g <= k) /\
    (forall h, Test03.queue_props h = qs -> Test03.driver_ok h ->
               Test03.surfFormats h <> [] ->
       exists ci, Test03.sample_main h = Ok (k, k, ci) /\
                  ci_imageSharingMode ci = VK_SHARING_MODE_EXCLUSIVE /\
                  ci_queueFamilyIndexCount ci = 0 /\
                  ci_pQueueFamilyIndices ci = []) /\
    (forall s surf fs, fs <> [] ->
       exists st, VulkanSwapChain.initSurface s surf qs 0 0 fs = Ok st /\
                  VulkanSwapChain.queueNodeIndex st = k /\
                  VulkanSwapChain.surface st = surf).
Proof.
  intros Hc Hb.
  destruct (first_index_some is_combined qs 0 Hb) as [k Ek].
  assert (Sel : select_queues qs = (k, k))
    by (rewrite (select_queues_spec _ Hc), Ek; reflexivity).
  exists k. split; [exact Ek|]. split; [exact Sel|]. split; [|split].
  - intros g Eg. eapply (first_index_weaker is_combined is_graphics); eauto.
    intros a C. unfold is_combined in C. now apply andb_true_iff in C.
  - intros h Hq D Hf.
    assert (Hok : Test03_host_ok h).
    { unfold Test03_host_ok. rewrite Hq.
      auto using has_combined_graphics, has_combined_present. }
    destruct (sample_main_runs h Hok Hf) as (g' & p' & fmt & Sel' & _ & Run).
    rewrite Hq, Sel in Sel'. injection Sel' as <- <-.
    eexists. split; [exact Run|].
    unfold Test03.swapchain_ci. cbn. rewrite Z.eqb_refl. cbn. auto.
  - intros s surf fs Hf.
    destruct (initSurface_runs s surf qs 0 0 fs) as (k' & Ek' & Run); auto.
    { unfold initSurface_ok. auto. }
    rewrite Ek in Ek'. injection Ek' as <-.
    eexists. split; [exact Run|]. split; reflexivity.
Qed.

Lemma combined_family_serves_both_roles_witness :
  exists k,
    first_index is_combined [graphics_only; combined_family] 0 = Some k /\
    select_queues [graphics_only; combined_family] = (k, k) /\
    k = 1.
Proof.
  destruct (combined_family_serves_both_roles [graphics_only; combined_family])
    as (k & Ek & Sel & _).
  - unfold countable, UINT32_MAX. simpl. lia.
  - exists combined_family. split; [right; left; reflexivity | reflexivity].
  - exists k. split; [exact Ek|]. split; [exact Sel|].
    cbn in Ek. now injection Ek as <-.
Defined.

End SharedFamily.

Section PresentMode.



End PresentMode.

Section CompositeAlpha.



End CompositeAlpha.

(* ================================================================== *)
(** * Further properties: the swapchain object over its lifetime *)

Section Lifetime.

Import SwapChainLifetime.

(** One [create] on an object that owns all the device holds. *)
Lemma create_keeps_ownership (s : VulkanSwapChain.State)
    (e : VulkanSwapChain.CreateEnv) (w h : Z) (vsync : bool) (d : Device) :
  create_ok e ->
  VulkanSwapChain.new_swapChain e <> VK_NULL_HANDLE ->
  (VulkanSwapChain.swapChain s <> VK_NULL_HANDLE -> counted s) ->
  owns s d ->
  exists st extent calls,
    VulkanSwapChain.create s e w h vsync = Ok (st, extent, calls) /\
    counted st /\
    owns st (final_device d calls) /\
    VulkanSwapChain.surface st = VulkanSwapChain.surface s /\
    VulkanSwapChain.swapChain st = VulkanSwapChain.new_swapChain e.
Proof.
  intros He Hnew Hcount (Hsc & Hv & Hnull).
  pose proof (create_runs s e w h vsync He) as Run. cbv zeta in Run.
  eexists _, _, _. split; [exact Run|].
  split; [unfold counted; cbn; now rewrite length_map|].
  split; [|split; reflexivity].
  set (f := fun img => snd (VulkanSwapChain.vkCreateImageView e img)).
  assert (Views : forall dev,
            (forall x, In x (live_swapchains dev) -> x = VulkanSwapChain.new_swapChain e) ->
            live_views dev = [] ->
            owns (VulkanSwapChain.mkState (VulkanSwapChain.surface s)
                    (VulkanSwapChain.colorFormat s) (VulkanSwapChain.colorSpace s)
                    (VulkanSwapChain.new_swapChain e)
                    (Z.of_nat (length (VulkanSwapChain.new_images e)))
                    (VulkanSwapChain.new_images e)
                    (map (fun img => VulkanSwapChain.mkBuffer img (f img))
                         (VulkanSwapChain.new_images e))
                    (VulkanSwapChain.queueNodeIndex s))
                 (final_device dev
                    (map (fun img => CreateImageView img (f img))
                         (VulkanSwapChain.new_images e)))).
  { intros dev Hs Hvs. rewrite final_after_creating_views, Hvs, app_nil_r.
    unfold owns, views_of. cbn. split; [exact Hs|]. split.
    - intros v Hin. apply in_rev in Hin. rewrite map_map. exact Hin.
    - intros E. contradiction. }
  change (CreateSwapchainKHR ?ci ?n :: ?rest) with ([CreateSwapchainKHR ci n] ++ rest).
  rewrite !final_device_app.
  destruct (Z.eqb_spec (VulkanSwapChain.swapChain s) VK_NULL_HANDLE) as [E|E];
    cbn [negb].
  - destruct (Hnull E) as [L V]. apply Views.
    + cbn. rewrite L. intros x [<-|[]]. reflexivity.
    + cbn. exact V.
  - rewrite final_device_app, (destroy_views_counted s (Hcount E)),
            final_after_destroying_views.
    apply Views.
    + cbn. intros x Hx.
      destruct (Z.eqb_spec (VulkanSwapChain.new_swapChain e) (VulkanSwapChain.swapChain s));
        cbn in Hx.
      * apply in_drop_handle in Hx. destruct Hx as [Hx Hne].
        exfalso. apply Hne. now apply Hsc.
      * destruct Hx as [<-|Hx]; [reflexivity|].
        apply in_drop_handle in Hx. destruct Hx as [Hx Hne].
        exfalso. apply Hne. now apply Hsc.
    + cbn. now apply all_dropped.
Qed.

(** X4.  A successful [create] leaves [imageCount] equal to the number of
    images and of buffers, buffer [i] holding image [i] and the view the
    driver made for it; it leaves the surface, the colour format and
    space and the queue index as they were; and when the object had no
    swapchain before, it makes no destroy call. *)
Theorem create_fills_buffers (s : VulkanSwapChain.State)
    (e : VulkanSwapChain.CreateEnv) (w h : Z) (vsync : bool) :
  create_ok e ->
  exists st extent calls,
    VulkanSwapChain.create s e w h vsync = Ok (st, extent, calls) /\
    VulkanSwapChain.imageCount st = Z.of_nat (length (VulkanSwapChain.images st)) /\
    VulkanSwapChain.imageCount st = Z.of_nat (length (VulkanSwapChain.buffers st)) /\
    VulkanSwapChain.images st = VulkanSwapChain.new_images e /\
    map VulkanSwapChain.image (VulkanSwapChain.buffers st) = VulkanSwapChain.images st /\
    views_of st =
      map (fun img => snd (VulkanSwapChain.vkCreateImageView e img))
          (VulkanSwapChain.images st) /\
    VulkanSwapChain.surface st = VulkanSwapChain.surface s /\
    VulkanSwapChain.colorFormat st = VulkanSwapChain.colorFormat s /\
    VulkanSwapChain.colorSpace st = VulkanSwapChain.colorSpace s /\
    VulkanSwapChain.queueNodeIndex st = VulkanSwapChain.queueNodeIndex s /\
    (VulkanSwapChain.swapChain s = VK_NULL_HANDLE ->
     forall c, In c calls -> is_destroy c = false).
Proof.
  intros He.
  pose proof (create_runs s e w h vsync He) as Run. cbv zeta in Run.
  eexists _, _, _. split; [exact Run|]. cbn.
  split; [reflexivity|]. split; [now rewrite length_map|].
  split; [reflexivity|]. split; [rewrite map_map; cbn; apply map_id|].
  split; [unfold views_of; cbn; now rewrite map_map|].
  repeat (split; [reflexivity|]).
  intros E c Hc. rewrite E in Hc. cbn in Hc.
  destruct Hc as [<-|Hc]; [reflexivity|].
  apply in_map_iff in Hc. destruct Hc as [img [<- _]]. reflexivity.
Qed.

Lemma create_fills_buffers_witness :
  exists st extent calls,
    VulkanSwapChain.create surfaced_swapchain (sample_driver free_size_caps)
      640 480 false = Ok (st, extent, calls) /\
    VulkanSwapChain.imageCount st = 2 /\
    VulkanSwapChain.buffers st =
      [VulkanSwapChain.mkBuffer 200 210; VulkanSwapChain.mkBuffer 201 211].
Proof.
  destruct (create_fills_buffers surfaced_swapchain (sample_driver free_size_caps)
              640 480 false (sample_driver_ok free_size_caps))
    as (st & extent & calls & Run & _).
  exists st, extent, calls. split; [exact Run|].
  vm_compute in Run. injection Run as <- _ _. split; reflexivity.
Defined.

Lemma create_all_keeps_ownership (calls : list CreateCall) :
  forall s d,
    all_ok calls ->
    (VulkanSwapChain.swapChain s <> VK_NULL_HANDLE -> counted s) ->
    owns s d ->
    exists st made,
      create_all s calls = Ok (st, made) /\
      (VulkanSwapChain.swapChain st <> VK_NULL_HANDLE -> counted st) /\
      owns st (final_device d made) /\
      VulkanSwapChain.surface st = VulkanSwapChain.surface s.
Proof.
  induction calls as [|c rest IH]; intros s d Hok Hcount Hown.
  - exists s, []. cbn. auto.
  - destruct (Hok c (or_introl eq_refl)) as [He Hnew].
    destruct (create_keeps_ownership s (call_env c) (call_width c) (call_height c)
                (call_vsync c) d He Hnew Hcount Hown)
      as (st1 & extent & made1 & Run & C1 & O1 & S1 & _).
    destruct (IH st1 (final_device d made1)) as (st & made & Run' & C & O & S).
    + intros c' Hc'. apply Hok. now right.
    + intros _. exact C1.
    + exact O1.
    + exists st, (made1 ++ made). cbn [create_all]. rewrite Run. cbn.
      rewrite Run'. cbn. rewrite final_device_app. split; [reflexivity|].
      split; [exact C|]. split; [exact O|]. congruence.
Qed.

Lemma cleanup_releases (s : VulkanSwapChain.State) (d : Device) :
  (VulkanSwapChain.swapChain s <> VK_NULL_HANDLE -> counted s) ->
  owns s d ->
  VulkanSwapChain.surface s <> VK_NULL_HANDLE ->
  final_device d (snd (VulkanSwapChain.cleanup s)) = mkDevice [] [].
Proof.
  intros Hcount (Hsc & Hv & Hnull) Hsurf.
  unfold VulkanSwapChain.cleanup. cbn [snd].
  destruct (Z.eqb_spec (VulkanSwapChain.surface s) VK_NULL_HANDLE) as [E|_];
    [contradiction|]. cbn [negb].
  rewrite final_device_app.
  destruct (Z.eqb_spec (VulkanSwapChain.swapChain s) VK_NULL_HANDLE) as [E|E];
    cbn [negb].
  - destruct (Hnull E) as [L V]. destruct d as [l v]. cbn in *. subst. reflexivity.
  - rewrite (destroy_views_counted s (Hcount E)), final_after_destroying_views.
    cbn. rewrite all_dropped by exact Hv. f_equal.
    apply nothing_in. intros a Ha. apply in_drop_handle in Ha.
    destruct Ha as [Ha Hne]. apply Hne. now apply Hsc.
Qed.

(** X5.  An object with a surface and no swapchain yet, on a device that
    holds no swapchain and no image view: after the first creation, any
    number of re-creations and one [cleanup], every swapchain and every
    image view that was created has been destroyed. *)
Theorem swapchain_lifetime_leaves_nothing (s : VulkanSwapChain.State)
    (calls : list CreateCall) :
  all_ok calls ->
  VulkanSwapChain.swapChain s = VK_NULL_HANDLE ->
  VulkanSwapChain.surface s <> VK_NULL_HANDLE ->
  exists st made,
    create_all s calls = Ok (st, made) /\
    final_device (mkDevice [] []) (made ++ snd (VulkanSwapChain.cleanup st)) =
      mkDevice [] [].
Proof.
  intros Hok Hnull Hsurf.
  destruct (create_all_keeps_ownership calls s (mkDevice [] []) Hok)
    as (st & made & Run & C & O & S).
  - intros N. contradiction.
  - unfold owns. cbn. split; [intros h []|]. split; [intros v []|]. auto.
  - exists st, made. split; [exact Run|].
    rewrite final_device_app. apply cleanup_releases; auto. congruence.
Qed.

Lemma resize_calls_ok : all_ok resize_calls.
Proof.
  intros c [<-|[<-|[]]]; (split; [split; [repeat split | discriminate] | discriminate]).
Qed.

Lemma swapchain_lifetime_leaves_nothing_witness :
  exists st made,
    create_all surfaced_swapchain resize_calls = Ok (st, made) /\
    final_device (mkDevice [] []) (made ++ snd (VulkanSwapChain.cleanup st)) =
      mkDevice [] [].
Proof.
  apply (swapchain_lifetime_leaves_nothing surfaced_swapchain resize_calls).
  - exact resize_calls_ok.
  - reflexivity.
  - discriminate.
Defined.

Lemma final_after_views_only (calls : list DriverCall) :
  (forall c, In c calls -> exists v, c = DestroyImageView v) ->
  forall d, live_swapchains (final_device d calls) = live_swapchains d.
Proof.
  induction calls as [|c rest IH]; intros H d; [reflexivity|].
  cbn. unfold final_device in IH. rewrite IH by (intros; apply H; now right).
  destruct (H c (or_introl eq_refl)) as [v ->]. reflexivity.
Qed.

(** X6.  [cleanup] destroys the swapchain exactly when the surface handle
    is not null, whatever the swapchain handle is.  An object that has a
    swapchain but a null surface keeps the swapchain alive in the driver
    while its own handle is set to null. *)
Theorem cleanup_is_guarded_by_the_surface (s : VulkanSwapChain.State) :
  ((exists h, In (DestroySwapchainKHR h) (snd (VulkanSwapChain.cleanup s))) <->
   VulkanSwapChain.surface s <> VK_NULL_HANDLE) /\
  (forall h, In (DestroySwapchainKHR h) (snd (VulkanSwapChain.cleanup s)) ->
             h = VulkanSwapChain.swapChain s) /\
  (VulkanSwapChain.surface s = VK_NULL_HANDLE ->
   forall d,
     live_swapchains (final_device d (snd (VulkanSwapChain.cleanup s))) =
       live_swapchains d) /\
  VulkanSwapChain.swapChain (fst (VulkanSwapChain.cleanup s)) = VK_NULL_HANDLE.
Proof.
  assert (Views : forall c,
            In c (if negb (VulkanSwapChain.swapChain s =? VK_NULL_HANDLE)
                  then VulkanSwapChain.destroy_views s else []) ->
            exists v, c = DestroyImageView v).
  { intros c Hc. destruct (negb _); [now apply destroy_views_calls in Hc | destruct Hc]. }
  unfold VulkanSwapChain.cleanup. cbn [fst snd VulkanSwapChain.swapChain].
  destruct (Z.eqb_spec (VulkanSwapChain.surface s) VK_NULL_HANDLE) as [E|E];
    cbn [negb].
  - rewrite app_nil_r. split; [|split; [|split; [|reflexivity]]].
    + split; [|contradiction]. intros [h Hh]. destruct (Views _ Hh) as [v Hv].
      discriminate Hv.
    + intros h Hh. destruct (Views _ Hh) as [v Hv]. discriminate Hv.
    + intros _ d. now apply final_after_views_only.
  - split; [|split; [|split; [|reflexivity]]].
    + split; [intros _; exact E|]. intros _.
      exists (VulkanSwapChain.swapChain s). apply in_or_app. right. now left.
    + intros h Hh. apply in_app_or in Hh. destruct Hh as [Hh|[Hh|[Hh|[]]]].
      * destruct (Views _ Hh) as [v Hv]. discriminate Hv.
      * now injection Hh.
      * discriminate Hh.
    + contradiction.
Qed.

End Lifetime.

(* ================================================================== *)
(** * Further properties: what the scene renderer draws *)

Section Drawn.

Import Scene.

(** The three vectors of [render] in terms of its two tests, for names of
    any kind. *)
Lemma sort_meshes_tests (single : bool) (idx : Z) (meshes : list ScenePart) :
  forall i ids,
    0 <= i -> i + Z.of_nat (length meshes) <= 2147483648 ->
    sort_meshes single idx meshes i ids =
      mkMeshIds
        (bgMeshIds ids ++ ids_where drawn_as_bg single idx meshes i)
        (alphaMeshIds ids ++ ids_where drawn_as_alpha single idx meshes i)
        (nonAlphaMeshIds ids ++ ids_where drawn_as_standard single idx meshes i).
Proof.
  induction meshes as [|mesh rest IH]; intros i ids Hi Hlen.
  - cbn. rewrite !app_nil_r. now destruct ids.
  - simpl length in Hlen.
    cbn [sort_meshes ids_where].
    rewrite (int_of_size_t_small i) by lia.
    unfold drawn_as_bg, drawn_as_standard, drawn_as_alpha.
    destruct single; destruct (i =? idx);
      destruct (0 <? int_of_size_t (find (name (material mesh)) "alpha"));
      destruct (0 <? int_of_size_t (find (name (material mesh)) "mask"));
      cbn [negb andb orb]; rewrite IH by lia;
      cbn [bgMeshIds alphaMeshIds nonAlphaMeshIds app];
      rewrite <- ?app_assoc; reflexivity.
Qed.

Lemma render_tests (single : bool) (idx : Z) (meshes : list ScenePart) :
  Z.of_nat (length meshes) <= 2147483648 ->
  render single idx meshes =
    ids_where drawn_as_bg single idx meshes 0
    ++ ids_where drawn_as_standard single idx meshes 0
    ++ ids_where drawn_as_alpha single idx meshes 0.
Proof.
  intros Hlen. unfold render.
  rewrite (sort_meshes_tests single idx meshes 0 (mkMeshIds [] [] [])) by lia.
  reflexivity.
Qed.

Lemma ids_where_every (idx : Z) (meshes : list ScenePart) :
  forall k, ids_where every_name false idx meshes (Z.of_nat k) =
            map Z.of_nat (seq k (length meshes)).
Proof.
  induction meshes as [|mesh rest IH]; intros k; cbn; [reflexivity|].
  f_equal. rewrite <- IH. f_equal. lia.
Qed.

Lemma three_buckets_permute (idx : Z) (meshes : list ScenePart) :
  forall i,
    Permutation
      (ids_where drawn_as_bg false idx meshes i
       ++ ids_where drawn_as_standard false idx meshes i
       ++ ids_where drawn_as_alpha false idx meshes i)
      (ids_where every_name false idx meshes i).
Proof.
  induction meshes as [|mesh rest IH]; intros i; cbn [ids_where]; [constructor|].
  specialize (IH (i + 1)).
  unfold drawn_as_bg, drawn_as_standard at 1, every_name at 1. cbn [negb orb andb].
  destruct (drawn_as_alpha (name (material mesh)));
    destruct (0 <? int_of_size_t (find (name (material mesh)) "mask"));
    cbn [negb andb app].
  - rewrite app_assoc. apply Permutation_sym, Permutation_cons_app.
    rewrite <- app_assoc. now apply Permutation_sym.
  - rewrite app_assoc. apply Permutation_sym, Permutation_cons_app.
    rewrite <- app_assoc. now apply Permutation_sym.
  - now constructor.
  - apply Permutation_sym, Permutation_cons_app. now apply Permutation_sym.
Qed.

(** X7.  With [renderSingleScenePart] off, [Scene::render] draws every
    mesh exactly once, whatever its material is called: the ids passed to
    [RenderMesh] are a rearrangement of 0 .. size-1. *)
Theorem render_draws_every_mesh_once (idx : Z) (meshes : list ScenePart) :
  Z.of_nat (length meshes) <= 2147483648 ->
  Permutation (render false idx meshes) (range (Z.of_nat (length meshes))).
Proof.
  intros Hlen. rewrite render_tests by exact Hlen.
  unfold range. rewrite Nat2Z.id.
  rewrite <- (ids_where_every idx meshes 0). apply three_buckets_permute.
Qed.

Lemma render_draws_every_mesh_once_witness :
  Permutation (render false 0 sample_meshes) (range 4).
Proof.
  apply (render_draws_every_mesh_once 0 sample_meshes). cbn. lia.
Defined.

Lemma single_part_buckets (idx : Z) (meshes : list ScenePart) :
  forall i,
    ids_where drawn_as_bg true idx meshes i
    ++ ids_where drawn_as_standard true idx meshes i
    ++ ids_where drawn_as_alpha true idx meshes i =
    if (i <=? idx) && (idx <? i + Z.of_nat (length meshes)) then [idx] else [].
Proof.
  induction meshes as [|mesh rest IH]; intros i; cbn [ids_where length].
  - cbn. destruct (Z.leb_spec i idx), (Z.ltb_spec idx (i + 0)); cbn; try reflexivity; lia.
  - specialize (IH (i + 1)). cbn [negb orb].
    destruct (Z.eqb_spec i idx) as [->|Hne].
    + replace ((idx + 1 <=? idx) && (idx <? idx + 1 + Z.of_nat (length rest))) with false in IH
        by (destruct (Z.leb_spec (idx + 1) idx); [lia | reflexivity]).
      apply app_eq_nil in IH. destruct IH as [-> IH].
      apply app_eq_nil in IH. destruct IH as [-> ->].
      replace ((idx <=? idx) && (idx <? idx + Z.of_nat (S (length rest)))) with true
        by (destruct (Z.leb_spec idx idx), (Z.ltb_spec idx (idx + Z.of_nat (S (length rest))));
            cbn; try reflexivity; lia).
      unfold drawn_as_bg, drawn_as_standard.
      destruct (drawn_as_alpha (name (material mesh)));
        destruct (0 <? int_of_size_t (find (name (material mesh)) "mask"));
        reflexivity.
    + cbn [andb app]. rewrite IH.
      destruct (Z.leb_spec (i + 1) idx), (Z.leb_spec i idx),
               (Z.ltb_spec idx (i + 1 + Z.of_nat (length rest))),
               (Z.ltb_spec idx (i + Z.of_nat (S (length rest))));
        cbn; try reflexivity; lia.
Qed.

(** X8.  With [renderSingleScenePart] on, [Scene::render] draws the mesh
    at [scenePartIndex] and no other; when [scenePartIndex] is not below
    the number of meshes it draws nothing. *)
Theorem render_single_part (idx : Z) (meshes : list ScenePart) :
  Z.of_nat (length meshes) <= 2147483648 -> 0 <= idx ->
  render true idx meshes =
    if idx <? Z.of_nat (length meshes) then [idx] else [].
Proof.
  intros Hlen Hidx. rewrite render_tests by exact Hlen.
  rewrite single_part_buckets.
  destruct (Z.leb_spec 0 idx); [reflexivity | lia].
Qed.

Lemma render_single_part_witness :
  render true 2 sample_meshes = [2] /\ render true 4 sample_meshes = [].
Proof.
  split.
  - apply (render_single_part 2 sample_meshes); cbn; lia.
  - apply (render_single_part 4 sample_meshes); cbn; lia.
Defined.

Lemma in_ids_where (f : string -> bool) (single : bool) (idx : Z)
    (meshes : list ScenePart) :
  forall i x,
    In x (ids_where f single idx meshes i) ->
    i <= x /\
    exists mesh,
      nth_error meshes (Z.to_nat (x - i)) = Some mesh /\
      f (name (material mesh)) = true.
Proof.
  induction meshes as [|mesh rest IH]; intros i x Hin; cbn [ids_where] in Hin.
  - destruct Hin.
  - apply in_app_or in Hin. destruct Hin as [Hin|Hin].
    + destruct ((negb single || (i =? idx)) && f (name (material mesh))) eqn:E;
        [|destruct Hin].
      destruct Hin as [<-|[]]. split; [lia|].
      exists mesh. rewrite Z.sub_diag. split; [reflexivity|].
      now apply andb_true_iff in E.
    + destruct (IH _ _ Hin) as [Hle (m & Hm & Fm)]. split; [lia|].
      exists m. split; [|exact Fm].
      replace (Z.to_nat (x - i)) with (S (Z.to_nat (x - (i + 1)))) by lia.
      exact Hm.
Qed.

(** X9.  For materials with the pipeline [loadMaterials] assigns, and
    with wireframe off: every mesh [render] puts in the alpha vector is
    drawn with the blending pipeline, and every mesh it puts in the
    background vector is drawn with the background pipeline or, when its
    name also has "alpha" at position 0, with the blending pipeline. *)
Theorem bucket_pipelines (single : bool) (idx : Z) (meshes : list ScenePart) :
  Z.of_nat (length meshes) <= 2147483648 ->
  pipelines_assigned meshes ->
  (forall id,
     In id (alphaMeshIds (sort_meshes single idx meshes 0 (mkMeshIds [] [] []))) ->
     exists mesh,
       nth_error meshes (Z.to_nat id) = Some mesh /\
       bound_pipeline false mesh = blending) /\
  (forall id,
     In id (bgMeshIds (sort_meshes single idx meshes 0 (mkMeshIds [] [] []))) ->
     exists mesh,
       nth_error meshes (Z.to_nat id) = Some mesh /\
       (bound_pipeline false mesh = bg \/
        (bound_pipeline false mesh = blending /\
         int_of_size_t (find (name (material mesh)) "alpha") = 0))).
Proof.
  intros Hlen Hpipes.
  rewrite (sort_meshes_tests single idx meshes 0 (mkMeshIds [] [] [])) by lia.
  cbn [alphaMeshIds bgMeshIds app]. split; intros id Hin;
    apply in_ids_where in Hin; destruct Hin as [_ (mesh & Hm & T)];
    rewrite Z.sub_0_r in Hm; exists mesh; (split; [exact Hm|]);
    unfold bound_pipeline; rewrite (Hpipes mesh (nth_error_In _ _ Hm));
    unfold assign_pipeline.
  - unfold drawn_as_alpha in T. apply Z.ltb_lt in T.
    destruct (Z.leb_spec 0 (int_of_size_t (find (name (material mesh)) "alpha")));
      [reflexivity | lia].
  - unfold drawn_as_bg, drawn_as_alpha in T. apply andb_true_iff in T.
    destruct T as [Ta Tm]. apply negb_true_iff, Z.ltb_ge in Ta. apply Z.ltb_lt in Tm.
    destruct (Z.leb_spec 0 (int_of_size_t (find (name (material mesh)) "alpha"))).
    + right. split; [reflexivity | lia].
    + left.
      destruct (Z.leb_spec 0 (int_of_size_t (find (name (material mesh)) "mask")));
        [reflexivity | lia].
Qed.

Lemma sample_meshes_assigned : pipelines_assigned sample_meshes.
Proof. intros mesh [<-|[<-|[<-|[<-|[]]]]]; reflexivity. Qed.

Lemma bucket_pipelines_witness :
  (forall id,
     In id (alphaMeshIds (sort_meshes false 0 sample_meshes 0 (mkMeshIds [] [] []))) ->
     exists mesh,
       nth_error sample_meshes (Z.to_nat id) = Some mesh /\
       bound_pipeline false mesh = blending) /\
  (forall id,
     In id (bgMeshIds (sort_meshes false 0 sample_meshes 0 (mkMeshIds [] [] []))) ->
     exists mesh,
       nth_error sample_meshes (Z.to_nat id) = Some mesh /\
       (bound_pipeline false mesh = bg \/
        (bound_pipeline false mesh = blending /\
         int_of_size_t (find (name (material mesh)) "alpha") = 0))).
Proof.
  apply (bucket_pipelines false 0 sample_meshes).
  - cbn. lia.
  - exact sample_meshes_assigned.
Defined.

End Drawn.

(* ================================================================== *)
(** * Further properties: loading the scene *)

Section Loading.

Import SceneAssets.

Lemma face_indices_length (faces : list (Z * Z * Z)) :
  length (flat_map face_indices faces) = (3 * length faces)%nat.
Proof.
  induction faces as [|[[a b] c] rest IH]; cbn; [reflexivity|]. rewrite IH. lia.
Qed.

Lemma firstn_exact {A : Type} (l1 l2 : list A) (n : nat) :
  n = length l1 -> firstn n (l1 ++ l2) = l1.
Proof.
  intros ->. rewrite <- (Nat.add_0_r (length l1)), firstn_app_2.
  cbn. apply app_nil_r.
Qed.

Lemma skipn_past {A : Type} (l1 l2 : list A) (n : nat) :
  (length l1 <= n)%nat -> skipn n (l1 ++ l2) = skipn (n - length l1) l2.
Proof.
  intros H. rewrite skipn_app, (skipn_all2 l1 H). reflexivity.
Qed.

Lemma loadMeshes_from_spec (mats : list Scene.SceneMaterial) (aMeshes : list aiMesh) :
  forall base,
    0 <= base ->
    base + 3 * Z.of_nat (length (flat_map mFaces aMeshes)) <= UINT32_MAX ->
    length (fst (loadMeshes_from mats aMeshes base)) = length aMeshes /\
    Z.of_nat (length (snd (loadMeshes_from mats aMeshes base))) =
      3 * Z.of_nat (length (flat_map mFaces aMeshes)) /\
    forall i aMesh,
      nth_error aMeshes i = Some aMesh ->
      exists mesh,
        nth_error (fst (loadMeshes_from mats aMeshes base)) i = Some mesh /\
        Scene.material mesh = material_at mats (mMaterialIndex aMesh) /\
        Scene.indexCount mesh = 3 * Z.of_nat (length (mFaces aMesh)) /\
        base <= Scene.indexBase mesh /\
        firstn (Z.to_nat (Scene.indexCount mesh))
               (skipn (Z.to_nat (Scene.indexBase mesh - base))
                      (snd (loadMeshes_from mats aMeshes base))) =
          flat_map face_indices (mFaces aMesh).
Proof.
  induction aMeshes as [|aMesh rest IH]; intros base Hb Hfit.
  - cbn. split; [reflexivity|]. split; [reflexivity|]. intros [|i] a H; discriminate H.
  - cbn [flat_map] in Hfit. rewrite length_app in Hfit.
    cbn [loadMeshes_from fst snd].
    set (n := Z.of_nat (length (mFaces aMesh))) in *.
    assert (W1 : wrap32 (n * 3) = 3 * n)
      by (rewrite wrap32_small by lia; lia).
    assert (W2 : wrap32 (base + 3 * n) = base + 3 * n)
      by (apply wrap32_small; lia).
    rewrite W1, W2.
    destruct (IH (base + 3 * n)) as (L & T & Each); [lia | lia |].
    split; [cbn [length]; now rewrite L|].
    split.
    { rewrite length_app, face_indices_length. cbn [flat_map].
      rewrite length_app. lia. }
    intros [|i] a H; cbn in H.
    + injection H as <-. eexists. split; [reflexivity|].
      cbn [Scene.material Scene.indexCount Scene.indexBase].
      split; [reflexivity|]. split; [reflexivity|]. split; [lia|].
      rewrite Z.sub_diag. cbn [Z.to_nat skipn].
      apply firstn_exact. rewrite face_indices_length. lia.
    + destruct (Each i a H) as (mesh & Hm & Mat & Cnt & Base & Own).
      exists mesh. split; [exact Hm|]. split; [exact Mat|]. split; [exact Cnt|].
      split; [lia|].
      rewrite skipn_past by (rewrite face_indices_length; lia).
      rewrite face_indices_length.
      replace (Z.to_nat (Scene.indexBase mesh - base) - 3 * length (mFaces aMesh))%nat
        with (Z.to_nat (Scene.indexBase mesh - (base + 3 * n))) by lia.
      exact Own.
Qed.

(** X10.  When the faces of all meshes fit the 32-bit index counter,
    [loadMeshes] makes one scene part per imported mesh, and the part's
    [indexBase] and [indexCount] delimit, in the one index vector, exactly
    the indices of that mesh's own faces, three per face and in face
    order; the vector holds three indices per face in all. *)
Theorem loadMeshes_index_ranges (mats : list Scene.SceneMaterial)
    (aMeshes : list aiMesh) :
  indices_fit aMeshes ->
  length (fst (loadMeshes mats aMeshes)) = length aMeshes /\
  Z.of_nat (length (snd (loadMeshes mats aMeshes))) =
    3 * Z.of_nat (length (flat_map mFaces aMeshes)) /\
  forall i aMesh,
    nth_error aMeshes i = Some aMesh ->
    exists mesh,
      nth_error (fst (loadMeshes mats aMeshes)) i = Some mesh /\
      Scene.material mesh = material_at mats (mMaterialIndex aMesh) /\
      Scene.indexCount mesh = 3 * Z.of_nat (length (mFaces aMesh)) /\
      firstn (Z.to_nat (Scene.indexCount mesh))
             (skipn (Z.to_nat (Scene.indexBase mesh)) (snd (loadMeshes mats aMeshes))) =
        flat_map face_indices (mFaces aMesh).
Proof.
  intros Hfit. unfold loadMeshes.
  destruct (loadMeshes_from_spec mats aMeshes 0) as (L & T & Each);
    [lia | exact Hfit |].
  split; [exact L|]. split; [exact T|].
  intros i aMesh H. destruct (Each i aMesh H) as (mesh & Hm & Mat & Cnt & _ & Own).
  exists mesh. rewrite Z.sub_0_r in Own. auto.
Qed.

Lemma loadMeshes_index_ranges_witness :
  length (fst (loadMeshes [] (mMeshes sample_scene))) = 2%nat /\
  Z.of_nat (length (snd (loadMeshes [] (mMeshes sample_scene)))) = 3 * 3.
Proof.
  destruct (loadMeshes_index_ranges [] (mMeshes sample_scene)) as (L & T & _).
  - unfold indices_fit, UINT32_MAX. cbn. lia.
  - split; [exact L | exact T].
Defined.

Lemma loadMaterial_unsupported (features : Features) (path : string) (m : aiMaterial) :
  supports_compression features = false ->
  loadMaterial features path m =
    Exit "Device does not support any compressed texture format!".
Proof.
  unfold supports_compression, loadMaterial. intros H.
  destruct (textureCompressionBC features),
           (textureCompressionASTC_LDR features),
           (textureCompressionETC2 features); try discriminate H. reflexivity.
Qed.

Lemma loadMaterial_supported (features : Features) (path : string) (m : aiMaterial) :
  supports_compression features = true ->
  loadMaterial features path m =
    match mat_diffuse m with
    | Some texturefile =>
        match insert (replace texturefile backslash slash)
                (Scene.find (replace texturefile backslash slash) ".ktx") EmptyString with
        | Loaded fileName =>
            Loaded (Scene.mkMaterial (mat_name m) (Scene.assign_pipeline (mat_name m)),
                    (String.append path fileName, VK_FORMAT_R8G8B8A8_UNORM))
        | Exit msg => Exit msg
        | OutOfRange => OutOfRange
        | CheckFailed result => CheckFailed result
        end
    | None =>
        Loaded (Scene.mkMaterial (mat_name m) (Scene.assign_pipeline (mat_name m)),
                (String.append path "dummy_rgba_unorm.ktx", VK_FORMAT_R8G8B8A8_UNORM))
    end.
Proof.
  unfold supports_compression, loadMaterial. intros H.
  assert (E : (if textureCompressionBC features then Loaded tt
               else if textureCompressionASTC_LDR features then Loaded tt
               else if textureCompressionETC2 features then Loaded tt
               else @Exit unit "Device does not support any compressed texture format!")
              = Loaded tt).
  { destruct (textureCompressionBC features),
             (textureCompressionASTC_LDR features),
             (textureCompressionETC2 features); try discriminate H; reflexivity. }
  rewrite E. cbn [and_then].
  destruct (mat_diffuse m) as [file|]; [|reflexivity].
  destruct (insert _ _ _); reflexivity.
Qed.

Lemma take_drop (n : nat) (s : string) :
  String.append (take n s) (drop n s) = s.
Proof.
  revert n. induction s as [|c rest IH]; intros [|n]; cbn; try reflexivity.
  now rewrite IH.
Qed.

(** Inserting the empty suffix where ".ktx" starts changes nothing; with
    no ".ktx" in the name the insertion throws. *)
Lemma insert_suffix (file : string) :
  Z.of_nat (String.length file) < Scene.npos ->
  insert file (Scene.find file ".ktx") EmptyString =
    if Scene.contains file ".ktx" then Loaded file else OutOfRange.
Proof.
  intros Hlen. unfold insert, Scene.find.
  destruct (find_from_spec ".ktx" file 0) as [[C F]|(C & B & _)]; [lia| |];
    rewrite C.
  - rewrite F.
    destruct (Scene.npos >? Z.of_nat (String.length file)) eqn:E; [reflexivity|].
    assert (Scene.npos <= Z.of_nat (String.length file))
      by (destruct (Z.gtb_spec Scene.npos (Z.of_nat (String.length file)));
          [discriminate | lia]). lia.
  - destruct (Scene.find_from file ".ktx" 0 >? Z.of_nat (String.length file)) eqn:E.
    + apply Z.gtb_lt in E. lia.
    + cbn [String.append]. now rewrite take_drop.
Qed.

Lemma replace_length (s : string) (old new : ascii) :
  String.length (replace s old new) = String.length s.
Proof. induction s as [|c rest IH]; cbn; [reflexivity | now rewrite IH]. Qed.

Lemma loadMaterial_format (features : Features) (path : string) (m : aiMaterial)
    (mat : Scene.SceneMaterial) (tex : TextureLoad) :
  loadMaterial features path m = Loaded (mat, tex) ->
  snd tex = VK_FORMAT_R8G8B8A8_UNORM.
Proof.
  destruct (supports_compression features) eqn:S.
  - rewrite (loadMaterial_supported _ _ _ S).
    destruct (mat_diffuse m); [destruct (insert _ _ _)|]; intros H;
      try discriminate H; now injection H as _ <-.
  - rewrite (loadMaterial_unsupported _ _ _ S). discriminate.
Qed.

Lemma insert_outcomes (file : string) (pos : Z) (str : string) :
  (exists fileName, insert file pos str = Loaded fileName) \/
  insert file pos str = OutOfRange.
Proof. unfold insert. destruct (_ >? _); eauto. Qed.

Lemma loadMaterial_exit (features : Features) (path : string) (m : aiMaterial)
    (msg : string) :
  loadMaterial features path m = Exit msg ->
  supports_compression features = false /\
  msg = "Device does not support any compressed texture format!"%string.
Proof.
  destruct (supports_compression features) eqn:S.
  - rewrite (loadMaterial_supported _ _ _ S).
    destruct (mat_diffuse m) as [file|]; [|discriminate].
    destruct (insert_outcomes (replace file backslash slash)
                (Scene.find (replace file backslash slash) ".ktx") EmptyString)
      as [[fileName ->]| ->]; discriminate.
  - rewrite (loadMaterial_unsupported _ _ _ S). intros H. now injection H as <-.
Qed.

Lemma loadMaterial_unchecked (features : Features) (path : string) (m : aiMaterial)
    (result : Z) :
  loadMaterial features path m <> CheckFailed result.
Proof.
  destruct (supports_compression features) eqn:S.
  - rewrite (loadMaterial_supported _ _ _ S).
    destruct (mat_diffuse m) as [file|]; [|discriminate].
    destruct (insert_outcomes (replace file backslash slash)
                (Scene.find (replace file backslash slash) ".ktx") EmptyString)
      as [[fileName ->]| ->]; discriminate.
  - rewrite (loadMaterial_unsupported _ _ _ S). discriminate.
Qed.

Lemma loadMaterials_exit (features : Features) (path : string) (ms : list aiMaterial)
    (msg : string) :
  loadMaterials features path ms = Exit msg ->
  ms <> [] /\ supports_compression features = false /\
  msg = "Device does not support any compressed texture format!"%string.
Proof.
  induction ms as [|m rest IH]; cbn [loadMaterials]; [discriminate|].
  intros H. split; [discriminate|].
  destruct (loadMaterial features path m) as [first|msg'| |r] eqn:L;
    cbn [and_then] in H; try discriminate H.
  - destruct (loadMaterials features path rest) as [others|msg'| |r];
      cbn [and_then] in H; try discriminate H.
    injection H as ->. now destruct (IH eq_refl) as (_ & S & E).
  - injection H as ->. exact (loadMaterial_exit _ _ _ _ L).
Qed.

Lemma loadMaterials_unchecked (features : Features) (path : string)
    (ms : list aiMaterial) (result : Z) :
  loadMaterials features path ms <> CheckFailed result.
Proof.
  induction ms as [|m rest IH]; cbn [loadMaterials]; [discriminate|].
  destruct (loadMaterial features path m) as [first|msg'| |r] eqn:L;
    cbn [and_then]; try discriminate.
  - destruct (loadMaterials features path rest) as [others|msg'| |r];
      cbn [and_then]; try discriminate. exact IH.
  - exfalso. exact (loadMaterial_unchecked _ _ _ _ L).
Qed.

Lemma loadMaterials_formats (features : Features) (path : string) (ms : list aiMaterial) :
  forall mats texs,
    loadMaterials features path ms = Loaded (mats, texs) ->
    length mats = length ms /\ length texs = length ms /\
    forall t, In t texs -> snd t = VK_FORMAT_R8G8B8A8_UNORM.
Proof.
  induction ms as [|m rest IH]; intros mats texs H; cbn [loadMaterials] in H.
  - injection H as <- <-. cbn. repeat split. intros t [].
  - destruct (loadMaterial features path m) as [[mat tex]|msg'| |r] eqn:L;
      cbn [and_then] in H; try discriminate H.
    destruct (loadMaterials features path rest) as [[mats' texs']|msg'| |r];
      cbn [and_then] in H; try discriminate H.
    injection H as <- <-. destruct (IH mats' texs' eq_refl) as (L1 & L2 & Fs).
    cbn [fst snd length]. repeat split; try lia.
    intros t [<-|Ht]; [exact (loadMaterial_format _ _ _ _ _ L) | auto].
Qed.

Lemma check_outcomes (result : Z) :
  (result = VK_SUCCESS /\ VK_CHECK_RESULT result = Loaded tt) \/
  (result <> VK_SUCCESS /\ VK_CHECK_RESULT result = CheckFailed result).
Proof.
  unfold VK_CHECK_RESULT. destruct (Z.eqb_spec result VK_SUCCESS); auto.
Qed.

Lemma allocate_material_sets_outcomes (res : Z -> Z) (count : nat) :
  forall i,
    (allocate_material_sets res count i = Loaded tt /\
     forall k, i <= k < i + Z.of_nat count -> res k = VK_SUCCESS) \/
    (exists k,
       i <= k < i + Z.of_nat count /\ res k <> VK_SUCCESS /\
       allocate_material_sets res count i = CheckFailed (res k)).
Proof.
  induction count as [|count IH]; intros i; cbn [allocate_material_sets].
  - left. split; [reflexivity|]. intros k Hk. lia.
  - destruct (check_outcomes (res i)) as [[E ->]|[N ->]]; cbn [and_then].
    + destruct (IH (i + 1)) as [[-> All]|(k & Hk & N & ->)].
      * left. split; [reflexivity|]. intros k Hk.
        destruct (Z.eq_dec k i) as [->|Hne]; [exact E | apply All; lia].
      * right. exists k. split; [lia|]. split; [exact N | reflexivity].
    + right. exists i. split; [lia|]. split; [exact N | reflexivity].
Qed.

(** The calls after the loop either all succeed, or the first call that
    fails ends the process in its check. *)
Lemma generate_descriptor_sets_outcomes (d : DescriptorResults) (size : nat) :
  (generate_descriptor_sets d size = Loaded tt /\ descriptors_ok d size) \/
  (exists result,
     generate_descriptor_sets d size = CheckFailed result /\
     result <> VK_SUCCESS /\ ~ descriptors_ok d size).
Proof.
  unfold generate_descriptor_sets, descriptors_ok.
  destruct (check_outcomes (res_descriptorPool d)) as [[E1 ->]|[N ->]]; cbn [and_then];
    [|right; eexists; split; [reflexivity|]; split; [exact N | tauto]].
  destruct (check_outcomes (res_sceneLayout d)) as [[E2 ->]|[N ->]]; cbn [and_then];
    [|right; eexists; split; [reflexivity|]; split; [exact N | tauto]].
  destruct (check_outcomes (res_materialLayout d)) as [[E3 ->]|[N ->]]; cbn [and_then];
    [|right; eexists; split; [reflexivity|]; split; [exact N | tauto]].
  destruct (check_outcomes (res_pipelineLayout d)) as [[E4 ->]|[N ->]]; cbn [and_then];
    [|right; eexists; split; [reflexivity|]; split; [exact N | tauto]].
  destruct (allocate_material_sets_outcomes (res_materialSet d) size 0)
    as [[-> All]|(k & Hk & N & ->)]; cbn [and_then].
  - destruct (check_outcomes (res_sceneSet d)) as [[E6 ->]|[N ->]].
    + left. repeat split; try assumption; try (intros; apply All; lia).
    + right. eexists. split; [reflexivity|]. split; [exact N | tauto].
  - right. eexists. split; [reflexivity|]. split; [exact N|].
    intros (_ & _ & _ & _ & All & _). apply N. apply All. lia.
Qed.

(** X11.  [Scene::loadMaterials] calls [exitFatal] in one place only:
    it ends the process with "Device does not support any compressed
    texture format!" exactly when there is at least one material and the
    device supports none of BC, ASTC and ETC2.  Yet every texture it
    loads is requested as [VK_FORMAT_R8G8B8A8_UNORM], which is not a
    compressed format.  It returns only when every driver call after the
    loop has succeeded; a call that fails ends the process in its
    [VK_CHECK_RESULT], which happens only after all the materials were
    loaded.  With no material the compression test is never made, and
    the function returns exactly when the driver calls succeed. *)
Theorem loadMaterials_needs_compression (features : Features) (path : string)
    (d : DescriptorResults) (ms : list aiMaterial) :
  (Scene_loadMaterials features path d ms =
     Exit "Device does not support any compressed texture format!" <->
   ms <> [] /\ supports_compression features = false) /\
  (forall msg, Scene_loadMaterials features path d ms = Exit msg ->
     msg = "Device does not support any compressed texture format!"%string) /\
  (forall result, Scene_loadMaterials features path d ms = CheckFailed result ->
     result <> VK_SUCCESS /\ ~ descriptors_ok d (length ms) /\
     exists loaded, loadMaterials features path ms = Loaded loaded) /\
  (forall mats texs, Scene_loadMaterials features path d ms = Loaded (mats, texs) ->
     descriptors_ok d (length ms) /\
     length mats = length ms /\ length texs = length ms /\
     forall t, In t texs -> snd t = VK_FORMAT_R8G8B8A8_UNORM) /\
  (ms = [] ->
   (descriptors_ok d 0 -> Scene_loadMaterials features path d ms = Loaded ([], [])) /\
   (~ descriptors_ok d 0 ->
    exists result, Scene_loadMaterials features path d ms = CheckFailed result)).
Proof.
  unfold Scene_loadMaterials.
  destruct (loadMaterials features path ms) as [[mats texs]|msg| |r] eqn:L;
    cbn [and_then fst].
  - destruct (loadMaterials_formats _ _ _ _ _ L) as (L1 & L2 & Fs).
    rewrite L1.
    assert (NoExit : ms <> [] -> supports_compression features = true).
    { intros Hne. destruct (supports_compression features) eqn:S; [reflexivity|].
      destruct ms as [|m rest]; [contradiction|]. cbn [loadMaterials] in L.
      rewrite (loadMaterial_unsupported _ _ _ S) in L. discriminate L. }
    destruct (generate_descriptor_sets_outcomes d (length ms))
      as [[-> Ok]|(result & -> & N & Bad)]; cbn [and_then].
    + split; [split; [discriminate | intros [Hne S]; rewrite (NoExit Hne) in S;
                                     discriminate S]|].
      split; [discriminate|]. split; [discriminate|].
      split.
      { intros mats0 texs0 H. injection H as <- <-. auto. }
      intros ->. cbn [loadMaterials] in L. injection L as <- <-.
      split; [reflexivity | intros N; contradiction].
    + split; [split; [discriminate | intros [Hne S]; rewrite (NoExit Hne) in S;
                                     discriminate S]|].
      split; [discriminate|].
      split.
      { intros r H. injection H as <-. split; [exact N|]. split; [exact Bad|]. eauto. }
      split; [discriminate|].
      intros ->. split; [intros Ok; contradiction | eauto].
  - destruct (loadMaterials_exit _ _ _ _ L) as (Hne & S & ->).
    split; [split; auto|]. split; [intros msg H; now injection H as <-|].
    split; [discriminate|]. split; [discriminate|]. intros ->. contradiction.
  - assert (Hne : ms <> []) by (intros ->; discriminate L).
    assert (S : supports_compression features = true).
    { destruct (supports_compression features) eqn:S; [reflexivity|].
      destruct ms as [|m rest]; [contradiction|]. cbn [loadMaterials] in L.
      rewrite (loadMaterial_unsupported _ _ _ S) in L. discriminate L. }
    split; [split; [discriminate | intros [_ S']; rewrite S in S'; discriminate S']|].
    split; [discriminate|]. split; [discriminate|]. split; [discriminate|].
    intros ->. contradiction.
  - exfalso. exact (loadMaterials_unchecked _ _ _ _ L).
Qed.

(** X12.  On a device with a compressed texture format, and for file
    names short enough to be strings: if every diffuse texture file has
    ".ktx" in its name, [loadMaterials] gives each material its name and
    the pipeline of that name, and loads for it the file under
    [assetPath] with every backslash turned into a slash and nothing else
    changed (or the dummy texture when the material has none); if some
    diffuse texture file has no ".ktx" in its name, loading ends with
    [std::out_of_range]. *)
Theorem loadMaterials_texture_files (features : Features) (path : string)
    (ms : list aiMaterial) :
  supports_compression features = true ->
  (forall m file, In m ms -> mat_diffuse m = Some file ->
     Z.of_nat (String.length file) < Scene.npos) ->
  ((forall m, In m ms -> Scene.contains (texture_file m) ".ktx" = true) ->
   loadMaterials features path ms =
     Loaded (map (fun m => Scene.mkMaterial (mat_name m)
                             (Scene.assign_pipeline (mat_name m))) ms,
             map (fun m => (String.append path (texture_file m),
                            VK_FORMAT_R8G8B8A8_UNORM)) ms)) /\
  ((exists m, In m ms /\ Scene.contains (texture_file m) ".ktx" = false) ->
   loadMaterials features path ms = OutOfRange).
Proof.
  intros S Hlen.
  assert (One : forall m, In m ms ->
            loadMaterial features path m =
              if Scene.contains (texture_file m) ".ktx"
              then Loaded (Scene.mkMaterial (mat_name m)
                             (Scene.assign_pipeline (mat_name m)),
                           (String.append path (texture_file m),
                            VK_FORMAT_R8G8B8A8_UNORM))
              else OutOfRange).
  { intros m Hm. rewrite (loadMaterial_supported _ _ _ S). unfold texture_file.
    destruct (mat_diffuse m) as [file|] eqn:D; [|reflexivity].
    rewrite insert_suffix
      by (rewrite replace_length; eapply Hlen; eauto).
    destruct (Scene.contains _ _); reflexivity. }
  clear Hlen. induction ms as [|m rest IH].
  - split; [reflexivity|]. intros [m [[] _]].
  - destruct IH as [Good Bad]; [intros; apply One; now right|].
    cbn [loadMaterials map]. rewrite (One m (or_introl eq_refl)). split.
    + intros All. rewrite (All m (or_introl eq_refl)). cbn [and_then].
      rewrite Good by (intros; apply All; now right). reflexivity.
    + intros [b [Hb Cb]].
      destruct (Scene.contains (texture_file m) ".ktx") eqn:Cm; [|reflexivity].
      cbn [and_then]. destruct Hb as [->|Hb]; [congruence|].
      rewrite Bad by (exists b; auto). reflexivity.
Qed.

Lemma loadMaterials_texture_files_witness :
  loadMaterials bc_features "chrome/" (mMaterials sample_scene) =
    Loaded ([Scene.mkMaterial "stone" Scene.solid;
             Scene.mkMaterial "glass_alpha" Scene.blending],
            [("chrome/textures/stone.ktx"%string, VK_FORMAT_R8G8B8A8_UNORM);
             ("chrome/dummy_rgba_unorm.ktx"%string, VK_FORMAT_R8G8B8A8_UNORM)]).
Proof.
  refine (proj1 (loadMaterials_texture_files bc_features "chrome/"
                   (mMaterials sample_scene) eq_refl _) _).
  - intros m file [<-|[<-|[]]] H; cbn in H; [|discriminate H].
    injection H as <-. cbn. unfold Scene.npos. lia.
  - intros m [<-|[<-|[]]]; reflexivity.
Defined.

Lemma loadMaterials_loaded (features : Features) (path : string) (ms : list aiMaterial) :
  forall mats texs,
    loadMaterials features path ms = Loaded (mats, texs) ->
    mats = map (fun m => Scene.mkMaterial (mat_name m)
                           (Scene.assign_pipeline (mat_name m))) ms.
Proof.
  induction ms as [|m rest IH]; intros mats texs H; cbn [loadMaterials] in H.
  - now injection H as <- <-.
  - destruct (loadMaterial features path m) as [[mat tex]| | |r] eqn:L;
      cbn [and_then] in H; try discriminate H.
    destruct (loadMaterials features path rest) as [[mats' texs']| | |r] eqn:R;
      cbn [and_then] in H; try discriminate H.
    injection H as <- <-. cbn [fst map]. rewrite <- (IH mats' texs' eq_refl). f_equal.
    unfold loadMaterial in L.
    destruct (textureCompressionBC features || textureCompressionASTC_LDR features
              || textureCompressionETC2 features) eqn:S.
    + fold (supports_compression features) in S.
      fold (loadMaterial features path m) in L.
      rewrite (loadMaterial_supported _ _ _ S) in L.
      destruct (mat_diffuse m); [destruct (insert _ _ _); try discriminate L|];
        now injection L as <- _.
    + fold (supports_compression features) in S.
      fold (loadMaterial features path m) in L.
      rewrite (loadMaterial_unsupported _ _ _ S) in L. discriminate L.
Qed.

(** X13.  A scene that loads, and whose meshes name materials that
    exist, has one part per imported mesh, each pointing to the material
    of its index with that material's imported name and the pipeline
    [loadMaterials] assigns to the name, so that [render] finds in every
    part the pipeline its bucket tests assume. *)
Theorem loaded_scene_is_consistent (features : Features) (path : string)
    (imported : aiScene) (contents : Contents) :
  load features path (Some imported) = Loaded contents ->
  (forall aMesh, In aMesh (mMeshes imported) ->
     0 <= mMaterialIndex aMesh < Z.of_nat (length (mMaterials imported))) ->
  length (meshes contents) = length (mMeshes imported) /\
  pipelines_assigned (meshes contents) /\
  (forall i mesh, nth_error (meshes contents) i = Some mesh ->
     exists aMesh m,
       nth_error (mMeshes imported) i = Some aMesh /\
       nth_error (mMaterials imported) (Z.to_nat (mMaterialIndex aMesh)) = Some m /\
       Scene.name (Scene.material mesh) = mat_name m).
Proof.
  intros H Hidx. unfold load in H.
  destruct (loadMaterials features path (mMaterials imported)) as [[mats texs]| | |r] eqn:L;
    cbn [and_then] in H; try discriminate H.
  injection H as <-. cbn [meshes fst].
  pose proof (loadMaterials_loaded _ _ _ _ _ L) as Emats.
  assert (Parts : forall aMeshes,
            (forall aMesh, In aMesh aMeshes ->
               0 <= mMaterialIndex aMesh < Z.of_nat (length (mMaterials imported))) ->
            forall base,
              length (fst (loadMeshes_from mats aMeshes base)) = length aMeshes /\
              forall i mesh,
                nth_error (fst (loadMeshes_from mats aMeshes base)) i = Some mesh ->
                exists aMesh m,
                  nth_error aMeshes i = Some aMesh /\
                  nth_error (mMaterials imported) (Z.to_nat (mMaterialIndex aMesh)) = Some m /\
                  Scene.material mesh =
                    Scene.mkMaterial (mat_name m) (Scene.assign_pipeline (mat_name m))).
  { induction aMeshes as [|aMesh rest IH]; intros Hin base; cbn [loadMeshes_from fst].
    - split; [reflexivity|]. intros [|i] mesh E; discriminate E.
    - destruct (IH (fun a Ha => Hin a (or_intror Ha))
                  (wrap32 (base + wrap32 (Z.of_nat (length (mFaces aMesh)) * 3))))
        as [Len Each].
      split; [cbn; now rewrite Len|].
      intros [|i] mesh E; cbn in E.
      + injection E as <-.
        pose proof (Hin aMesh (or_introl eq_refl)) as R.
        destruct (nth_error (mMaterials imported) (Z.to_nat (mMaterialIndex aMesh)))
          as [m|] eqn:Em; [|apply nth_error_None in Em; lia].
        exists aMesh, m. split; [reflexivity|]. split; [exact Em|].
        cbn [Scene.material]. unfold material_at. rewrite Emats.
        apply nth_error_nth. now rewrite nth_error_map, Em.
      + destruct (Each i mesh E) as (a & m & Ha & Hm & Mat).
        exists a, m. auto. }
  destruct (Parts (mMeshes imported) Hidx 0) as [Len Each].
  split; [exact Len|]. split.
  - intros mesh Hin. apply In_nth_error in Hin. destruct Hin as [i Hi].
    destruct (Each i mesh Hi) as (a & m & _ & _ & Mat). now rewrite Mat.
  - intros i mesh Hi. destruct (Each i mesh Hi) as (a & m & Ha & Hm & Mat).
    exists a, m. rewrite Mat. auto.
Qed.

Lemma loaded_scene_is_consistent_witness :
  exists contents,
    load bc_features "chrome/" (Some sample_scene) = Loaded contents /\
    length (meshes contents) = 2%nat /\
    pipelines_assigned (meshes contents).
Proof.
  eexists. split; [vm_compute; reflexivity|].
  destruct (loaded_scene_is_consistent bc_features "chrome/" sample_scene _ eq_refl)
    as (L & P & _).
  - intros aMesh [<-|[<-|[]]]; cbn; lia.
  - split; [exact L | exact P].
Defined.

End Loading.

(* ================================================================== *)
(** * Further properties: the keys *)

Section Keys.

Import ExampleKeys.

Lemma keyPressed_index (fill : bool) (size : Z) (v : View) (k : Key) :
  1 <= size <= UINT32_MAX ->
  0 <= scenePartIndex v <= size ->
  0 <= scenePartIndex (fst (keyPressed fill size v k)) <= size.
Proof.
  intros Hs Hv. unfold UINT32_MAX in Hs.
  assert (W : wrap32 size = size) by (apply wrap32_small; unfold UINT32_MAX; lia).
  destruct k; cbn [keyPressed fst scenePartIndex]; try (destruct fill; cbn; lia);
    try (cbn; lia).
  - rewrite W. destruct (Z.ltb_spec (scenePartIndex v) size).
    + rewrite wrap32_small by (unfold UINT32_MAX; lia). lia.
    + lia.
  - rewrite W. destruct (Z.gtb_spec (scenePartIndex v) 0).
    + rewrite wrap32_small by (unfold UINT32_MAX; lia). lia.
    + rewrite wrap32_small by (unfold UINT32_MAX; lia). lia.
Qed.

(** X14.  For a scene of at least one mesh, whatever keys are pressed
    [scenePartIndex] stays between 0 and the number of meshes, that
    number included; with no mesh at all, [KEY_KPSUB] at index 0 wraps the
    index to [UINT32_MAX]. *)
Theorem keys_keep_index_in_bounds (fill : bool) (size : Z) (keys : list Key) :
  0 <= size <= UINT32_MAX ->
  (1 <= size ->
   forall v, 0 <= scenePartIndex v <= size ->
     0 <= scenePartIndex (keysPressed fill size v keys) <= size) /\
  (size = 0 ->
   forall v, scenePartIndex v = 0 ->
     scenePartIndex (fst (keyPressed fill size v KEY_KPSUB)) = UINT32_MAX).
Proof.
  intros Hs. split.
  - intros H1. induction keys as [|k rest IH]; intros v Hv; cbn [keysPressed].
    + exact Hv.
    + apply IH. apply keyPressed_index; [lia | exact Hv].
  - intros -> v Hv. cbn [keyPressed fst scenePartIndex]. rewrite Hv. reflexivity.
Qed.

Lemma keys_keep_index_in_bounds_witness :
  0 <= scenePartIndex
         (keysPressed true 4 initial_view [KEY_KPSUB; KEY_KPADD; KEY_KPADD; KEY_P]) <= 4.
Proof.
  refine (proj1 (keys_keep_index_in_bounds true 4
                   [KEY_KPSUB; KEY_KPADD; KEY_KPADD; KEY_P] _) _ initial_view _);
    unfold UINT32_MAX; cbn; lia.
Defined.

Lemma repeated_KPADD (fill : bool) (size : Z) (n : nat) :
  forall v,
    size <= UINT32_MAX ->
    0 <= scenePartIndex v ->
    scenePartIndex v + Z.of_nat n <= size ->
    keysPressed fill size v (repeat KEY_KPADD n) =
      mkView (wireframe v) (attachLight v) (renderSingleScenePart v)
             (scenePartIndex v + Z.of_nat n).
Proof.
  induction n as [|n IH]; intros v Hs H0 Hn.
  - cbn [repeat keysPressed]. rewrite Z.add_0_r. now destruct v.
  - cbn [repeat keysPressed keyPressed fst].
    rewrite (wrap32_small size) by lia.
    destruct (Z.ltb_spec (scenePartIndex v) size); [|lia].
    rewrite wrap32_small by lia.
    rewrite IH; cbn [scenePartIndex wireframe attachLight renderSingleScenePart];
      try lia.
    f_equal. lia.
Qed.

(** X15.  The index can be stepped one past the last mesh: from the
    initial state, [KEY_P] followed by as many [KEY_KPADD] as there are
    meshes selects single-part rendering with [scenePartIndex] equal to
    the number of meshes, and [Scene::render] then draws nothing; one
    more [KEY_KPADD] returns to index 0, and the first mesh is drawn. *)
Theorem index_past_the_last_mesh (fill : bool) (meshes : list Scene.ScenePart) :
  1 <= Z.of_nat (length meshes) <= 2147483648 ->
  let size := Z.of_nat (length meshes) in
  let v := keysPressed fill size initial_view
             (KEY_P :: repeat KEY_KPADD (length meshes)) in
  let v' := fst (keyPressed fill size v KEY_KPADD) in
  renderSingleScenePart v = true /\
  scenePartIndex v = size /\
  Scene.render (renderSingleScenePart v) (scenePartIndex v) meshes = [] /\
  Scene.render (renderSingleScenePart v') (scenePartIndex v') meshes = [0].
Proof.
  intros Hlen size v v'.
  assert (Ev : v = mkView false false true size).
  { subst v. cbn [keysPressed keyPressed fst].
    rewrite repeated_KPADD;
      cbn [scenePartIndex wireframe attachLight renderSingleScenePart initial_view negb];
      unfold UINT32_MAX; subst size; try lia.
    reflexivity. }
  assert (Ev' : v' = mkView false false true 0).
  { subst v'. rewrite Ev. cbn [keyPressed fst scenePartIndex wireframe attachLight
                                 renderSingleScenePart].
    rewrite (wrap32_small size) by (unfold UINT32_MAX; subst size; lia).
    now rewrite Z.ltb_irrefl. }
  rewrite Ev, Ev'. cbn [scenePartIndex renderSingleScenePart].
  split; [reflexivity|]. split; [reflexivity|].
  rewrite !render_tests by (subst size; lia).
  rewrite !single_part_buckets. subst size. split.
  - destruct (Z.leb_spec 0 (Z.of_nat (length meshes))); [|lia].
    destruct (Z.ltb_spec (Z.of_nat (length meshes)) (0 + Z.of_nat (length meshes)));
      [lia | reflexivity].
  - destruct (Z.ltb_spec 0 (0 + Z.of_nat (length meshes))); [reflexivity | lia].
Qed.

Lemma index_past_the_last_mesh_witness :
  Scene.render
    (renderSingleScenePart
       (keysPressed true 4 initial_view (KEY_P :: repeat KEY_KPADD 4)))
    (scenePartIndex
       (keysPressed true 4 initial_view (KEY_P :: repeat KEY_KPADD 4)))
    sample_meshes = [].
Proof.
  refine (proj1 (proj2 (proj2 (index_past_the_last_mesh true sample_meshes _)))).
  cbn. lia.
Defined.

(** X16.  [keyPressed] never changes what is drawn (the wireframe flag,
    the single-part flag or the part index) without calling
    [reBuildCommandBuffers], and never changes [attachLight] without
    calling [updateUniformBuffers]; when it calls nothing, it has changed
    nothing.  The overlay text is updated exactly for the three keys that
    deal with single-part rendering. *)
Theorem key_changes_are_followed_up (fill : bool) (size : Z) (v : View) (k : Key) :
  (~ same_drawing v (fst (keyPressed fill size v k)) ->
   In reBuildCommandBuffers (snd (keyPressed fill size v k))) /\
  (attachLight (fst (keyPressed fill size v k)) <> attachLight v ->
   snd (keyPressed fill size v k) = [updateUniformBuffers]) /\
  (snd (keyPressed fill size v k) = [] -> fst (keyPressed fill size v k) = v) /\
  (In updateTextOverlay (snd (keyPressed fill size v k)) <->
   k = KEY_P \/ k = KEY_KPADD \/ k = KEY_KPSUB).
Proof.
  assert (Same : same_drawing v v) by (repeat split).
  repeat split.
  - intros Changed. destruct k; cbn [keyPressed fst snd] in *;
      try (destruct fill; cbn [fst snd] in * );
      try (now left); try (right; now left); try contradiction.
  - intros Changed. destruct k; cbn [keyPressed fst snd] in *;
      try (destruct fill; cbn [fst snd attachLight] in * );
      cbn [attachLight] in Changed; try contradiction; reflexivity.
  - intros Quiet. destruct k; cbn [keyPressed fst snd] in *;
      try (destruct fill; cbn [fst snd] in * ); try discriminate Quiet; reflexivity.
  - intros Hin. destruct k; cbn [keyPressed snd] in Hin;
      try (destruct fill; cbn [snd] in Hin); auto;
      repeat (destruct Hin as [Hin|Hin]; try discriminate Hin); contradiction.
  - intros [->|[->| ->]]; cbn; auto.
Qed.

End Keys.

(* ================================================================== *)
(** * Further properties: the worker data from start to end *)

Section WorkerData.

Import VulkanExample.
Import ExampleLifetime.

Lemma map_set_nth {A B : Type} (f : A -> B) (x : A) (l : list A) :
  forall n a, nth_error l n = Some a -> f x = f a ->
    map f (set_nth n x l) = map f l.
Proof.
  induction l as [|b rest IH]; intros [|n] a H E; cbn in *; try discriminate H.
  - injection H as ->. now rewrite E.
  - f_equal. eapply IH; eauto.
Qed.

Lemma threadRenderCode_commandPool (checkSphere : vec3 -> bool) (t i : Z)
    (threadData : list ThreadData) :
  map commandPool (threadRenderCode checkSphere t i threadData) =
    map commandPool threadData.
Proof.
  unfold threadRenderCode.
  destruct (at_index threadData t) as [thread|] eqn:E; [|reflexivity].
  destruct (Z.of_nat (length (objectData thread)) <=? 0); [reflexivity|].
  destruct (at_index (objectData thread) i); [|reflexivity].
  unfold set_index. eapply map_set_nth; [exact E | reflexivity].
Qed.

Lemma pool_run_commandPool (checkSphere : vec3 -> bool)
    (s1 s2 : Queues * list ThreadData) :
  pool_run checkSphere s1 s2 ->
  map commandPool (snd s2) = map commandPool (snd s1).
Proof.
  induction 1 as [|s1 s2 s3 Step _ IH]; [reflexivity|].
  rewrite IH. destruct Step. cbn [snd]. apply threadRenderCode_commandPool.
Qed.

Lemma settled_refresh (checkSphere : vec3 -> bool) (threadData0 : list ThreadData)
    (threads' : Queues) (threadData' : list ThreadData) :
  frame_invariant checkSphere threadData0 (threads', threadData') ->
  all_idle threads' ->
  map commandPool threadData' = map commandPool threadData0 ->
  threadData' = map (refresh checkSphere) threadData0.
Proof.
  intros (_ & Len & Each) Idle Pools. cbn [fst snd] in *.
  apply nth_error_ext. intros n. rewrite nth_error_map.
  destruct (nth_error threadData0 n) as [thread0|] eqn:E0; cbn [option_map].
  - destruct (Each n thread0 E0) as (thread & Et & Cb & Lo & Objs).
    rewrite Et. f_equal.
    assert (P : commandPool thread = commandPool thread0).
    { pose proof (f_equal (fun l => nth_error l n) Pools) as Pn. cbn beta in Pn.
      rewrite !nth_error_map, Et, E0 in Pn. cbn in Pn. now injection Pn. }
    destruct thread as [p b o]. unfold refresh. cbn in *. subst p b. f_equal.
    apply nth_error_ext. intros i. rewrite nth_error_map.
    destruct (nth_error (objectData thread0) i) as [object0|] eqn:O0; cbn [option_map].
    + destruct (Objs i object0 O0) as (object & Eo & Pos & Vis).
      rewrite Eo. f_equal. destruct object as [q vis]. cbn in *. subst q. f_equal.
      destruct Vis as [Vis|(queue & Eq & Hin)]; [exact Vis|].
      rewrite (Idle queue (nth_error_In _ _ Eq)) in Hin. destruct Hin.
    + apply nth_error_None. rewrite Lo. now apply nth_error_None.
  - apply nth_error_None. rewrite Len. now apply nth_error_None.
Qed.

Lemma frame_refreshes (checkSphere : vec3 -> bool) (N M : Z)
    (threadData threadData' : list ThreadData) (commands : option (list Z)) :
  well_sized N M threadData ->
  updateCommandBuffers checkSphere N M threadData threadData' commands ->
  threadData' = map (refresh checkSphere) threadData /\
  commands = executed (assemble N M threadData') /\
  well_sized N M threadData'.
Proof.
  intros Sized (threads' & Run & Idle & Cmd).
  pose proof (frame_invariant_run checkSphere threadData _ _ Run
                (frame_invariant_start checkSphere N M threadData Sized)) as Inv.
  split; [|split; [exact Cmd | eapply settled_well_sized; eauto]].
  apply (settled_refresh checkSphere threadData threads' threadData' Inv Idle).
  exact (pool_run_commandPool checkSphere _ _ Run).
Qed.

Lemma refresh_twice (checkSphere : vec3 -> bool) (threadData : list ThreadData) :
  map (refresh checkSphere) (map (refresh checkSphere) threadData) =
    map (refresh checkSphere) threadData.
Proof.
  rewrite map_map. apply map_ext. intros thread. unfold refresh. cbn.
  f_equal. rewrite map_map. apply map_ext. intros object. reflexivity.
Qed.

(** X17.  However the workers interleave, a frame leaves exactly one
    per-worker state: pools, buffers, and positions are untouched and every
    visibility flag holds the result of this frame's test, none keeps the
    flag of an earlier frame.  A second frame with the same test therefore
    changes nothing and executes the same command buffers. *)
Theorem frame_outcome_is_schedule_independent (checkSphere : vec3 -> bool) (N M : Z)
    (threadData threadData' : list ThreadData) (commands : option (list Z)) :
  well_sized N M threadData ->
  updateCommandBuffers checkSphere N M threadData threadData' commands ->
  threadData' = map (refresh checkSphere) threadData /\
  forall threadData'' commands',
    updateCommandBuffers checkSphere N M threadData' threadData'' commands' ->
    threadData'' = threadData' /\ commands' = commands.
Proof.
  intros Sized Frame.
  destruct (frame_refreshes _ _ _ _ _ _ Sized Frame) as (E1 & C1 & Sized').
  split; [exact E1|].
  intros threadData'' commands' Frame'.
  destruct (frame_refreshes _ _ _ _ _ _ Sized' Frame') as (E2 & C2 & _).
  assert (Same : threadData'' = threadData').
  { rewrite E2, E1. apply refresh_twice. }
  split; [exact Same|]. rewrite C2, C1, Same. reflexivity.
Qed.

Lemma frame_outcome_is_schedule_independent_witness :
  exists threadData' commands,
    updateCommandBuffers left_of_origin 2 2 sample_threadData threadData' commands /\
    threadData' =
      [mkThreadData 1 [11; 12]
         [mkObjectData (-32, -32, -10) true; mkObjectData (4, -32, -10) false];
       mkThreadData 2 [21; 22]
         [mkObjectData (6, -32, -10) false; mkObjectData (-2, -30, -10) true]].
Proof.
  destruct (pool_drains left_of_origin _
              (dispatch 2 2 (setThreadCount 2)) sample_threadData (le_n _))
    as (threads' & threadData' & Run & Idle).
  exists threadData', (executed (assemble 2 2 threadData')).
  assert (Frame : updateCommandBuffers left_of_origin 2 2 sample_threadData
                    threadData' (executed (assemble 2 2 threadData')))
    by (exists threads'; auto).
  split; [exact Frame|].
  exact (proj1 (frame_outcome_is_schedule_independent left_of_origin 2 2
                  sample_threadData threadData' _ sample_threadData_sized Frame)).
Defined.

Lemma refresh_well_sized (checkSphere : vec3 -> bool) (N M : Z)
    (threadData : list ThreadData) :
  well_sized N M threadData ->
  well_sized N M (map (refresh checkSphere) threadData).
Proof.
  intros [Len Each]. split; [now rewrite length_map|].
  intros thread Hin. apply in_map_iff in Hin. destruct Hin as (thread0 & <- & Hin).
  destruct (Each thread0 Hin) as [Lb Lo]. unfold refresh. cbn.
  rewrite length_map. auto.
Qed.

Lemma frames_keep (N M : Z) (threadData threadData' : list ThreadData) :
  frames N M threadData threadData' ->
  well_sized N M threadData ->
  map handles threadData' = map handles threadData /\
  map pos (all_objects threadData') = map pos (all_objects threadData).
Proof.
  induction 1 as [td|check td td' td'' commands Frame _ IH]; intros Sized;
    [split; reflexivity|].
  destruct (frame_refreshes _ _ _ _ _ _ Sized Frame) as (E & _ & Sized').
  destruct (IH Sized') as [H P]. rewrite H, P, E. split.
  - rewrite map_map. apply map_ext. reflexivity.
  - unfold all_objects. clear. induction td as [|thread rest IHr]; [reflexivity|].
    cbn [map flat_map]. rewrite !map_app, IHr. f_equal.
    unfold refresh. cbn. rewrite map_map. reflexivity.
Qed.

Lemma free_threads_handles (threadData : list ThreadData) :
  free_threads threadData =
    flat_map (fun h => [FreeCommandBuffers (fst h) (Z.of_nat (length (snd h))) (snd h);
                        DestroyCommandPool (fst h)])
             (map handles threadData).
Proof.
  unfold free_threads. induction threadData as [|thread rest IH]; [reflexivity|].
  cbn [map flat_map]. now rewrite IH.
Qed.

Lemma prepare_threads_handles (pool : Z -> Z) (alloc : Z -> Z -> Z) (M : Z)
    (count : nat) :
  forall (k : nat) x1 y1,
    map handles (prepare_threads pool alloc count (Z.of_nat k) M x1 y1) =
      map (fun i => (pool i, map (alloc i) (range M)))
          (map Z.of_nat (seq k count)).
Proof.
  induction count as [|count IH]; intros k x1 y1; [reflexivity|].
  cbn [prepare_threads].
  destruct (place_objects (Z.to_nat M) x1 y1) as [objects [x1' y1']].
  cbn [map seq handles commandPool commandBuffer]. f_equal.
  replace (Z.of_nat k + 1) with (Z.of_nat (S k)) by lia. apply IH.
Qed.

Lemma seq_handles (pool : Z -> Z) (alloc : Z -> Z -> Z) (M : Z) (l : list Z) :
  0 <= M ->
  flat_map (fun h => [FreeCommandBuffers (fst h) (Z.of_nat (length (snd h))) (snd h);
                      DestroyCommandPool (fst h)])
           (map (fun i => (pool i, map (alloc i) (range M))) l) =
    flat_map (fun i => [FreeCommandBuffers (pool i) M (map (alloc i) (range M));
                        DestroyCommandPool (pool i)]) l.
Proof.
  intros HM. induction l as [|i rest IH]; [reflexivity|].
  cbn [map flat_map fst snd]. rewrite IH.
  rewrite length_map, range_length, Z2Nat.id by exact HM. reflexivity.
Qed.

(** X18.  Whatever frames were drawn in between, the loop of
    [~VulkanExample] frees, for each worker in index order, exactly the
    [numObjectsPerThread] command buffers that
    [prepareMultiThreadedRenderer] allocated for it, from the pool created
    for it, and then destroys that pool: every pool is destroyed once and
    only after its buffers were freed. *)
Theorem teardown_frees_what_was_prepared (pool : Z -> Z) (alloc : Z -> Z -> Z)
    (N M : Z) (threadData : list ThreadData) :
  0 <= N -> 0 <= M ->
  frames N M (prepareMultiThreadedRenderer pool alloc N M) threadData ->
  free_threads threadData =
    flat_map (fun i => [FreeCommandBuffers (pool i) M (map (alloc i) (range M));
                        DestroyCommandPool (pool i)])
             (range N).
Proof.
  intros HN HM Frames.
  destruct (frames_keep _ _ _ _ Frames (prepared_well_sized pool alloc N M HN HM))
    as [H _].
  rewrite free_threads_handles, H. unfold prepareMultiThreadedRenderer.
  change 0 with (Z.of_nat 0) at 1.
  rewrite (prepare_threads_handles pool alloc M (Z.to_nat N) 0 0 0).
  rewrite seq_handles by exact HM. reflexivity.
Qed.

Lemma teardown_frees_what_was_prepared_witness :
  free_threads
    (prepareMultiThreadedRenderer (fun i => 100 + i) (fun i j => 10 * i + j) 2 2) =
    [FreeCommandBuffers 100 2 [0; 1]; DestroyCommandPool 100;
     FreeCommandBuffers 101 2 [10; 11]; DestroyCommandPool 101].
Proof.
  apply (teardown_frees_what_was_prepared (fun i => 100 + i) (fun i j => 10 * i + j)
           2 2); [lia | lia | apply frames_none].
Defined.

Lemma place_objects_grid (count : nat) :
  forall (k : nat) x1 y1,
    0 <= x1 <= 32 -> Z.of_nat k = 32 * y1 + x1 ->
    map pos (fst (place_objects count x1 y1)) =
      map grid (map Z.of_nat (seq k count)) /\
    0 <= fst (snd (place_objects count x1 y1)) <= 32 /\
    Z.of_nat (k + count) =
      32 * snd (snd (place_objects count x1 y1)) + fst (snd (place_objects count x1 y1)).
Proof.
  induction count as [|count IH]; intros k x1 y1 Hx Hk.
  - cbn [place_objects fst snd seq map]. rewrite Nat.add_0_r.
    split; [reflexivity|]. split; [exact Hx | exact Hk].
  - cbn [place_objects].
    destruct (Z.leb_spec 32 x1) as [Full|Room].
    + assert (x1 = 32) by lia. subst x1.
      destruct (IH (S k) (32 - 32 + 1) (y1 + 1)) as (P & B & C); [lia | lia |].
      destruct (place_objects count (32 - 32 + 1) (y1 + 1)) as [rest cursor].
      cbn [fst snd map seq pos] in *. split; [|split; [exact B | rewrite <- C; lia]].
      f_equal; [|exact P]. unfold grid.
      replace (Z.of_nat k) with (0 + (y1 + 1) * 32) by lia.
      rewrite Z.mod_add, Z.div_add by lia. reflexivity.
    + destruct (IH (S k) (x1 + 1) y1) as (P & B & C); [lia | lia |].
      destruct (place_objects count (x1 + 1) y1) as [rest cursor].
      cbn [fst snd map seq pos] in *. split; [|split; [exact B | rewrite <- C; lia]].
      f_equal; [|exact P]. unfold grid.
      replace (Z.of_nat k) with (x1 + y1 * 32) by lia.
      rewrite Z.mod_add, Z.div_add by lia.
      rewrite Z.mod_small, Z.div_small by lia. reflexivity.
Qed.

Lemma prepare_threads_grid (pool : Z -> Z) (alloc : Z -> Z -> Z) (M : Z) (count : nat) :
  forall i (k : nat) x1 y1,
    0 <= x1 <= 32 -> Z.of_nat k = 32 * y1 + x1 ->
    map pos (all_objects (prepare_threads pool alloc count i M x1 y1)) =
      map grid (map Z.of_nat (seq k (count * Z.to_nat M))).
Proof.
  induction count as [|count IH]; intros i k x1 y1 Hx Hk; [reflexivity|].
  cbn [prepare_threads].
  destruct (place_objects_grid (Z.to_nat M) k x1 y1 Hx Hk) as (P & B & C).
  pose proof (place_objects_length (Z.to_nat M) x1 y1) as L.
  destruct (place_objects (Z.to_nat M) x1 y1) as [objects [x1' y1']].
  cbn [fst snd] in *. unfold all_objects in *. cbn [flat_map objectData].
  rewrite map_app, P, (IH (i + 1) (k + Z.to_nat M)%nat x1' y1' B C).
  cbn [Nat.mul]. rewrite seq_app, !map_app. reflexivity.
Qed.

Lemma grid_injective (a b : Z) : grid a = grid b -> a = b.
Proof.
  unfold grid. intros H.
  pose proof (f_equal (fun p => fst (fst p)) H) as Hx.
  pose proof (f_equal (fun p => snd (fst p)) H) as Hy.
  cbn [fst snd] in Hx, Hy.
  pose proof (Z.div_mod a 32 ltac:(lia)) as Ha.
  pose proof (Z.div_mod b 32 ltac:(lia)) as Hb.
  assert (Em : a mod 32 = b mod 32) by lia.
  assert (Ed : a / 32 = b / 32) by lia.
  congruence.
Qed.

Lemma placed_visible (count : nat) :
  forall x1 y1 object,
    In object (fst (place_objects count x1 y1)) -> visible object = true.
Proof.
  induction count as [|count IH]; intros x1 y1 object Hin; [destruct Hin|].
  cbn [place_objects] in Hin.
  destruct (if 32 <=? x1 then (x1 - 32, y1 + 1) else (x1, y1)) as [x' y'].
  specialize (IH (x' + 1) y' object).
  destruct (place_objects count (x' + 1) y') as [rest cursor].
  cbn [fst] in *. destruct Hin as [<-|Hin]; [reflexivity | auto].
Qed.

Lemma prepared_visible (pool : Z -> Z) (alloc : Z -> Z -> Z) (M : Z) (count : nat) :
  forall i x1 y1 object,
    In object (all_objects (prepare_threads pool alloc count i M x1 y1)) ->
    visible object = true.
Proof.
  induction count as [|count IH]; intros i x1 y1 object Hin; [destruct Hin|].
  cbn [prepare_threads] in Hin.
  pose proof (placed_visible (Z.to_nat M) x1 y1 object) as Placed.
  destruct (place_objects (Z.to_nat M) x1 y1) as [objects [x1' y1']].
  unfold all_objects in Hin. cbn [flat_map objectData fst] in *.
  apply in_app_or in Hin. destruct Hin as [Hin|Hin]; [auto|].
  exact (IH _ _ _ object Hin).
Qed.

(** X19.  For at most 1024 objects, as the constructor sizes them,
    [prepareMultiThreadedRenderer] places the objects of all workers,
    counted through in worker order, on a grid of rows of 32: the
    [k]-th object stands at column [k mod 32] and row [k / 32], two units
    apart, starting from (-32, -32) in the plane z = -10.  No two objects
    share a place, every object starts visible, and the frames drawn later
    never move one. *)
Theorem objects_stand_on_a_grid (pool : Z -> Z) (alloc : Z -> Z -> Z)
    (N M : Z) (threadData : list ThreadData) :
  0 <= N -> 0 <= M -> N * M <= 1024 ->
  frames N M (prepareMultiThreadedRenderer pool alloc N M) threadData ->
  map pos (all_objects threadData) = map grid (range (N * M)) /\
  NoDup (map pos (all_objects threadData)) /\
  forall object,
    In object (all_objects (prepareMultiThreadedRenderer pool alloc N M)) ->
    visible object = true.
Proof.
  intros HN HM _ Frames.
  destruct (frames_keep _ _ _ _ Frames (prepared_well_sized pool alloc N M HN HM))
    as [_ P].
  assert (G : map pos (all_objects threadData) = map grid (range (N * M))).
  { rewrite P. unfold prepareMultiThreadedRenderer, range.
    rewrite Z2Nat.inj_mul by lia.
    apply (prepare_threads_grid pool alloc M (Z.to_nat N) 0 0 0 0); lia. }
  split; [exact G|]. split.
  - rewrite G. apply Injective_map_NoDup; [|apply range_NoDup].
    intros a b. apply grid_injective.
  - unfold prepareMultiThreadedRenderer. intros object. apply prepared_visible.
Qed.

Lemma objects_stand_on_a_grid_witness :
  map pos (all_objects
             (prepareMultiThreadedRenderer (fun i => 100 + i) (fun i j => 10 * i + j)
                2 17)) =
    map grid (range 34).
Proof.
  refine (proj1 (objects_stand_on_a_grid (fun i => 100 + i) (fun i j => 10 * i + j)
                   2 17 _ _ _ _ (frames_none _ _ _))); lia.
Defined.

End WorkerData.

(* ================================================================== *)
(** * Further properties: result names and entry points *)

Section Names.

Import ResultNames.

Lemma switch_listed (labels : list (Z * string)) (default : string) :
  NoDup (map fst labels) ->
  forall code name, In (code, name) labels -> switch code labels default = name.
Proof.
  induction labels as [|[value n] rest IH]; intros ND code name Hin; [destruct Hin|].
  cbn [switch]. cbn [map fst] in ND. apply NoDup_cons_iff in ND. destruct ND as [Fresh ND].
  destruct Hin as [E|Hin].
  - injection E as -> ->. now rewrite Z.eqb_refl.
  - destruct (Z.eqb_spec code value) as [->|_]; [|now apply IH].
    exfalso. apply Fresh. apply in_map_iff. exists (value, name). auto.
Qed.

Lemma switch_cases (labels : list (Z * string)) (default : string) (code : Z) :
  (exists name, In (code, name) labels /\ switch code labels default = name) \/
  (~ In code (map fst labels) /\ switch code labels default = default).
Proof.
  induction labels as [|[value n] rest IH]; [right; split; [intros [] | reflexivity]|].
  cbn [switch map fst].
  destruct (Z.eqb_spec code value) as [->|Hne].
  - left. exists n. split; [now left | reflexivity].
  - destruct IH as [(name & Hin & E)|[Hnot E]].
    + left. exists name. split; [now right | exact E].
    + right. split; [|exact E]. intros [H|H]; [congruence | contradiction].
Qed.

Lemma NoDup_snd_injective {A B : Type} (l : list (A * B)) :
  NoDup (map snd l) ->
  forall a a' b, In (a, b) l -> In (a', b) l -> a = a'.
Proof.
  induction l as [|[x y] rest IH]; intros ND a a' b H H'; [destruct H|].
  cbn [map snd] in ND. apply NoDup_cons_iff in ND. destruct ND as [Fresh ND].
  destruct H as [E|H], H' as [E'|H'].
  - congruence.
  - injection E as -> ->. exfalso. apply Fresh. apply in_map_iff. exists (a', b). auto.
  - injection E' as -> ->. exfalso. apply Fresh. apply in_map_iff. exists (a, b). auto.
  - eapply IH; eauto.
Qed.

Lemma codes_distinct : NoDup (map fst cases).
Proof.
  apply (NoDup_count_occ' Z.eq_dec). intros x Hin.
  cbn in Hin. repeat (destruct Hin as [<-|Hin]; [vm_compute; reflexivity|]).
  destruct Hin.
Qed.

Lemma names_distinct : NoDup (map snd cases).
Proof.
  apply (NoDup_count_occ' string_dec). intros x Hin.
  cbn in Hin. repeat (destruct Hin as [<-|Hin]; [vm_compute; reflexivity|]).
  destruct Hin.
Qed.

Lemma names_not_empty (code : Z) (name : string) :
  In (code, name) cases -> name <> EmptyString.
Proof.
  intros Hin. cbn in Hin.
  repeat (destruct Hin as [E|Hin]; [injection E as <- <-; discriminate|]).
  destruct Hin.
Qed.

(** X20.  [vkErrorToStr] gives every result code that has a [case] its
    own name, the empty string to every other code and to no listed one,
    and different names to different listed codes; [vkIsSuccessful]
    returns true exactly for [VK_SUCCESS], printing nothing then, and
    otherwise prints the message followed by that name. *)
Theorem result_names_identify_codes (a b : Z) (msg : string) :
  (forall name, In (a, name) cases -> vkErrorToStr a = name) /\
  (vkErrorToStr a = EmptyString <-> ~ In a (map fst cases)) /\
  (vkErrorToStr a = vkErrorToStr b -> In a (map fst cases) -> a = b) /\
  (fst (vkIsSuccessful a msg) = true <-> a = VK_SUCCESS) /\
  (snd (vkIsSuccessful a msg) = None <-> a = VK_SUCCESS) /\
  (forall text, snd (vkIsSuccessful a msg) = Some text ->
     text = String.append "Failed: "
              (String.append msg
                 (String.append ". Vulkan has raised an error: " (vkErrorToStr a)))).
Proof.
  unfold vkErrorToStr.
  split; [|split; [|split; [|split; [|split]]]].
  - intros name. apply switch_listed, codes_distinct.
  - destruct (switch_cases cases EmptyString a) as [(name & Hin & E)|[Hnot E]].
    + split.
      * intros Empty. exfalso. apply (names_not_empty a name Hin). congruence.
      * intros Hnot. exfalso. apply Hnot. apply in_map_iff. exists (a, name). auto.
    + split; auto.
  - intros Same Listed.
    destruct (switch_cases cases EmptyString a) as [(name & Hin & E)|[Hnot _]];
      [|contradiction].
    destruct (switch_cases cases EmptyString b) as [(name' & Hin' & E')|[_ E']].
    + rewrite E, E' in Same. subst name'.
      exact (NoDup_snd_injective cases names_distinct a b name Hin Hin').
    + exfalso. apply (names_not_empty a name Hin). congruence.
  - unfold vkIsSuccessful, VK_SUCCESS.
    destruct (Z.eqb_spec a 0); cbn; split; intros; try discriminate;
      try contradiction; auto.
  - unfold vkIsSuccessful, VK_SUCCESS.
    destruct (Z.eqb_spec a 0); cbn; split; intros; try discriminate;
      try contradiction; auto.
  - unfold vkIsSuccessful, VK_SUCCESS. intros text.
    destruct (Z.eqb_spec a 0); cbn [negb snd]; intros H; [discriminate H|].
    now injection H as <-.
Qed.

End Names.

Section Loader.

Import SwapChainLoader.

(** X21.  [connect] returns exactly when the driver knows all nine entry
    points, and then every function pointer is the driver's answer for
    the name of that pointer and none is null; when one is missing the
    process exits without a message, whatever the other lookups give. *)
Theorem connect_finds_every_entry_point
    (vkGetInstanceProcAddr vkGetDeviceProcAddr : string -> Z) :
  connect vkGetInstanceProcAddr vkGetDeviceProcAddr =
    if found vkGetInstanceProcAddr instance_entrypoints
       && found vkGetDeviceProcAddr device_entrypoints
    then
      Ok (mkFunctionPointers
            (vkGetInstanceProcAddr "vkGetPhysicalDeviceSurfaceSupportKHR"%string)
            (vkGetInstanceProcAddr "vkGetPhysicalDeviceSurfaceCapabilitiesKHR"%string)
            (vkGetInstanceProcAddr "vkGetPhysicalDeviceSurfaceFormatsKHR"%string)
            (vkGetInstanceProcAddr "vkGetPhysicalDeviceSurfacePresentModesKHR"%string)
            (vkGetDeviceProcAddr "vkCreateSwapchainKHR"%string)
            (vkGetDeviceProcAddr "vkDestroySwapchainKHR"%string)
            (vkGetDeviceProcAddr "vkGetSwapchainImagesKHR"%string)
            (vkGetDeviceProcAddr "vkAcquireNextImageKHR"%string)
            (vkGetDeviceProcAddr "vkQueuePresentKHR"%string))
    else ExitFatal EmptyString.
Proof.
  unfold connect, GET_PROC_ADDR, found, instance_entrypoints, device_entrypoints.
  cbn [forallb String.append].
  repeat match goal with
         | |- context [?g ?n =? 0] => destruct (g n =? 0); cbn [bind negb andb]
         end; reflexivity.
Qed.

End Loader.

(* ================================================================== *)
(** * Further properties: [sample_main] to its end *)

Section SampleRun.

Import Test03Run.
Import SwapChainLifetime.

(** X22.  On a host where every call succeeds, [sample_main] creates the
    swapchain, then one view per swapchain image in image order, then
    destroys the views in the same order and the swapchain last, returns
    0, and leaves no swapchain and no view behind.  When the display-plane
    surface cannot be created it makes none of these calls and returns
    [false], which is 0 as well: the exit status does not tell the two
    runs apart. *)
Theorem sample_main_cleans_up (res_surface : Z) (h : Test03.Host) (i : Images) :
  Test03_host_ok h -> Test03.surfFormats h <> [] -> images_ok i ->
  exists calls,
    sample_main res_surface h i = (Returned 0, calls) /\
    final_device (mkDevice [] []) calls = mkDevice [] [] /\
    (res_surface <> VK_SUCCESS -> calls = []) /\
    (res_surface = VK_SUCCESS ->
     exists ci,
       calls =
         CreateSwapchainKHR ci (swap_chain i)
         :: map (fun img => CreateImageView img (snd (vkCreateImageView i img)))
                (swapchainImages i)
         ++ map (fun img => DestroyImageView (snd (vkCreateImageView i img)))
                (swapchainImages i)
         ++ [DestroySwapchainKHR (swap_chain i)]).
Proof.
  intros Hok Hf Hi.
  destruct (Z.eq_dec res_surface VK_SUCCESS) as [->|Hne].
  - destruct (sample_main_runs h Hok Hf) as (g & p & fmt & _ & _ & Run).
    rewrite (sample_main_completes h i _ _ _ Run Hi).
    eexists. split; [reflexivity|].
    split; [|split; [intros H; now contradiction H | intros _; eexists; reflexivity]].
    unfold final_device at 1. cbn [fold_left step live_swapchains live_views].
    fold (final_device (mkDevice [swap_chain i] [])
            (map (fun img => CreateImageView img (snd (vkCreateImageView i img)))
                 (swapchainImages i)
             ++ map (fun img => DestroyImageView (snd (vkCreateImageView i img)))
                    (swapchainImages i)
             ++ [DestroySwapchainKHR (swap_chain i)])).
    rewrite !final_device_app.
    rewrite (final_after_creating_views (fun img => snd (vkCreateImageView i img))).
    rewrite <- (map_map (fun img => snd (vkCreateImageView i img)) DestroyImageView).
    rewrite final_after_destroying_views.
    cbn [live_swapchains live_views final_device fold_left step drop_handle filter].
    rewrite Z.eqb_refl. cbn [negb]. f_equal.
    apply all_dropped. intros v Hin. rewrite app_nil_r in Hin.
    now apply in_rev in Hin.
  - exists []. unfold sample_main, ResultNames.vkIsSuccessful.
    destruct (Z.eqb_spec res_surface VK_SUCCESS) as [E|_]; [contradiction|].
    cbn [negb fst]. repeat split. intros ->. contradiction.
Qed.

Lemma sample_main_cleans_up_witness :
  exists calls,
    sample_main 0 (sample_host free_size_caps [VK_PRESENT_MODE_FIFO_KHR]) sample_images
      = (Returned 0, calls) /\
    final_device (mkDevice [] []) calls = mkDevice [] [].
Proof.
  destruct (sample_main_cleans_up 0
              (sample_host free_size_caps [VK_PRESENT_MODE_FIFO_KHR]) sample_images)
    as (calls & Run & Clean & _).
  - apply sample_host_ok.
  - discriminate.
  - repeat split.
  - exists calls. split; [exact Run | exact Clean].
Defined.

(** X23.  Once the swapchain exists, [sample_main] runs to its
    [return 0] exactly when the two image queries, the allocation of the
    image array and every view creation succeed.  Otherwise it stops at
    an assertion and has destroyed nothing: the calls it made are the
    swapchain creation and the creations of the views of the images
    before the first one whose view could not be created (none when a
    query or the allocation failed), and the swapchain and these views
    are still alive when the process aborts. *)
Theorem sample_main_aborts_without_cleanup (h : Test03.Host) (i : Images) :
  Test03_host_ok h -> Test03.surfFormats h <> [] ->
  (images_ok i <-> fst (sample_main VK_SUCCESS h i) = Returned 0) /\
  (~ images_ok i ->
   exists expression ci made,
     sample_main VK_SUCCESS h i =
       (Aborted expression,
        CreateSwapchainKHR ci (swap_chain i)
        :: map (fun img => CreateImageView img (snd (vkCreateImageView i img))) made) /\
     (~ queries_ok i -> made = []) /\
     (queries_ok i ->
      exists failing rest,
        swapchainImages i = made ++ failing :: rest /\
        (forall img, In img made -> fst (vkCreateImageView i img) = VK_SUCCESS) /\
        fst (vkCreateImageView i failing) <> VK_SUCCESS) /\
     (forall c, In c (snd (sample_main VK_SUCCESS h i)) -> is_destroy c = false) /\
     final_device (mkDevice [] []) (snd (sample_main VK_SUCCESS h i)) =
       mkDevice [swap_chain i]
                (rev (map (fun img => snd (vkCreateImageView i img)) made))).
Proof.
  intros Hok Hf.
  destruct (sample_main_runs h Hok Hf) as (g & p & fmt & _ & _ & Run).
  assert (Stops : ~ images_ok i ->
    exists expression ci made,
      sample_main VK_SUCCESS h i =
        (Aborted expression,
         CreateSwapchainKHR ci (swap_chain i)
         :: map (fun img => CreateImageView img (snd (vkCreateImageView i img))) made) /\
      (~ queries_ok i -> made = []) /\
      (queries_ok i ->
       exists failing rest,
         swapchainImages i = made ++ failing :: rest /\
         (forall img, In img made -> fst (vkCreateImageView i img) = VK_SUCCESS) /\
         fst (vkCreateImageView i failing) <> VK_SUCCESS)).
  { intros Hbad.
    destruct (sample_main_stops h i _ _ _ Run Hbad) as (x & made & E & Q).
    eexists x, _, made. split; [exact E | exact Q]. }
  split.
  - split.
    + intros Hi. now rewrite (sample_main_completes h i _ _ _ Run Hi).
    + intros Ret. destruct (images_ok_or_not i) as [Hi|Hbad]; [exact Hi|].
      destruct (Stops Hbad) as (x & ci & made & E & _).
      rewrite E in Ret. discriminate Ret.
  - intros Hbad. destruct (Stops Hbad) as (x & ci & made & E & Q1 & Q2).
    exists x, ci, made. split; [exact E|]. split; [exact Q1|]. split; [exact Q2|].
    rewrite E. cbn [snd]. split.
    + intros c [<-|Hin]; [reflexivity|].
      apply in_map_iff in Hin. destruct Hin as (img & <- & _). reflexivity.
    + unfold final_device at 1. cbn [fold_left step live_swapchains live_views].
      fold (final_device (mkDevice [swap_chain i] [])
              (map (fun img => CreateImageView img (snd (vkCreateImageView i img)))
                   made)).
      rewrite (final_after_creating_views (fun img => snd (vkCreateImageView i img))).
      cbn [live_swapchains live_views]. now rewrite app_nil_r.
Qed.

Lemma sample_main_aborts_without_cleanup_witness :
  exists expression ci,
    sample_main VK_SUCCESS (sample_host free_size_caps [VK_PRESENT_MODE_FIFO_KHR])
      (mkImages 20 0 true 0 [200; 201; 202]
         (fun img => (if img =? 201 then 1 else 0, img + 10))) =
      (Aborted expression, [CreateSwapchainKHR ci 20; CreateImageView 200 210]) /\
    final_device (mkDevice [] [])
      (snd (sample_main VK_SUCCESS
              (sample_host free_size_caps [VK_PRESENT_MODE_FIFO_KHR])
              (mkImages 20 0 true 0 [200; 201; 202]
                 (fun img => (if img =? 201 then 1 else 0, img + 10))))) =
      mkDevice [20] [210].
Proof.
  destruct (proj2 (sample_main_aborts_without_cleanup
                     (sample_host free_size_caps [VK_PRESENT_MODE_FIFO_KHR])
                     (mkImages 20 0 true 0 [200; 201; 202]
                        (fun img => (if img =? 201 then 1 else 0, img + 10)))
                     (sample_host_ok _ _) ltac:(discriminate)))
    as (x & ci & made & E & _ & _ & _ & Alive).
  - intros (_ & _ & _ & All). specialize (All 201 (or_intror (or_introl eq_refl))).
    discriminate All.
  - exists x, ci. rewrite E in Alive |- *.
    assert (M : made = [200]).
    { pose proof (f_equal snd E) as T. vm_compute in T.
      injection T as _ T. destruct made as [|a [|b rest]]; try discriminate T.
      now injection T as <-. }
    rewrite M in *. split; [reflexivity | exact Alive].
Defined.

End SampleRun.
